(** * The realtime WebRTC session hook: model and verified properties

    This development embeds the connection manager of
    [src/lib/use-realtime-webrtc.ts] (the [useRealtimeWebRTC] hook) and
    proves properties of its recovery controller, teardown, event bus and
    outbound channel.  It also embeds the SDP helpers of
    [src/lib/openai-webrtc-compat.ts] and the signaling endpoint of
    [src/app/api/session/route.ts], to which the hook posts its offer.

    The source file holds two revisions of the hook.  Both are embedded:
    - [Proxied]: the revision that sends its offer to the [/api/session]
      backend (first half of the file);
    - [Direct]: the revision that fetches an ephemeral token and talks to
      the remote service directly, with the debug overlay (second half).

    Modelling choices, all following the source:
    - React refs ([useRef]) and React state ([useState]) are fields of one
      store, [State]; a [setState] call is an assignment to its field.
    - Browser objects (peer connections, data channels, media streams,
      audio elements) live in heaps indexed by identity; a ref holds an
      index, so two closures holding the same object see the same object.
    - The browser timer table is a finite map from timer ids to pending
      callbacks; [setTimeout] inserts, [clearTimeout] and firing delete.
    - [async] functions are resumable programs: every [await] is a
      suspension point that hands control back to the event loop together
      with a continuation, which is later resumed on the store as other
      callbacks have left it.
    - Values captured by a [useCallback] closure (the listener list and the
      session flag seen by [connect]) are an explicit [Render] argument.
    - [console] holds, in order, the lines the hook itself writes with
      [console.log], [console.warn] and [console.error].  The debug
      overlay of [Direct] is outside the model: a call of [debug.log]
      appends to the overlay's panel and echoes the line, with a time
      stamp, through [console.log], and these echoes are not recorded.
      What is stated about [Direct] is therefore stated about refs,
      state, heaps and timers and about the hook's own console lines;
      where a whole store is described, it is described up to the
      console ([same_but_console]).
    - The [ontrack] handler (it only feeds the audio element) and the
      ICE candidate and gathering handlers (they only log) are left
      out.  [restartIce], which nothing calls, is embedded on its own
      and is no callback of the event loop. *)

From Stdlib Require Import ZArith Lia Bool.
From stdpp Require Import base option list gmap strings pretty.

Local Open Scope string_scope.
Local Open Scope list_scope.
Local Open Scope Z_scope.

(** ** Data model *)

(** [ConnectionState.status] *)
Inductive Status := disconnected | connecting | connected | error.

(** [interface ConnectionState { status; error? }] *)
Record ConnectionState := mkConnectionState {
  status : Status;
  error_message : option string
}.

(** [RTCIceConnectionState] *)
Inductive IceState :=
| ice_new | ice_checking | ice_connected | ice_completed
| ice_disconnected | ice_failed | ice_closed.

(** [RTCPeerConnectionState] *)
Inductive PcState :=
| pcs_new | pcs_connecting | pcs_connected
| pcs_disconnected | pcs_failed | pcs_closed.

(** [RTCDataChannelState] *)
Inductive ReadyState := rs_connecting | rs_open | rs_closing | rs_closed.

(** A JavaScript value, as the field of an event may hold one ([any]).
    The hook never looks inside; the kinds are those [JSON.stringify]
    tells apart: it throws a [TypeError] on a [BigInt] and on an object
    that is reachable from itself ([js_cycle]: a reference back to an
    enclosing object or array).  A number is a double, given by its 64
    bits. *)
#[local] Unset Elimination Schemes.
Inductive JsValue :=
| js_undefined
| js_null
| js_boolean (b : bool)
| js_number (bits : Z)
| js_bigint (n : Z)
| js_string (t : string)
| js_symbol
| js_function
| js_array (items : list JsValue)
| js_object (fields : list (string * JsValue))
| js_cycle.
#[local] Set Elimination Schemes.

(** [interface RealtimeEvent { type: string; [key: string]: any }] *)
Record RealtimeEvent := mkEvent {
  ev_type : string;
  ev_fields : list (string * JsValue)
}.

(** A listener is a function value; the hook only stores it, calls it and
    compares it by identity ([l !== listener]), so it is represented by
    its identity. *)
Definition Listener := nat.

(** A thrown JavaScript value: [instanceof Error], [.name], [.message]. *)
Record Exn := mkExn {
  exn_is_Error : bool;
  exn_name : string;
  exn_message : string
}.

(** [new Error(msg)] *)
Definition new_Error (msg : string) : Exn := mkExn true "Error" msg.

(** [DOMException] raised by an operation on a closed peer connection. *)
Definition InvalidStateError : Exn :=
  mkExn true "InvalidStateError" "The RTCPeerConnection's signalingState is 'closed'.".

(** What the hook depends on but does not define: the JSON codec and the
    behaviour of the listener functions handed to [addEventListener]
    ([None]: returns normally, [Some e]: throws [e]).  [JSON_stringify]
    yields the text of the event or the exception it throws (a
    [TypeError] for a [BigInt] or a cyclic value, or whatever a [toJSON]
    method or a getter of the event throws); [JSON_parse] yields the
    parsed event or the exception it throws. *)
Class Platform := {
  JSON_stringify : RealtimeEvent -> Exn + string;
  JSON_parse : string -> Exn + RealtimeEvent;
  listener_call : Listener -> RealtimeEvent -> option Exn
}.

(** *** Browser objects *)

Record MediaStreamTrack := mkTrack {
  track_audio : bool;   (* [kind === 'audio'] *)
  track_live : bool     (* [readyState === 'live'], false after [stop()] *)
}.

Record MediaStream := mkStream {
  stream_tracks : list MediaStreamTrack
}.

Record PeerConnection := mkPc {
  iceConnectionState : IceState;
  pc_connectionState : PcState;
  pc_closed : bool;
  (* [oniceconnectionstatechange] / [onconnectionstatechange] assigned *)
  pc_on_ice : bool;
  pc_on_state : bool;
  (* tracks handed to [addTrack]: (stream, index of the track in it) *)
  pc_senders : list (nat * nat)
}.

Record DataChannel := mkDc {
  readyState : ReadyState;
  (* payloads handed to [send], oldest first *)
  dc_sent : list string;
  (* the message handler, once installed: the listener list its closure
     captured *)
  dc_onmessage : option (list Listener);
  (* an [open] handler is installed *)
  dc_onopen : bool
}.

Record AudioElement := mkAudio {
  audio_removed : bool
}.

(** Pending [setTimeout] callbacks of the hook. *)
Inductive TimerCallback :=
| cb_grace (pc : nat)   (* grace check closed over [pc] *)
| cb_reconnect          (* [async () => { await connect() ... }] *)
| cb_abort.             (* [() => controller.abort()] *)

Record Timer := mkTimer {
  timer_callback : TimerCallback;
  timer_delay : Z
}.

Inductive LogLevel := lvl_log | lvl_warn | lvl_error.

(** The value passed after the message of a console call, if any. *)
Inductive LogArg :=
| arg_none
| arg_text (t : string)
| arg_event (e : RealtimeEvent)
| arg_exn (e : Exn).

(** One [console.log] / [console.warn] / [console.error] call. *)
Record LogEntry := mkLog {
  log_level : LogLevel;
  log_text : string;
  log_arg : LogArg
}.

(** ** The store *)

Record State := mkState {
  (* React state *)
  connectionState : ConnectionState;
  isSessionStarted : bool;
  eventListeners : list Listener;
  (* refs *)
  pcRef : option nat;
  dcRef : option nat;
  audioElementRef : option nat;
  localStreamRef : option nat;
  reconnectTimeoutRef : option positive;
  connectionAttempts : Z;
  (* browser heaps *)
  pcs : list PeerConnection;
  dcs : list DataChannel;
  streams : list MediaStream;
  audios : list AudioElement;
  timers : gmap positive Timer;
  next_timer : positive;
  (* observations *)
  console : list LogEntry;
  delivered : list (Listener * RealtimeEvent)
}.

(** [const maxReconnectAttempts = 3] *)
Definition maxReconnectAttempts : Z := 3.

Definition initial_state : State :=
  {| connectionState := mkConnectionState disconnected None;
     isSessionStarted := false;
     eventListeners := [];
     pcRef := None; dcRef := None; audioElementRef := None;
     localStreamRef := None; reconnectTimeoutRef := None;
     connectionAttempts := 0;
     pcs := []; dcs := []; streams := []; audios := [];
     timers := ∅; next_timer := 1%positive;
     console := []; delivered := [] |}.

(** *** Field assignments *)

Definition setConnectionState (c : ConnectionState) (s : State) : State :=
  mkState c (isSessionStarted s) (eventListeners s) (pcRef s) (dcRef s)
    (audioElementRef s) (localStreamRef s) (reconnectTimeoutRef s)
    (connectionAttempts s) (pcs s) (dcs s) (streams s) (audios s)
    (timers s) (next_timer s) (console s) (delivered s).

Definition setIsSessionStarted (b : bool) (s : State) : State :=
  mkState (connectionState s) b (eventListeners s) (pcRef s) (dcRef s)
    (audioElementRef s) (localStreamRef s) (reconnectTimeoutRef s)
    (connectionAttempts s) (pcs s) (dcs s) (streams s) (audios s)
    (timers s) (next_timer s) (console s) (delivered s).

Definition setEventListeners (f : list Listener -> list Listener) (s : State) : State :=
  mkState (connectionState s) (isSessionStarted s) (f (eventListeners s))
    (pcRef s) (dcRef s)
    (audioElementRef s) (localStreamRef s) (reconnectTimeoutRef s)
    (connectionAttempts s) (pcs s) (dcs s) (streams s) (audios s)
    (timers s) (next_timer s) (console s) (delivered s).

Definition set_pcRef (r : option nat) (s : State) : State :=
  mkState (connectionState s) (isSessionStarted s) (eventListeners s) r (dcRef s)
    (audioElementRef s) (localStreamRef s) (reconnectTimeoutRef s)
    (connectionAttempts s) (pcs s) (dcs s) (streams s) (audios s)
    (timers s) (next_timer s) (console s) (delivered s).

Definition set_dcRef (r : option nat) (s : State) : State :=
  mkState (connectionState s) (isSessionStarted s) (eventListeners s) (pcRef s) r
    (audioElementRef s) (localStreamRef s) (reconnectTimeoutRef s)
    (connectionAttempts s) (pcs s) (dcs s) (streams s) (audios s)
    (timers s) (next_timer s) (console s) (delivered s).

Definition set_audioElementRef (r : option nat) (s : State) : State :=
  mkState (connectionState s) (isSessionStarted s) (eventListeners s) (pcRef s) (dcRef s)
    r (localStreamRef s) (reconnectTimeoutRef s)
    (connectionAttempts s) (pcs s) (dcs s) (streams s) (audios s)
    (timers s) (next_timer s) (console s) (delivered s).

Definition set_localStreamRef (r : option nat) (s : State) : State :=
  mkState (connectionState s) (isSessionStarted s) (eventListeners s) (pcRef s) (dcRef s)
    (audioElementRef s) r (reconnectTimeoutRef s)
    (connectionAttempts s) (pcs s) (dcs s) (streams s) (audios s)
    (timers s) (next_timer s) (console s) (delivered s).

Definition set_reconnectTimeoutRef (r : option positive) (s : State) : State :=
  mkState (connectionState s) (isSessionStarted s) (eventListeners s) (pcRef s) (dcRef s)
    (audioElementRef s) (localStreamRef s) r
    (connectionAttempts s) (pcs s) (dcs s) (streams s) (audios s)
    (timers s) (next_timer s) (console s) (delivered s).

Definition set_connectionAttempts (n : Z) (s : State) : State :=
  mkState (connectionState s) (isSessionStarted s) (eventListeners s) (pcRef s) (dcRef s)
    (audioElementRef s) (localStreamRef s) (reconnectTimeoutRef s)
    n (pcs s) (dcs s) (streams s) (audios s)
    (timers s) (next_timer s) (console s) (delivered s).

Definition set_pcs (h : list PeerConnection) (s : State) : State :=
  mkState (connectionState s) (isSessionStarted s) (eventListeners s) (pcRef s) (dcRef s)
    (audioElementRef s) (localStreamRef s) (reconnectTimeoutRef s)
    (connectionAttempts s) h (dcs s) (streams s) (audios s)
    (timers s) (next_timer s) (console s) (delivered s).

Definition set_dcs (h : list DataChannel) (s : State) : State :=
  mkState (connectionState s) (isSessionStarted s) (eventListeners s) (pcRef s) (dcRef s)
    (audioElementRef s) (localStreamRef s) (reconnectTimeoutRef s)
    (connectionAttempts s) (pcs s) h (streams s) (audios s)
    (timers s) (next_timer s) (console s) (delivered s).

Definition set_streams (h : list MediaStream) (s : State) : State :=
  mkState (connectionState s) (isSessionStarted s) (eventListeners s) (pcRef s) (dcRef s)
    (audioElementRef s) (localStreamRef s) (reconnectTimeoutRef s)
    (connectionAttempts s) (pcs s) (dcs s) h (audios s)
    (timers s) (next_timer s) (console s) (delivered s).

Definition set_audios (h : list AudioElement) (s : State) : State :=
  mkState (connectionState s) (isSessionStarted s) (eventListeners s) (pcRef s) (dcRef s)
    (audioElementRef s) (localStreamRef s) (reconnectTimeoutRef s)
    (connectionAttempts s) (pcs s) (dcs s) (streams s) h
    (timers s) (next_timer s) (console s) (delivered s).

Definition set_timers (t : gmap positive Timer) (n : positive) (s : State) : State :=
  mkState (connectionState s) (isSessionStarted s) (eventListeners s) (pcRef s) (dcRef s)
    (audioElementRef s) (localStreamRef s) (reconnectTimeoutRef s)
    (connectionAttempts s) (pcs s) (dcs s) (streams s) (audios s)
    t n (console s) (delivered s).

Definition set_console (c : list LogEntry) (s : State) : State :=
  mkState (connectionState s) (isSessionStarted s) (eventListeners s) (pcRef s) (dcRef s)
    (audioElementRef s) (localStreamRef s) (reconnectTimeoutRef s)
    (connectionAttempts s) (pcs s) (dcs s) (streams s) (audios s)
    (timers s) (next_timer s) c (delivered s).

Definition set_delivered (d : list (Listener * RealtimeEvent)) (s : State) : State :=
  mkState (connectionState s) (isSessionStarted s) (eventListeners s) (pcRef s) (dcRef s)
    (audioElementRef s) (localStreamRef s) (reconnectTimeoutRef s)
    (connectionAttempts s) (pcs s) (dcs s) (streams s) (audios s)
    (timers s) (next_timer s) (console s) d.

(** ** Browser primitives *)

Definition console_log (t : string) (a : LogArg) (s : State) : State :=
  set_console (console s ++ [mkLog lvl_log t a]) s.

Definition console_warn (t : string) (a : LogArg) (s : State) : State :=
  set_console (console s ++ [mkLog lvl_warn t a]) s.

Definition console_error (t : string) (a : LogArg) (s : State) : State :=
  set_console (console s ++ [mkLog lvl_error t a]) s.

(** [setTimeout(cb, delay)]: a fresh id, the callback pending under it. *)
Definition setTimeout (cb : TimerCallback) (delay : Z) (s : State) : positive * State :=
  (next_timer s,
   set_timers (<[next_timer s := mkTimer cb delay]> (timers s))
              (Pos.succ (next_timer s)) s).

(** [clearTimeout(id)]: nothing happens when [id] is not pending. *)
Definition clearTimeout (id : positive) (s : State) : State :=
  set_timers (delete id (timers s)) (next_timer s) s.

(** [if (ref.current) clearTimeout(ref.current)]: timer ids are positive
    numbers, so the test is a test against [null]. *)
Definition clear_if_set (r : option positive) (s : State) : State :=
  match r with
  | Some id => clearTimeout id s
  | None => s
  end.

(** [pc.close()] *)
Definition close_pc (p : PeerConnection) : PeerConnection :=
  mkPc ice_closed pcs_closed true (pc_on_ice p) (pc_on_state p) (pc_senders p).

Definition pc_close (i : nat) (s : State) : State :=
  set_pcs (alter close_pc i (pcs s)) s.

(** [dc.close()]: an open or connecting channel starts closing; the
    browser reports [closed] later. *)
Definition close_dc (d : DataChannel) : DataChannel :=
  match readyState d with
  | rs_closing | rs_closed => d
  | _ => mkDc rs_closing (dc_sent d) (dc_onmessage d) (dc_onopen d)
  end.

Definition dc_close (i : nat) (s : State) : State :=
  set_dcs (alter close_dc i (dcs s)) s.

(** [dc.send(data)] on an open channel. *)
Definition dc_send (i : nat) (data : string) (s : State) : State :=
  set_dcs (alter (fun d => mkDc (readyState d) (dc_sent d ++ [data])
                                (dc_onmessage d) (dc_onopen d)) i (dcs s)) s.

(** [track.stop()] *)
Definition stop_track (t : MediaStreamTrack) : MediaStreamTrack :=
  mkTrack (track_audio t) false.

(** [stream.getTracks().forEach(track => track.stop())] *)
Definition stop_all_tracks (i : nat) (s : State) : State :=
  set_streams (alter (fun m => mkStream (map stop_track (stream_tracks m))) i
                     (streams s)) s.

(** [audioElement.remove()] *)
Definition audio_remove (i : nat) (s : State) : State :=
  set_audios (alter (fun _ => mkAudio true) i (audios s)) s.

(** The strings of the state enumerations, as logged. *)
Definition ice_name (st : IceState) : string :=
  match st with
  | ice_new => "new" | ice_checking => "checking"
  | ice_connected => "connected" | ice_completed => "completed"
  | ice_disconnected => "disconnected" | ice_failed => "failed"
  | ice_closed => "closed"
  end.

Definition pcs_name (st : PcState) : string :=
  match st with
  | pcs_new => "new" | pcs_connecting => "connecting"
  | pcs_connected => "connected" | pcs_disconnected => "disconnected"
  | pcs_failed => "failed" | pcs_closed => "closed"
  end.

(** [error instanceof Error ? error.message : fallback] *)
Definition message_of (e : Exn) (fallback : string) : string :=
  if exn_is_Error e then exn_message e else fallback.

(** [!value] for a possibly undefined string. *)
Definition falsy (v : option string) : bool :=
  match v with
  | None => true
  | Some t => String.eqb t ""
  end.

(** [mediaStream.getAudioTracks()[0]]: index of the first audio track. *)
Fixpoint first_audio_from (i : nat) (tracks : list MediaStreamTrack) : option nat :=
  match tracks with
  | [] => None
  | t :: rest => if track_audio t then Some i else first_audio_from (S i) rest
  end.

(** ** Operations shared verbatim by both revisions *)

Section Shared.
Context {platform : Platform}.

(** [addEventListener(listener)]: appends; the returned closure is
    [removeEventListener listener]. *)
Definition addEventListener (l : Listener) (s : State) : State :=
  setEventListeners (fun prev => prev ++ [l]) s.

Definition removeEventListener (l : Listener) (s : State) : State :=
  setEventListeners (fun prev => filter (fun l' => l' <> l) prev) s.

(** [sendEvent(event)]: the store it leaves and the exception that
    escapes it, if any.  There is no [try] in it: when [JSON.stringify]
    throws, [send] is never called and the exception reaches the
    caller. *)
Definition sendEvent (event : RealtimeEvent) (s : State) : State * option Exn :=
  match dcRef s with
  | Some i =>
      match dcs s !! i with
      | Some d =>
          match readyState d with
          | rs_open =>
              match JSON_stringify event with
              | inr data => (dc_send i data s, None)
              | inl err => (s, Some err)
              end
          | _ => (console_warn "Data channel not ready, event not sent:" (arg_event event) s,
                  None)
          end
      | None => (console_warn "Data channel not ready, event not sent:" (arg_event event) s,
                 None)
      end
  | None => (console_warn "Data channel not ready, event not sent:" (arg_event event) s,
             None)
  end.

(** The text of the template literal
    [`Attempting reconnection ${n}/${maxReconnectAttempts}`]. *)
Definition attempting_reconnection (n : Z) : string :=
  "Attempting reconnection " +:+ pretty n +:+ "/" +:+ pretty maxReconnectAttempts.

Definition exhausted_message : string :=
  "Connection failed after multiple attempts. Please check your network connection and try again.".

End Shared.

(** ** Resumable programs

    An [async] function runs until its next [await], where it hands a
    request to the browser and suspends; the browser later settles the
    request and the continuation runs on the store as it is then. *)

(** [Response]: [ok] and [status] of a settled [fetch]. *)
Record HttpResponse := mkResponse {
  resp_ok : bool;
  resp_status : Z
}.

(** The parts of the session JSON that [connect] reads:
    [session.client_secret.value] and [session.id]. *)
Record SessionInfo := mkSession {
  client_secret_value : string;
  session_id : string
}.

Inductive Request :=
| rq_getUserMedia
| rq_createOffer (pc : nat)
| rq_setLocalDescription (pc : nat)
| rq_fetch (url : string) (body : option string)
| rq_text
| rq_json
| rq_setRemoteDescription (pc : nat) (sdp : string).

(** What each request resolves to. [getUserMedia]: the tracks of the new
    stream; [createOffer]: [offer.sdp], possibly undefined. *)
Definition Answer (rq : Request) : Type :=
  match rq with
  | rq_getUserMedia => list MediaStreamTrack
  | rq_createOffer _ => option string
  | rq_setLocalDescription _ => unit
  | rq_fetch _ _ => HttpResponse
  | rq_text => string
  | rq_json => SessionInfo
  | rq_setRemoteDescription _ _ => unit
  end.

(** A settled promise. *)
Inductive Settled (A : Type) :=
| fulfilled (a : A)
| rejected (e : Exn).
Arguments fulfilled {A} a.
Arguments rejected {A} e.

Inductive Res (A : Type) : Type :=
| Ret (s : State) (a : A)
| Throw (s : State) (e : Exn)
| Await (s : State) (rq : Request) (k : Settled (Answer rq) -> State -> Res A).
Arguments Ret {A} s a.
Arguments Throw {A} s e.
Arguments Await {A} s rq k.

Definition Prog (A : Type) : Type := State -> Res A.

Fixpoint res_bind {A B} (r : Res A) (f : A -> Prog B) : Res B :=
  match r with
  | Ret s a => f a s
  | Throw s e => Throw s e
  | Await s rq k => Await s rq (fun x s' => res_bind (k x s') f)
  end.

Fixpoint res_catch {A} (r : Res A) (h : Exn -> Prog A) : Res A :=
  match r with
  | Ret s a => Ret s a
  | Throw s e => h e s
  | Await s rq k => Await s rq (fun x s' => res_catch (k x s') h)
  end.

Definition ret {A} (a : A) : Prog A := fun s => Ret s a.
Definition throw {A} (e : Exn) : Prog A := fun s => Throw s e.
Definition bind {A B} (p : Prog A) (f : A -> Prog B) : Prog B :=
  fun s => res_bind (p s) f.
Definition try_catch {A} (p : Prog A) (h : Exn -> Prog A) : Prog A :=
  fun s => res_catch (p s) h.

(** [await rq]: suspend; resume with the value, or throw the rejection. *)
Definition await (rq : Request) : Prog (Answer rq) :=
  fun s => Await s rq (fun x s' =>
    match x with
    | fulfilled a => Ret s' a
    | rejected e => Throw s' e
    end).

(** A synchronous statement, and a read of the store. *)
Definition act (f : State -> State) : Prog unit := fun s => Ret (f s) tt.
Definition read {A} (f : State -> A) : Prog A := fun s => Ret s (f s).

Declare Scope prog_scope.
Delimit Scope prog_scope with prog.
Notation "x <- p ;; q" := (bind p (fun x => q))
  (at level 100, p at next level, right associativity) : prog_scope.
Notation "p ;; q" := (bind p (fun _ => q))
  (at level 100, right associativity) : prog_scope.
Notation "'try' p 'catch' x => h" := (try_catch p (fun x => h))
  (at level 100, p at level 100, x name, h at level 100) : prog_scope.

(** The store a program has left behind at its current suspension (or end). *)
Definition res_state {A} (r : Res A) : State :=
  match r with
  | Ret s _ => s
  | Throw s _ => s
  | Await s _ _ => s
  end.

(** *** Allocation and throwing browser calls *)

(** [new RTCPeerConnection(...)] *)
Definition new_RTCPeerConnection : Prog nat := fun s =>
  Ret (set_pcs (pcs s ++ [mkPc ice_new pcs_new false false false []]) s)
      (length (pcs s)).

(** [document.createElement("audio")] *)
Definition createElement_audio : Prog nat := fun s =>
  Ret (set_audios (audios s ++ [mkAudio false]) s) (length (audios s)).

(** The [MediaStream] a fulfilled [getUserMedia] delivers. *)
Definition new_MediaStream (tracks : list MediaStreamTrack) : Prog nat := fun s =>
  Ret (set_streams (streams s ++ [mkStream tracks]) s) (length (streams s)).

Definition is_closed (pc : nat) (s : State) : bool :=
  match pcs s !! pc with
  | Some p => pc_closed p
  | None => true
  end.

(** [pc.addTrack(track, stream)]: throws on a closed connection. *)
Definition pc_addTrack (pc stream track : nat) : Prog unit := fun s =>
  if is_closed pc s then Throw s InvalidStateError
  else Ret (set_pcs (alter (fun p =>
              mkPc (iceConnectionState p) (pc_connectionState p) (pc_closed p)
                   (pc_on_ice p) (pc_on_state p)
                   (pc_senders p ++ [(stream, track)])) pc (pcs s)) s) tt.

(** [pc.createDataChannel("oai-events", ...)]: throws on a closed
    connection. *)
Definition pc_createDataChannel (pc : nat) : Prog nat := fun s =>
  if is_closed pc s then Throw s InvalidStateError
  else Ret (set_dcs (dcs s ++ [mkDc rs_connecting [] None false]) s)
           (length (dcs s)).

(** [setTimeout] as a statement. *)
Definition set_timeout (cb : TimerCallback) (delay : Z) : Prog positive := fun s =>
  let '(id, s') := setTimeout cb delay s in Ret s' id.

(** The values a [connect] closure captured from the render that created
    it: [eventListeners] and (revision [Direct]) [isSessionStarted]. *)
Record Render := mkRender {
  r_eventListeners : list Listener;
  r_isSessionStarted : bool
}.

(** The render of the mounted hook whose closures [attemptReconnect]
    keeps: it is memoised with an empty dependency list, so the [connect]
    it calls is the one of the first render. *)
Definition first_render : Render := mkRender [] false.

(** ** Revision [Proxied] *)

Module Proxied.
Section Hook.
Context {platform : Platform}.

Definition attemptReconnect (s : State) : State :=
  if connectionAttempts s <? maxReconnectAttempts then
    let s := set_connectionAttempts (connectionAttempts s + 1) s in
    let s := console_log (attempting_reconnection (connectionAttempts s)) arg_none s in
    (* Clear any existing timeout *)
    let s := clear_if_set (reconnectTimeoutRef s) s in
    (* Wait a bit before reconnecting *)
    let '(id, s) := setTimeout cb_reconnect (2000 * connectionAttempts s) s in
    set_reconnectTimeoutRef (Some id) s
  else
    let s := console_error "Max reconnection attempts reached" arg_none s in
    setConnectionState (mkConnectionState error (Some exhausted_message)) s.

Definition disconnect (s : State) : State :=
  let s := console_log "Disconnecting..." arg_none s in
  (* Clear reconnection timeout *)
  let s := match reconnectTimeoutRef s with
           | Some id => set_reconnectTimeoutRef None (clearTimeout id s)
           | None => s
           end in
  (* Reset connection attempts *)
  let s := set_connectionAttempts 0 s in
  (* Close data channel *)
  let s := match dcRef s with
           | Some i => set_dcRef None (dc_close i s)
           | None => s
           end in
  (* Close peer connection *)
  let s := match pcRef s with
           | Some i => set_pcRef None (pc_close i s)
           | None => s
           end in
  (* Stop local media stream *)
  let s := match localStreamRef s with
           | Some i => set_localStreamRef None (stop_all_tracks i s)
           | None => s
           end in
  (* Remove audio element *)
  let s := match audioElementRef s with
           | Some i => set_audioElementRef None (audio_remove i s)
           | None => s
           end in
  setConnectionState (mkConnectionState disconnected None) s.

(** *** Channel and connection callbacks *)

(** [dc.onmessage]: closed over the [eventListeners] of the render
    whose [connect] created the channel. *)
Definition notify (event : RealtimeEvent) (s : State) (listener : Listener) : State :=
  let s := set_delivered (delivered s ++ [(listener, event)]) s in
  match listener_call listener event with
  | Some err => console_error "Error in event listener:" (arg_exn err) s
  | None => s
  end.

Definition onmessage (listeners : list Listener) (data : string) (s : State) : State :=
  match JSON_parse data with
  | inr event =>
      let s := console_log "Received event:" (arg_text (ev_type event)) s in
      (* Notify all listeners *)
      fold_left (notify event) listeners s
  | inl err => console_error "Error parsing event data:" (arg_exn err) s
  end.

Definition onopen (s : State) : State :=
  console_log "Data channel opened" arg_none s.

Definition onclose (s : State) : State :=
  console_log "Data channel closed" arg_none s.

(** [pc.onconnectionstatechange] *)
Definition onconnectionstatechange (pc : nat) (s : State) : State :=
  match pcs s !! pc with
  | None => s
  | Some p =>
      let s := console_log "Connection state:" (arg_text (pcs_name (pc_connectionState p))) s in
      match pc_connectionState p with
      | pcs_connecting => s
      | pcs_connected => setConnectionState (mkConnectionState connected None) s
      | pcs_disconnected =>
          console_warn "Connection disconnected, monitoring for recovery..." arg_none s
      | pcs_failed =>
          let s := console_error "Connection failed permanently" arg_none s in
          setConnectionState (mkConnectionState disconnected None) s
      | pcs_closed => setConnectionState (mkConnectionState disconnected None) s
      | pcs_new => s
      end
  end.

(** [pc.oniceconnectionstatechange] *)
Definition oniceconnectionstatechange (pc : nat) (s : State) : State :=
  match pcs s !! pc with
  | None => s
  | Some p =>
      let s := console_log "ICE connection state:" (arg_text (ice_name (iceConnectionState p))) s in
      match iceConnectionState p with
      | ice_connected | ice_completed =>
          let s := console_log "ICE connection successful" arg_none s in
          set_connectionAttempts 0 s (* Reset attempts on success *)
      | ice_disconnected =>
          let s := console_warn "ICE connection disconnected, monitoring for recovery..." arg_none s in
          let s := clear_if_set (reconnectTimeoutRef s) s in
          let '(id, s) := setTimeout (cb_grace pc) 5000 s in
          set_reconnectTimeoutRef (Some id) s
      | ice_failed =>
          let s := console_error "ICE connection failed permanently" arg_none s in
          attemptReconnect s
      | ice_closed => console_log "ICE connection closed" arg_none s
      | _ => s
      end
  end.

(** The callback of the grace timer armed on [disconnected]. *)
Definition grace_callback (pc : nat) (s : State) : State :=
  match pcs s !! pc with
  | None => s
  | Some p =>
      match iceConnectionState p with
      | ice_disconnected | ice_failed =>
          let s := console_log "ICE connection did not recover, attempting reconnection..." arg_none s in
          attemptReconnect s
      | _ => s
      end
  end.

Definition install_dc_handlers (dc : nat) (listeners : list Listener) (s : State) : State :=
  set_dcs (alter (fun d => mkDc (readyState d) (dc_sent d) (Some listeners) true)
                 dc (dcs s)) s.

Definition install_pc_handlers (pc : nat) (s : State) : State :=
  set_pcs (alter (fun p => mkPc (iceConnectionState p) (pc_connectionState p)
                                (pc_closed p) true true (pc_senders p))
                 pc (pcs s)) s.

(** *** [connect] *)

Local Open Scope prog_scope.

Definition connect (cl : Render) : Prog unit :=
  try (
    act (setConnectionState (mkConnectionState connecting None)) ;;
    (* Create peer connection *)
    pc <- new_RTCPeerConnection ;;
    act (set_pcRef (Some pc)) ;;
    (* Set up to play remote audio from the model *)
    audioElement <- createElement_audio ;;
    act (set_audioElementRef (Some audioElement)) ;;
    (* Add local audio track for microphone input *)
    (try (
       tracks <- await rq_getUserMedia ;;
       mediaStream <- new_MediaStream tracks ;;
       act (set_localStreamRef (Some mediaStream)) ;;
       match first_audio_from 0 tracks with
       | Some audioTrack =>
           pc_addTrack pc mediaStream audioTrack ;;
           act (console_log "Added local audio track" arg_none)
       | None => ret tt
       end)
     catch err =>
       (act (console_error "Error accessing microphone:" (arg_exn err)) ;;
        throw (new_Error "Microphone access required for voice chat. Please grant permission and try again."))) ;;
    (* Set up data channel for sending and receiving events *)
    dc <- pc_createDataChannel pc ;;
    act (set_dcRef (Some dc)) ;;
    act (install_dc_handlers dc (r_eventListeners cl)) ;;
    act (install_pc_handlers pc) ;;
    (* Start the session using the Session Description Protocol (SDP) *)
    offer <- await (rq_createOffer pc) ;;
    await (rq_setLocalDescription pc) ;;
    (if falsy offer then throw (new_Error "Failed to create SDP offer") else ret tt) ;;
    (* Send SDP to our backend with timeout *)
    timeoutId <- set_timeout cb_abort 30000 ;;
    (try (
       sdpResponse <- await (rq_fetch "/api/session" offer) ;;
       act (clearTimeout timeoutId) ;;
       (if negb (resp_ok sdpResponse) then
          errorText <- await rq_text ;;
          if resp_status sdpResponse =? 401
          then throw (new_Error "OpenAI API key invalid or missing Realtime API access")
          else throw (new_Error ("Session creation failed: " +:+ errorText))
        else ret tt) ;;
       answerSdp <- await rq_text ;;
       (if String.eqb answerSdp "" then throw (new_Error "Empty SDP response from server")
        else ret tt) ;;
       await (rq_setRemoteDescription pc answerSdp) ;;
       act (console_log "WebRTC connection established" arg_none) ;;
       (* Reset connection attempts on successful connection *)
       act (set_connectionAttempts 0))
     catch err =>
       (act (clearTimeout timeoutId) ;;
        if exn_is_Error err && String.eqb (exn_name err) "AbortError"
        then throw (new_Error "Connection timeout. Please try again.")
        else throw err)))
  catch err =>
    (act (console_error "Connection error:" (arg_exn err)) ;;
     (* Only set error state if this is the first attempt or we've
        exhausted retries *)
     attempts <- read connectionAttempts ;;
     (if attempts =? 0
      then act (setConnectionState
                  (mkConnectionState error (Some (message_of err "Unknown connection error"))))
      else ret tt) ;;
     (* Cleanup on error *)
     act disconnect).

(** The callback [attemptReconnect] hands to [setTimeout]:
    [async () => { try { await connect() } catch (error) { ... } }],
    with the [connect] of the first render. *)
Definition reconnect_callback : Prog unit :=
  try connect first_render
  catch err => act (console_error "Reconnection failed:" (arg_exn err)).

End Hook.
End Proxied.

(** ** Revision [Direct]

    The statements of the hook, without the [debug.log] and
    [debug?.log] calls that stand between them (see the modelling
    choices at the top). *)

Module Direct.
Section Hook.
Context {platform : Platform}.

Definition attemptReconnect (s : State) : State :=
  if connectionAttempts s <? maxReconnectAttempts then
    let s := set_connectionAttempts (connectionAttempts s + 1) s in
    let s := console_log (attempting_reconnection (connectionAttempts s)) arg_none s in
    (* Clear any existing timeout *)
    let s := clear_if_set (reconnectTimeoutRef s) s in
    (* Cleanup current connection before reconnecting *)
    let s := match pcRef s with
             | Some i => set_pcRef None (pc_close i s)
             | None => s
             end in
    let s := match dcRef s with
             | Some i => set_dcRef None (dc_close i s)
             | None => s
             end in
    (* Wait a bit before reconnecting *)
    let '(id, s) := setTimeout cb_reconnect (2000 * connectionAttempts s) s in
    set_reconnectTimeoutRef (Some id) s
  else
    let s := console_error "Max reconnection attempts reached" arg_none s in
    setConnectionState (mkConnectionState error (Some exhausted_message)) s.

Definition disconnect (s : State) : State :=
  let s := console_log "Disconnecting..." arg_none s in
  (* Clear reconnection timeout *)
  let s := match reconnectTimeoutRef s with
           | Some id => set_reconnectTimeoutRef None (clearTimeout id s)
           | None => s
           end in
  (* Reset connection attempts and session state *)
  let s := set_connectionAttempts 0 s in
  let s := setIsSessionStarted false s in
  (* Close data channel *)
  let s := match dcRef s with
           | Some i => set_dcRef None (dc_close i s)
           | None => s
           end in
  (* Close peer connection *)
  let s := match pcRef s with
           | Some i => set_pcRef None (pc_close i s)
           | None => s
           end in
  (* Stop local media stream *)
  let s := match localStreamRef s with
           | Some i => set_localStreamRef None (stop_all_tracks i s)
           | None => s
           end in
  (* Remove audio element *)
  let s := match audioElementRef s with
           | Some i => set_audioElementRef None (audio_remove i s)
           | None => s
           end in
  setConnectionState (mkConnectionState disconnected None) s.

(** *** Channel and connection callbacks *)

(** [eventListeners.forEach(listener => listener(event))]: a throwing
    listener ends the loop; the exception leaves the handler. *)
Fixpoint forEach_listener (listeners : list Listener) (event : RealtimeEvent)
         (s : State) : State * option Exn :=
  match listeners with
  | [] => (s, None)
  | listener :: rest =>
      let s := set_delivered (delivered s ++ [(listener, event)]) s in
      match listener_call listener event with
      | Some err => (s, Some err)
      | None => forEach_listener rest event s
      end
  end.

(** [dc.addEventListener('message', ...)]: the result carries the
    exception that escapes the handler, if any. *)
Definition onmessage (listeners : list Listener) (data : string) (s : State)
  : State * option Exn :=
  match JSON_parse data with
  | inr event => forEach_listener listeners event s
  | inl err => (s, Some err)
  end.

(** [dc.addEventListener('open', ...)] *)
Definition onopen (s : State) : State :=
  setConnectionState (mkConnectionState connected None) s.

(** [pc.oniceconnectionstatechange] *)
Definition oniceconnectionstatechange (pc : nat) (s : State) : State :=
  match pcs s !! pc with
  | None => s
  | Some p =>
      match iceConnectionState p with
      | ice_connected | ice_completed =>
          let s := console_log "ICE connection successful" arg_none s in
          let s := setConnectionState (mkConnectionState connected None) s in
          set_connectionAttempts 0 s
      | ice_disconnected =>
          let s := console_warn "ICE connection disconnected" arg_none s in
          let s := clear_if_set (reconnectTimeoutRef s) s in
          let '(id, s) := setTimeout (cb_grace pc) 5000 s in
          set_reconnectTimeoutRef (Some id) s
      | ice_failed =>
          let s := console_error "ICE connection failed" arg_none s in
          attemptReconnect s
      | _ => s
      end
  end.

(** The callback of the grace timer armed on [disconnected]. *)
Definition grace_callback (pc : nat) (s : State) : State :=
  match pcs s !! pc with
  | None => s
  | Some p =>
      match iceConnectionState p with
      | ice_disconnected | ice_failed => attemptReconnect s
      | _ => s
      end
  end.

Definition install_pc_handlers (pc : nat) (s : State) : State :=
  set_pcs (alter (fun p => mkPc (iceConnectionState p) (pc_connectionState p)
                                (pc_closed p) true (pc_on_state p) (pc_senders p))
                 pc (pcs s)) s.

Definition install_dc_listeners (dc : nat) (listeners : list Listener) (s : State) : State :=
  set_dcs (alter (fun d => mkDc (readyState d) (dc_sent d) (Some listeners) true)
                 dc (dcs s)) s.

(** *** [connect] *)

Local Open Scope prog_scope.

(** [mediaStream.getTracks().forEach(track => pc.addTrack(track, mediaStream))] *)
Fixpoint addTracks (pc mediaStream : nat) (i : nat) (tracks : list MediaStreamTrack)
  : Prog unit :=
  match tracks with
  | [] => ret tt
  | _ :: rest => pc_addTrack pc mediaStream i ;; addTracks pc mediaStream (S i) rest
  end.

Definition realtime_url : string :=
  "https://api.openai.com/v1/realtime?model=gpt-4o-realtime-preview-2024-10-01".

Definition connect (cl : Render) : Prog unit :=
  try (
    act (setConnectionState (mkConnectionState connecting None)) ;;
    if negb (r_isSessionStarted cl) then
      act (setIsSessionStarted true) ;;
      (* Get an ephemeral session token *)
      sessionResponse <- await (rq_fetch "/api/session" None) ;;
      (if negb (resp_ok sessionResponse)
       then throw (new_Error ("Failed to get session token: "
                              +:+ pretty (resp_status sessionResponse)))
       else ret tt) ;;
      session <- await rq_json ;;
      act (console_log "Session id:" (arg_text (session_id session))) ;;
      (* Create a basic peer connection *)
      pc <- new_RTCPeerConnection ;;
      act (set_pcRef (Some pc)) ;;
      (* Set up to play remote audio from the model *)
      audioElement <- createElement_audio ;;
      act (set_audioElementRef (Some audioElement)) ;;
      (* Add local audio track for microphone input *)
      (try (
         tracks <- await rq_getUserMedia ;;
         mediaStream <- new_MediaStream tracks ;;
         act (set_localStreamRef (Some mediaStream)) ;;
         addTracks pc mediaStream 0 tracks)
       catch err =>
         (act (console_error "Microphone access failed:" (arg_exn err)) ;;
          throw err)) ;;
      (* Set up data channel for sending and receiving events *)
      dc <- pc_createDataChannel pc ;;
      act (set_dcRef (Some dc)) ;;
      (* Set up ICE handling *)
      act (install_pc_handlers pc) ;;
      (* Create offer and set local description *)
      offer <- await (rq_createOffer pc) ;;
      await (rq_setLocalDescription pc) ;;
      (* Send offer to OpenAI directly *)
      sdpResponse <- await (rq_fetch realtime_url offer) ;;
      (if negb (resp_ok sdpResponse)
       then throw (new_Error ("OpenAI SDP exchange failed: "
                              +:+ pretty (resp_status sdpResponse)))
       else ret tt) ;;
      answerSdp <- await rq_text ;;
      await (rq_setRemoteDescription pc answerSdp) ;;
      (* Set up data channel event listeners *)
      act (install_dc_listeners dc (r_eventListeners cl)) ;;
      act (set_connectionAttempts 0)
    else ret tt)
  catch err =>
    (act (console_error "Connection failed:" (arg_exn err)) ;;
     act (setConnectionState
            (mkConnectionState error (Some (message_of err "Unknown error")))) ;;
     act attemptReconnect).

(** The callback [attemptReconnect] hands to [setTimeout], with the
    [connect] of the first render. *)
Definition reconnect_callback : Prog unit :=
  try connect first_render
  catch err => act (console_error "Reconnection failed:" (arg_exn err)).

End Hook.
End Direct.

(** ** The event loop

    Everything the hook does happens inside a callback run by the browser:
    a call made by the component, a state change of a peer connection or a
    data channel, a timer that fires, or a settled promise that resumes a
    suspended [connect].  Callbacks run one at a time. *)

(** The callbacks by which a revision reacts. *)
Record Revision := mkRevision {
  rev_connect : Render -> Prog unit;
  rev_disconnect : State -> State;
  rev_attemptReconnect : State -> State;
  rev_ice : nat -> State -> State;
  rev_connection : nat -> State -> State;
  rev_grace : nat -> State -> State;
  rev_reconnect : Prog unit;
  rev_channel_open : State -> State;
  rev_channel_message : list Listener -> string -> State -> State;
  rev_channel_close : State -> State
}.

Section Revisions.
Context {platform : Platform}.

Definition proxied : Revision :=
  {| rev_connect := Proxied.connect;
     rev_disconnect := Proxied.disconnect;
     rev_attemptReconnect := Proxied.attemptReconnect;
     rev_ice := Proxied.oniceconnectionstatechange;
     rev_connection := Proxied.onconnectionstatechange;
     rev_grace := Proxied.grace_callback;
     rev_reconnect := Proxied.reconnect_callback;
     rev_channel_open := Proxied.onopen;
     rev_channel_message := Proxied.onmessage;
     rev_channel_close := Proxied.onclose |}.

(** [Direct] installs no connection-state and no close handler; an
    exception escaping its message handler is reported by the browser
    and otherwise lost. *)
Definition direct : Revision :=
  {| rev_connect := Direct.connect;
     rev_disconnect := Direct.disconnect;
     rev_attemptReconnect := Direct.attemptReconnect;
     rev_ice := Direct.oniceconnectionstatechange;
     rev_connection := fun _ s => s;
     rev_grace := Direct.grace_callback;
     rev_reconnect := Direct.reconnect_callback;
     rev_channel_open := Direct.onopen;
     rev_channel_message := fun ls data s => fst (Direct.onmessage ls data s);
     rev_channel_close := fun s => s |}.
End Revisions.

(** The store together with the suspended [async] calls. *)
Record World := mkWorld {
  store : State;
  tasks : list (Res unit)
}.

Definition initial_world : World := mkWorld initial_state [].

Inductive Action :=
(* calls made by the component *)
| call_connect (cl : Render)
| call_disconnect
| call_sendEvent (event : RealtimeEvent)
| call_addEventListener (l : Listener)
| call_removeEventListener (l : Listener)
(* notifications raised by the browser *)
| ice_changes (pc : nat) (st : IceState)
| connection_changes (pc : nat) (st : PcState)
| channel_opens (dc : nat)
| channel_message (dc : nat) (data : string)
| channel_closes (dc : nat)
| timer_fires (id : positive)
| settles (task : nat) (oracle : forall rq, Settled (Answer rq)).

Section EventLoop.
Context {platform : Platform} (R : Revision).

Definition on_store (f : State -> State) (w : World) : World :=
  mkWorld (f (store w)) (tasks w).

(** Starts an [async] call: it runs to its first [await]. *)
Definition spawn (p : Prog unit) (w : World) : World :=
  let r := p (store w) in
  mkWorld (res_state r) (tasks w ++ [r]).

(** Resumes suspended call [i] with the answer to its pending request. *)
Definition settle (i : nat) (oracle : forall rq, Settled (Answer rq)) (w : World) : World :=
  match tasks w !! i with
  | Some (Await _ rq k) =>
      let r := k (oracle rq) (store w) in
      mkWorld (res_state r) (<[i := r]> (tasks w))
  | _ => w
  end.

(** The browser moves an open connection to ICE state [st] and runs the
    handler, if one is assigned. *)
Definition ice_change (pc : nat) (st : IceState) (s : State) : State :=
  match pcs s !! pc with
  | Some p =>
      if pc_closed p then s
      else
        let s := set_pcs (alter (fun p => mkPc st (pc_connectionState p) (pc_closed p)
                                   (pc_on_ice p) (pc_on_state p) (pc_senders p))
                                pc (pcs s)) s in
        if pc_on_ice p then rev_ice R pc s else s
  | None => s
  end.

Definition connection_change (pc : nat) (st : PcState) (s : State) : State :=
  match pcs s !! pc with
  | Some p =>
      if pc_closed p then s
      else
        let s := set_pcs (alter (fun p => mkPc (iceConnectionState p) st (pc_closed p)
                                   (pc_on_ice p) (pc_on_state p) (pc_senders p))
                                pc (pcs s)) s in
        if pc_on_state p then rev_connection R pc s else s
  | None => s
  end.

Definition channel_open (dc : nat) (s : State) : State :=
  match dcs s !! dc with
  | Some d =>
      match readyState d with
      | rs_connecting =>
          let s := set_dcs (alter (fun d => mkDc rs_open (dc_sent d) (dc_onmessage d)
                                                 (dc_onopen d)) dc (dcs s)) s in
          if dc_onopen d then rev_channel_open R s else s
      | _ => s
      end
  | None => s
  end.

Definition channel_receive (dc : nat) (data : string) (s : State) : State :=
  match dcs s !! dc with
  | Some d =>
      match readyState d, dc_onmessage d with
      | rs_open, Some listeners => rev_channel_message R listeners data s
      | _, _ => s
      end
  | None => s
  end.

Definition channel_close (dc : nat) (s : State) : State :=
  match dcs s !! dc with
  | Some d =>
      match readyState d with
      | rs_closed => s
      | _ =>
          let s := set_dcs (alter (fun d => mkDc rs_closed (dc_sent d) (dc_onmessage d)
                                                 (dc_onopen d)) dc (dcs s)) s in
          if dc_onopen d then rev_channel_close R s else s
      end
  | None => s
  end.

(** A pending timer fires: it leaves the table and its callback runs. *)
Definition fire (id : positive) (w : World) : World :=
  match timers (store w) !! id with
  | None => w
  | Some t =>
      let w := on_store (clearTimeout id) w in
      match timer_callback t with
      | cb_grace pc => on_store (rev_grace R pc) w
      | cb_reconnect => spawn (rev_reconnect R) w
      | cb_abort => w
      end
  end.

Definition exec (w : World) (a : Action) : World :=
  match a with
  | call_connect cl => spawn (rev_connect R cl) w
  | call_disconnect => on_store (rev_disconnect R) w
  | call_sendEvent event => on_store (fun s => fst (sendEvent event s)) w
  | call_addEventListener l => on_store (addEventListener l) w
  | call_removeEventListener l => on_store (removeEventListener l) w
  | ice_changes pc st => on_store (ice_change pc st) w
  | connection_changes pc st => on_store (connection_change pc st) w
  | channel_opens dc => on_store (channel_open dc) w
  | channel_message dc data => on_store (channel_receive dc data) w
  | channel_closes dc => on_store (channel_close dc) w
  | timer_fires id => fire id w
  | settles i oracle => settle i oracle w
  end.

Definition run (acts : list Action) (w : World) : World :=
  fold_left exec acts w.

(** The worlds some run of the hook can be in. *)
Definition reachable (w : World) : Prop :=
  exists acts, w = run acts initial_world.

End EventLoop.

(** The two revisions by name. *)
Inductive RevisionName := the_proxied | the_direct.

Definition revision {platform : Platform} (v : RevisionName) : Revision :=
  match v with
  | the_proxied => proxied
  | the_direct => direct
  end.

(** ** The discipline of the timer table *)

(** The recovery timers: the grace timer and the backoff timer.  The
    third kind, the signaling abort timer, belongs to one [fetch]. *)
Definition recovery (t : Timer) : bool :=
  match timer_callback t with
  | cb_grace _ | cb_reconnect => true
  | cb_abort => false
  end.

Definition pending_recovery (s : State) : gmap positive Timer :=
  filter (fun kv => recovery kv.2 = true) (timers s).

(** [ref.current] cleared from a timer table. *)
Definition without (r : option positive) (m : gmap positive Timer) : gmap positive Timer :=
  match r with
  | Some id => delete id m
  | None => m
  end.

(** Every pending recovery timer is the one [reconnectTimeoutRef] holds,
    and ids are handed out in increasing order. *)
Record timers_tracked (s : State) : Prop := mkTracked {
  tracked_ref : forall id t,
    timers s !! id = Some t -> recovery t = true -> reconnectTimeoutRef s = Some id;
  tracked_fresh : forall id t,
    timers s !! id = Some t -> (id < next_timer s)%positive
}.

(** ** Live transport handles *)

(** The refs hold the only handle that is live: every open connection,
    every channel that is not closing, every stream with a live track is
    the one its ref points to (the data model's rule that at most one
    live handle exists at a time). *)
Definition single_handle (s : State) : Prop :=
  (forall i p, pcs s !! i = Some p -> pc_closed p = false -> pcRef s = Some i) /\
  (forall i d, dcs s !! i = Some d ->
     readyState d = rs_connecting \/ readyState d = rs_open -> dcRef s = Some i) /\
  (forall i m, streams s !! i = Some m ->
     Exists (fun t => track_live t = true) (stream_tracks m) -> localStreamRef s = Some i).

(** Inspection finds no open connection, no channel that is open or
    opening, and no live capture track. *)
Definition no_live_handle (s : State) : Prop :=
  (forall i p, pcs s !! i = Some p -> pc_closed p = true) /\
  (forall i d, dcs s !! i = Some d ->
     readyState d = rs_closing \/ readyState d = rs_closed) /\
  (forall i m, streams s !! i = Some m ->
     Forall (fun t => track_live t = false) (stream_tracks m)).

(** ** Properties kept across suspensions *)

Section Preserves.
Variable I : State -> Prop.

(** [I] holds whenever the program hands control back, provided it
    holds whenever the program is resumed. *)
Fixpoint preserves {A} (r : Res A) : Prop :=
  match r with
  | Ret s _ => I s
  | Throw s _ => I s
  | Await s rq k => I s /\ forall x s', I s' -> preserves (k x s')
  end.

Definition prog_preserves {A} (p : Prog A) : Prop :=
  forall s, I s -> preserves (p s).

Definition world_ok (w : World) : Prop :=
  I (store w) /\ Forall preserves (tasks w).
End Preserves.

(** [n] reconnection triggers in a row. *)
Fixpoint triggers (R : Revision) (n : nat) (s : State) : State :=
  match n with
  | O => s
  | S n => rev_attemptReconnect R (triggers R n s)
  end.

(** [n] ICE notifications [st] in a row on connection [pc]. *)
Fixpoint ice_notifications (R : Revision) (n : nat) (pc : nat) (st : IceState)
         (s : State) : State :=
  match n with
  | O => s
  | S n => ice_change R pc st (ice_notifications R n pc st s)
  end.

(** The store after the grace timer [id] has fired and escalated:
    the timer has left the table, [Proxied] has logged, and
    [attemptReconnect] has run. *)
Definition grace_escalation {platform : Platform} (v : RevisionName) (id : positive)
           (s : State) : State :=
  rev_attemptReconnect (revision v)
    match v with
    | the_proxied =>
        console_log "ICE connection did not recover, attempting reconnection..." arg_none
          (clearTimeout id s)
    | the_direct => clearTimeout id s
    end.

(** ** A concrete platform, for evaluating the model on sample runs

    Serialisation writes the [type] tag, and throws the [TypeError] of
    [JSON.stringify] on an event that holds a [BigInt] or a cycle; every
    payload parses, except the text [not json]; listener [13] throws on
    every event. *)
Definition sample_exn : Exn := new_Error "listener failed".

(** The first value in [v], depth first, that [JSON.stringify] throws
    on, as the exception it throws. *)
Fixpoint stringify_error (v : JsValue) : option Exn :=
  match v with
  | js_bigint _ => Some (mkExn true "TypeError" "Do not know how to serialize a BigInt")
  | js_cycle => Some (mkExn true "TypeError" "Converting circular structure to JSON")
  | js_array items =>
      (fix first (l : list JsValue) : option Exn :=
         match l with
         | [] => None
         | x :: rest =>
             match stringify_error x with
             | Some e => Some e
             | None => first rest
             end
         end) items
  | js_object fields =>
      (fix first (l : list (string * JsValue)) : option Exn :=
         match l with
         | [] => None
         | (_, x) :: rest =>
             match stringify_error x with
             | Some e => Some e
             | None => first rest
             end
         end) fields
  | _ => None
  end.

Definition sample_platform : Platform :=
  {| JSON_stringify := fun event =>
       match stringify_error (js_object (ev_fields event)) with
       | Some e => inl e
       | None => inr (ev_type event)
       end;
     JSON_parse := fun data =>
       if String.eqb data "not json"
       then inl (mkExn true "SyntaxError" "Unexpected token")
       else inr (mkEvent data []);
     listener_call := fun l _ => if Nat.eqb l 13 then Some sample_exn else None |}.

(** Every request is fulfilled: one live audio track, an offer with a
    description, a successful response with a non-empty body. *)
Definition all_fulfilled (rq : Request) : Settled (Answer rq) :=
  match rq with
  | rq_getUserMedia => fulfilled [mkTrack true true]
  | rq_createOffer _ => fulfilled (Some "v=0")
  | rq_setLocalDescription _ => fulfilled tt
  | rq_fetch _ _ => fulfilled (mkResponse true 200)
  | rq_text => fulfilled "v=0"
  | rq_json => fulfilled (mkSession "ek_secret" "sess_1")
  | rq_setRemoteDescription _ _ => fulfilled tt
  end.

(** As [all_fulfilled], but the signaling endpoint answers with status
    500. *)
Definition signaling_fails (rq : Request) : Settled (Answer rq) :=
  match rq as r return Settled (Answer r) with
  | rq_fetch _ _ => fulfilled (mkResponse false 500)
  | r => all_fulfilled r
  end.

(** A run of revision [v] on the sample platform, from the initial world. *)
Definition sample_run (v : RevisionName) (acts : list Action) : World :=
  run (platform := sample_platform) (revision (platform := sample_platform) v)
      acts initial_world.

(** The component subscribes listener 7 on mount; the [connect] it then
    calls comes from the render that followed. *)
Definition click_connect : Action := call_connect (mkRender [7%nat] false).

(** A handshake that succeeds ([Proxied] suspends six times), after which
    the browser reports the connection and ICE as connected. *)
Definition proxied_connected : list Action :=
  [ call_addEventListener 7%nat; click_connect;
    settles 0 all_fulfilled; settles 0 all_fulfilled; settles 0 all_fulfilled;
    settles 0 all_fulfilled; settles 0 all_fulfilled; settles 0 all_fulfilled;
    connection_changes 0 pcs_connected;
    ice_changes 0 ice_connected ].

(** The same for [Direct], which suspends eight times and learns of its
    connection from ICE alone. *)
Definition direct_connected : list Action :=
  [ call_addEventListener 7%nat; click_connect;
    settles 0 all_fulfilled; settles 0 all_fulfilled; settles 0 all_fulfilled;
    settles 0 all_fulfilled; settles 0 all_fulfilled; settles 0 all_fulfilled;
    settles 0 all_fulfilled; settles 0 all_fulfilled;
    ice_changes 0 ice_connected ].

(** The first handshake fails at the signaling endpoint. *)
Definition first_failure : list Action :=
  [ call_addEventListener 7%nat; click_connect; settles 0 signaling_fails ].

(** [Direct]: the handshake fails at the signaling endpoint, the backoff
    timer fires, and so on, until the third retry has been scheduled. *)
Definition direct_three_failures : list Action :=
  first_failure ++
  [ timer_fires 1%positive; settles 1 signaling_fails;
    timer_fires 2%positive; settles 2 signaling_fails ].

(** [Proxied]: connected, then [disconnected] for longer than the grace
    period; the grace timer (2) and the backoff timer (3) fire and the
    reconnection succeeds. *)
Definition proxied_reconnected : list Action :=
  proxied_connected ++
  [ ice_changes 0 ice_disconnected; timer_fires 2%positive; timer_fires 3%positive;
    settles 1 all_fulfilled; settles 1 all_fulfilled; settles 1 all_fulfilled;
    settles 1 all_fulfilled; settles 1 all_fulfilled; settles 1 all_fulfilled ].

(** [Direct]: connected, then ICE fails; the backoff timer (1) fires and
    the reconnection succeeds. *)
Definition direct_reconnected : list Action :=
  direct_connected ++
  [ ice_changes 0 ice_failed; timer_fires 1%positive;
    settles 1 all_fulfilled; settles 1 all_fulfilled; settles 1 all_fulfilled;
    settles 1 all_fulfilled; settles 1 all_fulfilled; settles 1 all_fulfilled;
    settles 1 all_fulfilled; settles 1 all_fulfilled ].

(** [Direct]: a retry wave with two calls in flight.  The component
    calls [connect] twice from one render while the signaling endpoint
    answers 500.  The first call fails (attempt 1, backoff timer 1) and
    the timer fires, which starts a reconnect; the second call fails
    (attempt 2, timer 2) and the timer fires, which starts another
    reconnect; the first reconnect fails (attempt 3, timer 3).  The
    second reconnect is still waiting for the endpoint. *)
Definition direct_retry_wave : list Action :=
  [ call_addEventListener 7%nat; click_connect; click_connect;
    settles 0 signaling_fails; timer_fires 1%positive;
    settles 1 signaling_fails; timer_fires 2%positive;
    settles 2 signaling_fails ].

(** [Proxied]: connected, then the browser reports ICE [failed] three
    times, with [checking] in between (attempts 1, 2 and 3; backoff
    timers 2, 3 and 4, each replacing the one before). *)
Definition proxied_retry_wave : list Action :=
  proxied_connected ++
  [ ice_changes 0 ice_failed; ice_changes 0 ice_checking;
    ice_changes 0 ice_failed; ice_changes 0 ice_checking;
    ice_changes 0 ice_failed; ice_changes 0 ice_checking ].

(** Connected, then ICE fails (attempt 1) and the backoff timer fires:
    the reconnect it started is suspended at its first request when the
    component calls [disconnect]. *)
Definition direct_disconnect_mid_wave : list Action :=
  direct_connected ++
  [ ice_changes 0 ice_failed; timer_fires 1%positive; call_disconnect ].

Definition proxied_disconnect_mid_wave : list Action :=
  proxied_connected ++
  [ ice_changes 0 ice_failed; timer_fires 2%positive; call_disconnect ].


(** The request a suspended call is waiting for. *)
Definition awaiting {A} (r : Res A) : option Request :=
  match r with
  | Await _ rq _ => Some rq
  | _ => None
  end.

(** ** How an [async] call ends

    Postconditions of a resumable program that hold however its
    requests settle and whatever the other callbacks do to the store
    while it is suspended. *)

(** [QR] holds when the call returns, [QT] when it throws. *)
Fixpoint ends {A} (QR : State -> A -> Prop) (QT : State -> Exn -> Prop) (r : Res A) : Prop :=
  match r with
  | Ret s a => QR s a
  | Throw s e => QT s e
  | Await _ _ k => forall x s', ends QR QT (k x s')
  end.

Definition prog_ends {A} (QR : State -> A -> Prop) (QT : State -> Exn -> Prop)
           (p : Prog A) : Prop :=
  forall s, ends QR QT (p s).

Definition anyhow {A} : State -> A -> Prop := fun _ _ => True.
Definition never {A} : State -> A -> Prop := fun _ _ => False.

(** Every request the call makes satisfies [P]. *)
Fixpoint requests {A} (P : Request -> Prop) (r : Res A) : Prop :=
  match r with
  | Await _ rq k => P rq /\ forall x s', requests P (k x s')
  | _ => True
  end.

Definition prog_requests {A} (P : Request -> Prop) (p : Prog A) : Prop :=
  forall s, requests P (p s).

(** At every suspension: when the pending request is rejected with [e]
    and the call resumes on the store [s'], what remains of the call
    satisfies [Q e s']. *)
Fixpoint on_rejection {A} (Q : Exn -> State -> Res A -> Prop) (r : Res A) : Prop :=
  match r with
  | Await _ rq k =>
      (forall e s', Q e s' (k (rejected e) s')) /\
      (forall x s', on_rejection Q (k x s'))
  | _ => True
  end.

Definition prog_on_rejection {A} (Q : Exn -> State -> Res A -> Prop) (p : Prog A) : Prop :=
  forall s, on_rejection Q (p s).

(** At every suspension at a [fetch]: [Q] holds of the store the call
    has left and of what remains of the call. *)
Fixpoint at_fetch {A} (Q : State -> (Settled HttpResponse -> State -> Res A) -> Prop)
         (r : Res A) : Prop :=
  match r with
  | Await s rq k =>
      match rq as rq0 return (Settled (Answer rq0) -> State -> Res A) -> Prop with
      | rq_fetch _ _ => fun k0 => Q s k0
      | _ => fun _ => True
      end k /\
      (forall x s', at_fetch Q (k x s'))
  | _ => True
  end.

Definition prog_at_fetch {A} (Q : State -> (Settled HttpResponse -> State -> Res A) -> Prop)
           (p : Prog A) : Prop :=
  forall s, at_fetch Q (p s).

(** The abort timer is pending while the [fetch] is, and gone as soon as
    the call has been resumed, whichever way the [fetch] settled. *)
Definition abort_timer_spans_fetch {A} (s : State)
           (k : Settled HttpResponse -> State -> Res A) : Prop :=
  exists id,
    timers s !! id = Some (mkTimer cb_abort 30000) /\
    forall x s', timers (res_state (k x s')) !! id = None.

(** The call run to its end with no other callback in between, each
    request settled by [oracle]. *)
Fixpoint run_to_end {A} (oracle : forall rq, Settled (Answer rq)) (r : Res A)
  : State * (Exn + A) :=
  match r with
  | Ret s a => (s, inr a)
  | Throw s e => (s, inl e)
  | Await s rq k => run_to_end oracle (k (oracle rq) s)
  end.

(** The store [disconnect] leaves: status [disconnected] without a
    message, every ref cleared, the whole retry budget. *)
Definition torn_down (s : State) : Prop :=
  connectionState s = mkConnectionState disconnected None /\
  pcRef s = None /\ dcRef s = None /\ localStreamRef s = None /\
  audioElementRef s = None /\ reconnectTimeoutRef s = None /\
  connectionAttempts s = 0.

(** What [Proxied.connect] may send: the offer, never empty, to the
    endpoint of this application. *)
Definition proxied_request_ok (rq : Request) : Prop :=
  match rq with
  | rq_fetch url body => url = "/api/session" /\ falsy body = false
  | _ => True
  end.

(** The attempt counter within its budget. *)
Definition attempts_bounded (s : State) : Prop :=
  0 <= connectionAttempts s <= maxReconnectAttempts.

(** No channel numbered [n] or higher has a message handler that holds
    a listener. *)
Definition no_listeners_from (n : nat) (s : State) : Prop :=
  forall dc d, dcs s !! dc = Some d -> (n <= dc)%nat ->
    dc_onmessage d = None \/ dc_onmessage d = Some [].

(** [Direct]: the session flag is set. *)
Definition session_started (s : State) : Prop := isSessionStarted s = true.

(** The two stores agree on everything but the lines of the console. *)
Definition same_but_console (s s' : State) : Prop :=
  set_console [] s = set_console [] s'.

(** ** Publication, listener by listener *)

Section Publication.
Context {platform : Platform}.

(** The listeners [forEach] calls: up to the first one that throws. *)
Fixpoint called_until_throw (listeners : list Listener) (event : RealtimeEvent)
  : list Listener :=
  match listeners with
  | [] => []
  | l :: rest =>
      l :: match listener_call l event with
           | Some _ => []
           | None => called_until_throw rest event
           end
  end.

(** What the listeners throw on [event], in order. *)
Definition throwing (listeners : list Listener) (event : RealtimeEvent) : list Exn :=
  omap (fun l => listener_call l event) listeners.

End Publication.

(** ** [restartIce] (revision [Direct])

    Defined by the hook but neither returned nor called.  It repairs the
    connection the ref holds, in place: a new offer, sent to the
    endpoint of the application, and the answer applied.  As in
    [Direct], the [debug?.log] calls between the statements are not
    part of the model. *)

Module DirectRepair.
Section Hook.
Context {platform : Platform}.
Local Open Scope prog_scope.

(** [pcRef.current.method(...)]: a [TypeError] when the ref is null. *)
Definition current_pc : Prog nat := fun s =>
  match pcRef s with
  | Some pc => Ret s pc
  | None => Throw s (mkExn true "TypeError" "Cannot read properties of null")
  end.

Definition restartIce : Prog unit :=
  pc <- read pcRef ;;
  match pc with
  | None => ret tt
  | Some _ =>
      try (
        (* Create a new offer with ICE restart *)
        pc <- current_pc ;;
        offer <- await (rq_createOffer pc) ;;
        pc <- current_pc ;;
        await (rq_setLocalDescription pc) ;;
        (if falsy offer then throw (new_Error "Failed to create ICE restart offer")
         else ret tt) ;;
        (* Send the new offer to the server *)
        response <- await (rq_fetch "/api/session" offer) ;;
        (if negb (resp_ok response)
         then throw (new_Error ("ICE restart failed: " +:+ pretty (resp_status response)))
         else ret tt) ;;
        answerSdp <- await rq_text ;;
        pc <- current_pc ;;
        await (rq_setRemoteDescription pc answerSdp))
      catch error =>
        (act (console_error "ICE restart failed:" (arg_exn error)) ;;
         (* If ICE restart fails, fall back to full reconnection *)
         act Direct.attemptReconnect)
  end.

End Hook.
End DirectRepair.

(** The double-quote character, written by its code. *)
Definition double_quote : string := String (Ascii.ascii_of_nat 34) EmptyString.

(** ** SDP compatibility helpers ([lib/openai-webrtc-compat.ts])

    Texts are sequences of bytes; the separator and every prefix the
    helpers test are ASCII, so splitting and matching agree with
    JavaScript's on the UTF-16 text. *)

Module Compat.

(** [line.startsWith(prefix)] and [sdp.includes(needle)]. *)
Definition startsWith (line pre : string) : bool := String.prefix pre line.

Fixpoint includes (s needle : string) : bool :=
  String.prefix needle s ||
  match s with
  | EmptyString => false
  | String _ rest => includes rest needle
  end.

(** The separator ['\r\n']. *)
Definition CR : Ascii.ascii := Ascii.ascii_of_nat 13.
Definition LF : Ascii.ascii := Ascii.ascii_of_nat 10.
Definition CRLF : string := String CR (String LF EmptyString).

(** [sdp.split('\r\n')]: the pieces between the occurrences of the
    separator, found from the left; always at least one piece. *)
Definition push_char (c : Ascii.ascii) (pieces : list string) : list string :=
  match pieces with
  | piece :: rest => String c piece :: rest
  | [] => [String c EmptyString]
  end.

Fixpoint split_crlf (s : string) : list string :=
  match s with
  | EmptyString => [EmptyString]
  | String c rest =>
      match rest with
      | String c' rest' =>
          if Ascii.eqb c CR && Ascii.eqb c' LF then EmptyString :: split_crlf rest'
          else push_char c (split_crlf rest)
      | EmptyString => push_char c (split_crlf rest)
      end
  end.

(** [result.join('\r\n')] *)
Fixpoint join_crlf (lines : list string) : string :=
  match lines with
  | [] => EmptyString
  | [line] => line
  | line :: rest => line +:+ CRLF +:+ join_crlf rest
  end.

(** One turn of the loop of [ensureCompatibleAudioSection], on
    [(result, inAudioSection)]. *)
Definition ensure_step (st : list string * bool) (line : string) : list string * bool :=
  let '(result, inAudioSection) := st in
  if startsWith line "m=audio" then
    (result ++ [line], true)
  else if startsWith line "m=" && negb (startsWith line "m=audio") then
    (result ++ [line], false)
  else if inAudioSection then
    (* Process audio section lines *)
    if startsWith line "a=sendonly" || startsWith line "a=recvonly" then
      (* Ensure bidirectional audio *)
      (result ++ ["a=sendrecv"], inAudioSection)
    else if startsWith line "a=rtcp-mux" then
      (* Ensure RTCP mux is enabled *)
      (result ++ [line], inAudioSection)
    else
      (result ++ [line], inAudioSection)
  else
    (result ++ [line], inAudioSection).

Definition ensureCompatibleAudioSection (sdp : string) : string :=
  let lines := split_crlf sdp in
  let '(result, _) := fold_left ensure_step lines ([], false) in
  join_crlf result.

(** The verdict of [validateSDPForOpenAI]. *)
Record Validation := mkValidation {
  isValid : bool;
  issues : list string;
  suggestions : list string
}.

Definition validateSDPForOpenAI (sdp : string) : Validation :=
  let issues : list string := [] in
  let suggestions : list string := [] in
  (* Check for audio media section *)
  let '(issues, suggestions) :=
    if negb (includes sdp "m=audio")
    then (issues ++ ["Missing audio media section"],
          suggestions ++ ["Ensure audio transceiver is added before creating offer"])
    else (issues, suggestions) in
  (* Check for sendrecv direction *)
  let '(issues, suggestions) :=
    if negb (includes sdp "a=sendrecv") then
      if includes sdp "a=sendonly" || includes sdp "a=recvonly"
      then (issues ++ ["Audio direction is not bidirectional"],
            suggestions ++ ["Set audio transceiver direction to " +:+ double_quote
                            +:+ "sendrecv" +:+ double_quote])
      else (issues, suggestions)
    else (issues, suggestions) in
  (* Check for supported codecs *)
  let hasOpus := includes sdp "opus" in
  let hasPCMU := includes sdp "PCMU" in
  let hasPCMA := includes sdp "PCMA" in
  let '(issues, suggestions) :=
    if negb hasOpus && negb hasPCMU && negb hasPCMA
    then (issues ++ ["No commonly supported audio codecs found"],
          suggestions ++ ["Ensure browser supports Opus, PCMU, or PCMA codecs"])
    else (issues, suggestions) in
  (* Check for proper connection information *)
  let '(issues, suggestions) :=
    if negb (includes sdp "c=IN IP4")
    then (issues ++ ["Missing connection information"],
          suggestions ++ ["Ensure proper network configuration"])
    else (issues, suggestions) in
  mkValidation (Nat.eqb (length issues) 0) issues suggestions.

(** [createOpenAICompatibleOffer(pc)]; the program yields the [sdp] of
    the description it returns. *)
Local Open Scope prog_scope.

Definition createOpenAICompatibleOffer (pc : nat) : Prog string :=
  offer <- await (rq_createOffer pc) ;;
  match offer with
  | Some sdp =>
      if String.eqb sdp "" then throw (new_Error "Failed to create SDP offer")
      else
        (* Modify SDP to ensure compatibility *)
        ret (ensureCompatibleAudioSection sdp)
  | None => throw (new_Error "Failed to create SDP offer")
  end.

(** *** The loop, line by line *)

(** An attribute line that fixes one direction. *)
Definition direction_line (line : string) : bool :=
  startsWith line "a=sendonly" || startsWith line "a=recvonly".

(** Whether the lines after [line] lie in an audio section. *)
Definition section_after (inAudioSection : bool) (line : string) : bool :=
  if startsWith line "m=audio" then true
  else if startsWith line "m=" then false
  else inAudioSection.

(** The one-directional attribute lines inside audio sections. *)
Fixpoint one_way_audio_lines (inAudioSection : bool) (lines : list string) : list string :=
  match lines with
  | [] => []
  | line :: rest =>
      (if negb (startsWith line "m=") && inAudioSection && direction_line line
       then [line] else [])
      ++ one_way_audio_lines (section_after inAudioSection line) rest
  end.

(** The lines, with those replaced by [a=sendrecv]. *)
Fixpoint with_sendrecv (inAudioSection : bool) (lines : list string) : list string :=
  match lines with
  | [] => []
  | line :: rest =>
      (if negb (startsWith line "m=") && inAudioSection && direction_line line
       then "a=sendrecv" else line)
      :: with_sendrecv (section_after inAudioSection line) rest
  end.

(** The text contains the separator. *)
Fixpoint has_crlf (s : string) : bool :=
  match s with
  | EmptyString => false
  | String c rest =>
      match rest with
      | String c' _ => Ascii.eqb c CR && Ascii.eqb c' LF || has_crlf rest
      | EmptyString => false
      end
  end.

End Compat.

(** ** The signaling endpoint ([app/api/session/route.ts])

    The handler that [Proxied.connect] and [restartIce] post their offer
    to.  It forwards the offer to the Realtime API and relays the
    answer. *)

Module SessionRoute.

(** What the endpoint depends on but does not define: the values
    [JSON.parse] yields, the text [JSON.stringify] writes for the error
    object [{error: 'OpenAI API Error', status, details}], and
    [sdp.length]. *)
Class Server := {
  Json : Type;
  JSON_parse : string -> Exn + Json;
  JSON_stringify_error : Z -> Json + string -> string;
  string_length : string -> Z
}.

(** The [Response] the handler constructs: its body, and [status] and
    [Content-Type] as given to the constructor ([None]: left to its
    default). *)
Record Response := mkReply {
  reply_body : string;
  reply_status : option Z;
  reply_content_type : option string
}.

(** The requests the handler awaits: the body of the incoming request,
    the upstream [fetch], the body of the upstream response. *)
Inductive Call :=
| call_req_text
| call_fetch (url authorization : string) (formData : list (string * string))
| call_response_text.

Definition Reply (c : Call) : Type :=
  match c with
  | call_req_text => string
  | call_fetch _ _ _ => HttpResponse
  | call_response_text => string
  end.

Section Handler.
Context {server : Server}.

(** The values of a console call. *)
Inductive LogValue :=
| lv_text (t : string)
| lv_number (n : Z)
| lv_exn (e : Exn)
| lv_json (j : Json).

Record ServerLog := mkServerLog {
  slog_level : LogLevel;
  slog_values : list LogValue
}.

(** A call of the handler: finished, with the lines it has written to
    the console, or suspended at a request. *)
Inductive Run (A : Type) : Type :=
| Done (out : list ServerLog) (a : A)
| Failed (out : list ServerLog) (e : Exn)
| Wait (c : Call) (k : Settled (Reply c) -> Run A).
Arguments Done {A} out a.
Arguments Failed {A} out e.
Arguments Wait {A} c k.

Definition Handler (A : Type) : Type := list ServerLog -> Run A.

Fixpoint run_bind {A B} (r : Run A) (f : A -> Handler B) : Run B :=
  match r with
  | Done out a => f a out
  | Failed out e => Failed out e
  | Wait c k => Wait c (fun x => run_bind (k x) f)
  end.

Fixpoint run_catch {A} (r : Run A) (h : Exn -> Handler A) : Run A :=
  match r with
  | Done out a => Done out a
  | Failed out e => h e out
  | Wait c k => Wait c (fun x => run_catch (k x) h)
  end.

Definition h_ret {A} (a : A) : Handler A := fun out => Done out a.
Definition h_throw {A} (e : Exn) : Handler A := fun out => Failed out e.
Definition h_bind {A B} (p : Handler A) (f : A -> Handler B) : Handler B :=
  fun out => run_bind (p out) f.
Definition h_try {A} (p : Handler A) (h : Exn -> Handler A) : Handler A :=
  fun out => run_catch (p out) h.
Definition h_await (c : Call) : Handler (Reply c) :=
  fun out => Wait c (fun x =>
    match x with
    | fulfilled a => Done out a
    | rejected e => Failed out e
    end).
Definition console_write (lvl : LogLevel) (values : list LogValue) : Handler unit :=
  fun out => Done (out ++ [mkServerLog lvl values]) tt.

(** [new Response(body, {status, headers})] with a text body: a
    [RangeError] for a status outside 200..599, a [TypeError] for a
    status that admits no body. *)
Definition null_body_status (n : Z) : bool :=
  (n =? 101) || (n =? 103) || (n =? 204) || (n =? 205) || (n =? 304).

Definition new_Response (body : string) (status : option Z) (content_type : option string)
  : Handler Response :=
  match status with
  | Some n =>
      if (n <? 200) || (599 <? n) then
        h_throw (mkExn true "RangeError"
                       "init[status] must be in the range of 200 to 599, inclusive.")
      else if null_body_status n then
        h_throw (mkExn true "TypeError" "Response with null body status cannot have body")
      else h_ret (mkReply body status content_type)
  | None => h_ret (mkReply body status content_type)
  end.

(** [JSON.parse(text)] as a statement. *)
Definition parse (text : string) : Handler Json :=
  match JSON_parse text with
  | inr j => h_ret j
  | inl e => h_throw e
  end.

(** [JSON.stringify({model: ..., voice: "alloy"})] *)
Definition sessionConfig : string :=
  "{" +:+ double_quote +:+ "model" +:+ double_quote +:+ ":" +:+ double_quote
      +:+ "gpt-4o-realtime-preview-2024-10-01" +:+ double_quote +:+ ","
      +:+ double_quote +:+ "voice" +:+ double_quote +:+ ":" +:+ double_quote
      +:+ "alloy" +:+ double_quote +:+ "}".

(** A possibly undefined string inside a template literal. *)
Definition interpolate (v : option string) : string :=
  match v with
  | Some t => t
  | None => "undefined"
  end.

Definition calls_url : string := "https://api.openai.com/v1/realtime/calls".

Declare Scope handler_scope.
Delimit Scope handler_scope with handler.
Notation "x <- p ;; q" := (h_bind p (fun x => q))
  (at level 100, p at next level, right associativity) : handler_scope.
Notation "p ;; q" := (h_bind p (fun _ => q))
  (at level 100, right associativity) : handler_scope.
Notation "'try' p 'catch' x => h" := (h_try p (fun x => h))
  (at level 100, p at level 100, x name, h at level 100) : handler_scope.
Local Open Scope handler_scope.

(** [POST(req)], given [process.env.OPENAI_API_KEY]. *)
Definition POST (OPENAI_API_KEY : option string) : Handler Response :=
  try (
    (* Get the SDP data from the request body *)
    sdp <- h_await call_req_text ;;
    if String.eqb sdp "" then
      new_Response "SDP data is required" (Some 400) None
    else
      (* Check for API key *)
      let apiKey := OPENAI_API_KEY in
      if falsy apiKey then
        console_write lvl_error [lv_text "OpenAI API key not found in environment variables"] ;;
        new_Response "OpenAI API key not configured" (Some 500) None
      else
        (* Create form data with SDP and session config *)
        let formData := [("sdp", sdp); ("session", sessionConfig)] in
        console_write lvl_log [lv_text "Sending to OpenAI API:"] ;;
        console_write lvl_log [lv_text "SDP length:"; lv_number (string_length sdp)] ;;
        console_write lvl_log [lv_text "Session config:"; lv_text sessionConfig] ;;
        (* Make request to OpenAI Realtime API *)
        response <- h_await (call_fetch calls_url ("Bearer " +:+ interpolate apiKey)
                                        formData) ;;
        if negb (resp_ok response) then
          errorText <- h_await call_response_text ;;
          console_write lvl_error [lv_text "OpenAI API error:";
                                   lv_number (resp_status response); lv_text errorText] ;;
          (* Try to parse the error for more details *)
          (try (
             errorObj <- parse errorText ;;
             console_write lvl_error [lv_text "Parsed error:"; lv_json errorObj] ;;
             new_Response (JSON_stringify_error (resp_status response) (inl errorObj))
                          (Some (resp_status response)) (Some "application/json"))
           catch _ =>
             new_Response (JSON_stringify_error (resp_status response) (inr errorText))
                          (Some (resp_status response)) (Some "application/json"))
        else
          (* Send back the SDP we received from the OpenAI REST API *)
          responseSdp <- h_await call_response_text ;;
          new_Response responseSdp None (Some "application/sdp"))
  catch error =>
    (console_write lvl_error [lv_text "Session creation error:"; lv_exn error] ;;
     new_Response "Failed to create session" (Some 500) None).

(** *** How a call of the handler ends *)

(** [QR] holds of the console and the reply when the call returns, [QT]
    when it throws, whatever its requests settle to. *)
Fixpoint finishes {A} (QR : list ServerLog -> A -> Prop) (QT : list ServerLog -> Exn -> Prop)
         (r : Run A) : Prop :=
  match r with
  | Done out a => QR out a
  | Failed out e => QT out e
  | Wait _ k => forall x, finishes QR QT (k x)
  end.

(** Every request the call makes satisfies [P]. *)
Fixpoint asks {A} (P : Call -> Prop) (r : Run A) : Prop :=
  match r with
  | Wait c k => P c /\ forall x, asks P (k x)
  | _ => True
  end.

Definition is_fetch (c : Call) : bool :=
  match c with
  | call_fetch _ _ _ => true
  | _ => false
  end.

(** The call makes no upstream request; at most one. *)
Fixpoint no_fetch {A} (r : Run A) : Prop :=
  match r with
  | Wait c k => is_fetch c = false /\ forall x, no_fetch (k x)
  | _ => True
  end.

Fixpoint at_most_one_fetch {A} (r : Run A) : Prop :=
  match r with
  | Wait c k => if is_fetch c then forall x, no_fetch (k x)
                else forall x, at_most_one_fetch (k x)
  | _ => True
  end.

(** At every suspension, what is left of the call when the pending
    request is rejected satisfies [Q]. *)
Fixpoint rejections {A} (Q : Run A -> Prop) (r : Run A) : Prop :=
  match r with
  | Wait c k => (forall e, Q (k (rejected e))) /\ forall x, rejections Q (k x)
  | _ => True
  end.

(** The call run to its end, each request settled by [oracle]. *)
Fixpoint complete {A} (oracle : forall c, Settled (Reply c)) (r : Run A)
  : list ServerLog * (Exn + A) :=
  match r with
  | Done out a => (out, inr a)
  | Failed out e => (out, inl e)
  | Wait c k => complete oracle (k (oracle c))
  end.

(** The replies the handler words itself. *)
Definition bad_request : Response := mkReply "SDP data is required" (Some 400) None.
Definition not_configured : Response := mkReply "OpenAI API key not configured" (Some 500) None.
Definition failed_to_create : Response := mkReply "Failed to create session" (Some 500) None.

(** A status the [Response] constructor accepts together with a body. *)
Definition status_with_body (n : Z) : bool :=
  negb ((n <? 200) || (599 <? n)) && negb (null_body_status n).

(** The one request the handler may send upstream, given the key in
    the environment. *)
Definition upstream_request (key : option string) (c : Call) : Prop :=
  match c with
  | call_fetch url authorization formData =>
      url = calls_url /\
      exists apiKey sdp,
        key = Some apiKey /\ apiKey <> "" /\ sdp <> "" /\
        authorization = "Bearer " +:+ apiKey /\
        formData = [("sdp", sdp); ("session", sessionConfig)]
  | _ => True
  end.

End Handler.

Arguments Done {server A} out a.
Arguments Failed {server A} out e.
Arguments Wait {server A} c k.

End SessionRoute.

(** A concrete server: parsed JSON is kept as its text, and every text
    parses except [not json]. *)
Definition sample_server : SessionRoute.Server :=
  {| SessionRoute.Json := string;
     SessionRoute.JSON_parse := fun text =>
       if String.eqb text "not json"
       then inl (mkExn true "SyntaxError" "Unexpected token")
       else inr text;
     SessionRoute.JSON_stringify_error := fun n details =>
       "OpenAI API Error " +:+ pretty n +:+ " " +:+
       match details with
       | inl j => j
       | inr text => text
       end;
     SessionRoute.string_length := fun t => Z.of_nat (String.length t) |}.

(** The upstream answers every request: a request body, status 429 on
    the upstream call, and an error text. *)
Definition upstream_busy (c : SessionRoute.Call) : Settled (SessionRoute.Reply c) :=
  match c with
  | SessionRoute.call_req_text => fulfilled "v=0"
  | SessionRoute.call_fetch _ _ _ => fulfilled (mkResponse false 429)
  | SessionRoute.call_response_text => fulfilled "rate limited"
  end.

(** An offer of two media sections, the audio one send-only. *)
Definition sample_offer : string :=
  "v=0" +:+ Compat.CRLF +:+ "m=audio 9 UDP/TLS/RTP/SAVPF 111" +:+ Compat.CRLF
  +:+ "a=sendonly" +:+ Compat.CRLF +:+ "m=video 9 UDP/TLS/RTP/SAVPF 96" +:+ Compat.CRLF
  +:+ "a=recvonly".

(** * Properties *)

(** ** The timer table *)

Lemma tracked_frame s s' :
  timers s' = timers s -> next_timer s' = next_timer s ->
  reconnectTimeoutRef s' = reconnectTimeoutRef s ->
  timers_tracked s -> timers_tracked s'.
Proof.
  intros Ht Hn Hr [H1 H2]. split; rewrite ?Ht, ?Hn, ?Hr; assumption.
Qed.

Lemma tracked_initial : timers_tracked initial_state.
Proof. split; intros id t; cbn; rewrite lookup_empty; discriminate. Qed.

Lemma tracked_clearTimeout id s :
  timers_tracked s -> timers_tracked (clearTimeout id s).
Proof.
  intros [H1 H2]. split; cbn; intros id' t Hl.
  - apply lookup_delete_Some in Hl as [_ Hl]. eauto.
  - apply lookup_delete_Some in Hl as [_ Hl]. eauto.
Qed.

(** Once the timer the ref holds is cleared, no recovery timer is left. *)
Lemma without_ref_no_recovery s id t :
  timers_tracked s ->
  without (reconnectTimeoutRef s) (timers s) !! id = Some t -> recovery t = false.
Proof.
  intros [H1 _] Hl. destruct (recovery t) eqn:Hrec; [|reflexivity].
  destruct (reconnectTimeoutRef s) as [r|] eqn:Hr; cbn in Hl.
  - apply lookup_delete_Some in Hl as [Hne Hl].
    specialize (H1 _ _ Hl Hrec). congruence.
  - specialize (H1 _ _ Hl Hrec). discriminate.
Qed.

Lemma without_lookup r (m : gmap positive Timer) id t :
  without r m !! id = Some t -> m !! id = Some t.
Proof.
  destruct r; cbn; [|auto]. intros Hl. apply lookup_delete_Some in Hl. tauto.
Qed.

(** The source's arming pattern: clear what the ref holds, set a timer,
    store its id.  Whatever else the callback did in between, the table
    then holds exactly one recovery timer. *)
Lemma armed_tracked s s' cb d :
  timers_tracked s ->
  timers s' = <[next_timer s := mkTimer cb d]> (without (reconnectTimeoutRef s) (timers s)) ->
  next_timer s' = Pos.succ (next_timer s) ->
  reconnectTimeoutRef s' = Some (next_timer s) ->
  timers_tracked s'.
Proof.
  intros Hs Ht Hn Hr. split; rewrite ?Ht, ?Hn, ?Hr; intros id t Hl.
  - apply lookup_insert_Some in Hl as [[<- _]|[Hne Hl]]; [reflexivity|].
    intros Hrec. rewrite (without_ref_no_recovery _ _ _ Hs Hl) in Hrec. discriminate.
  - apply lookup_insert_Some in Hl as [[<- _]|[Hne Hl]]; [lia|].
    apply without_lookup in Hl. apply (tracked_fresh _ Hs) in Hl. lia.
Qed.

Lemma armed_pending s s' cb d :
  timers_tracked s ->
  timers s' = <[next_timer s := mkTimer cb d]> (without (reconnectTimeoutRef s) (timers s)) ->
  recovery (mkTimer cb d) = true ->
  pending_recovery s' = {[ next_timer s := mkTimer cb d ]}.
Proof.
  intros Hs Ht Hrec. unfold pending_recovery. rewrite Ht.
  apply map_eq. intros id. destruct (decide (id = next_timer s)) as [->|Hne].
  - rewrite lookup_singleton_eq. apply map_lookup_filter_Some. split; [|exact Hrec].
    apply lookup_insert_eq.
  - rewrite lookup_singleton_ne by congruence.
    apply map_lookup_filter_None. right. intros t Hl.
    rewrite lookup_insert_ne in Hl by congruence.
    cbn. rewrite (without_ref_no_recovery _ _ _ Hs Hl). discriminate.
Qed.

(** A timer that is not a recovery timer may be added at any time. *)
Lemma tracked_setTimeout_abort s d :
  timers_tracked s -> timers_tracked (setTimeout cb_abort d s).2.
Proof.
  intros [H1 H2]. split; cbn; intros id t Hl.
  - apply lookup_insert_Some in Hl as [[<- <-]|[Hne Hl]]; [discriminate|eauto].
  - apply lookup_insert_Some in Hl as [[<- _]|[Hne Hl]]; [lia|].
    apply H2 in Hl. lia.
Qed.

(** After the ref's timer is cleared and the ref emptied, nothing that
    recovers is pending. *)
Lemma cleared_tracked s s' :
  timers_tracked s ->
  timers s' = without (reconnectTimeoutRef s) (timers s) ->
  next_timer s' = next_timer s ->
  timers_tracked s' /\ pending_recovery s' = ∅.
Proof.
  intros Hs Ht Hn. split; [split|]; rewrite ?Ht, ?Hn.
  - intros id t Hl Hrec. rewrite (without_ref_no_recovery _ _ _ Hs Hl) in Hrec. discriminate.
  - intros id t Hl. apply without_lookup in Hl. eapply tracked_fresh; eauto.
  - unfold pending_recovery. rewrite Ht. apply map_eq. intros id.
    rewrite lookup_empty. apply map_lookup_filter_None. right. intros t Hl. cbn.
    rewrite (without_ref_no_recovery _ _ _ Hs Hl). discriminate.
Qed.

(** ** What [attemptReconnect] and [disconnect] do to the store *)

(** Opens the store record and decides every test on one of its refs. *)
Ltac open_store s :=
  destruct s as [? ? ? [?|] [?|] [?|] [?|] [?|] ? ? ? ? ? ? ? ? ?].

(** Runs the assignments of a callback on an opened store, leaving the
    operations on heaps and on the timer table as they stand. *)
Ltac run_store :=
  cbv beta iota zeta delta
    [connectionState isSessionStarted eventListeners pcRef dcRef audioElementRef
     localStreamRef reconnectTimeoutRef connectionAttempts pcs dcs streams audios
     timers next_timer console delivered
     setConnectionState setIsSessionStarted setEventListeners set_pcRef set_dcRef
     set_audioElementRef set_localStreamRef set_reconnectTimeoutRef
     set_connectionAttempts set_pcs set_dcs set_streams set_audios set_timers
     set_console set_delivered
     console_log console_warn console_error setTimeout clearTimeout clear_if_set
     pc_close dc_close dc_send stop_all_tracks audio_remove without
     Proxied.attemptReconnect Proxied.disconnect
     Direct.attemptReconnect Direct.disconnect].

Section Shapes.
Context {platform : Platform}.

Lemma attemptReconnect_retry v s :
  connectionAttempts s < maxReconnectAttempts ->
  let s' := rev_attemptReconnect (revision v) s in
  timers s' = <[next_timer s := mkTimer cb_reconnect (2000 * (connectionAttempts s + 1))]>
                (without (reconnectTimeoutRef s) (timers s)) /\
  next_timer s' = Pos.succ (next_timer s) /\
  reconnectTimeoutRef s' = Some (next_timer s) /\
  connectionAttempts s' = connectionAttempts s + 1 /\
  connectionState s' = connectionState s.
Proof.
  intros Hlt. apply Z.ltb_lt in Hlt.
  destruct v; cbv zeta; cbn [rev_attemptReconnect revision proxied direct];
    unfold Proxied.attemptReconnect, Direct.attemptReconnect;
    rewrite Hlt; open_store s; run_store; repeat apply conj; reflexivity.
Qed.

Lemma attemptReconnect_exhausted v s :
  maxReconnectAttempts <= connectionAttempts s ->
  rev_attemptReconnect (revision v) s =
    setConnectionState (mkConnectionState error (Some exhausted_message))
      (console_error "Max reconnection attempts reached" arg_none s).
Proof.
  intros Hge. apply Z.ltb_ge in Hge.
  destruct v; cbn; unfold Proxied.attemptReconnect, Direct.attemptReconnect;
    rewrite Hge; reflexivity.
Qed.

Lemma attemptReconnect_tracked v s :
  timers_tracked s -> timers_tracked (rev_attemptReconnect (revision v) s).
Proof.
  intros Hs. destruct (Z.lt_ge_cases (connectionAttempts s) maxReconnectAttempts) as [Hlt|Hge].
  - destruct (attemptReconnect_retry v s Hlt) as (Ht & Hn & Hr & _).
    eapply armed_tracked; eauto.
  - rewrite attemptReconnect_exhausted by assumption.
    eapply tracked_frame; [..|exact Hs]; reflexivity.
Qed.

Lemma disconnect_timers v s :
  let s' := rev_disconnect (revision v) s in
  timers s' = without (reconnectTimeoutRef s) (timers s) /\
  next_timer s' = next_timer s /\
  reconnectTimeoutRef s' = None.
Proof.
  destruct v; cbv zeta; cbn [rev_disconnect revision proxied direct];
    open_store s; run_store; repeat apply conj; reflexivity.
Qed.

Lemma disconnect_tracked v s :
  timers_tracked s -> timers_tracked (rev_disconnect (revision v) s).
Proof.
  intros Hs. destruct (disconnect_timers v s) as (Ht & Hn & _).
  eapply cleared_tracked; eauto.
Qed.

End Shapes.

(** ** Programs that keep a property across their suspensions *)

Section PreservesFacts.
Variable I : State -> Prop.

Lemma preserves_state {A} (r : Res A) : preserves I r -> I (res_state r).
Proof. destruct r; cbn; tauto. Qed.

Lemma res_bind_preserves {A B} (r : Res A) (f : A -> Prog B) :
  preserves I r -> (forall a, prog_preserves I (f a)) -> preserves I (res_bind r f).
Proof.
  intros Hr Hf. induction r as [s a|s e|s rq k IH]; cbn in *.
  - apply Hf, Hr.
  - exact Hr.
  - destruct Hr as [Hs Hk]. split; [exact Hs|]. intros x s' Hs'. apply IH, Hk, Hs'.
Qed.

Lemma res_catch_preserves {A} (r : Res A) (h : Exn -> Prog A) :
  preserves I r -> (forall e, prog_preserves I (h e)) -> preserves I (res_catch r h).
Proof.
  intros Hr Hh. induction r as [s a|s e|s rq k IH]; cbn in *.
  - exact Hr.
  - apply Hh, Hr.
  - destruct Hr as [Hs Hk]. split; [exact Hs|]. intros x s' Hs'. apply IH, Hk, Hs'.
Qed.

Lemma bind_preserves {A B} (p : Prog A) (f : A -> Prog B) :
  prog_preserves I p -> (forall a, prog_preserves I (f a)) -> prog_preserves I (bind p f).
Proof. intros Hp Hf s Hs. apply res_bind_preserves; auto. Qed.

Lemma try_catch_preserves {A} (p : Prog A) (h : Exn -> Prog A) :
  prog_preserves I p -> (forall e, prog_preserves I (h e)) -> prog_preserves I (try_catch p h).
Proof. intros Hp Hh s Hs. apply res_catch_preserves; auto. Qed.

Lemma ret_preserves {A} (a : A) : prog_preserves I (ret a).
Proof. intros s Hs. exact Hs. Qed.

Lemma throw_preserves {A} (e : Exn) : prog_preserves I (throw (A:=A) e).
Proof. intros s Hs. exact Hs. Qed.

Lemma await_preserves rq : prog_preserves I (await rq).
Proof. intros s Hs. split; [exact Hs|]. intros [a|e] s' Hs'; exact Hs'. Qed.

Lemma act_preserves (f : State -> State) :
  (forall s, I s -> I (f s)) -> prog_preserves I (act f).
Proof. intros Hf s Hs. apply Hf, Hs. Qed.

Lemma read_preserves {A} (f : State -> A) : prog_preserves I (read f).
Proof. intros s Hs. exact Hs. Qed.
End PreservesFacts.

(** ** Every callback keeps the timer discipline *)

(** A store that differs from another in no timer matter. *)
Ltac frame_timers :=
  match goal with
  | H : timers_tracked ?s |- timers_tracked _ =>
      apply (tracked_frame s); [reflexivity|reflexivity|reflexivity|exact H]
  end.

Section Discipline.
Context {platform : Platform}.

Lemma sendEvent_tracked event s : timers_tracked s -> timers_tracked (sendEvent event s).1.
Proof.
  intros Hs. unfold sendEvent.
  destruct (dcRef s) as [i|];
    [destruct (dcs s !! i) as [d|];
       [destruct (readyState d); [|destruct (JSON_stringify event)| |]|]|];
    cbn [fst]; try exact Hs; frame_timers.
Qed.

Lemma fold_frame {A} (f : State -> A -> State) (l : list A) s :
  (forall s a, timers (f s a) = timers s /\ next_timer (f s a) = next_timer s /\
               reconnectTimeoutRef (f s a) = reconnectTimeoutRef s) ->
  timers_tracked s -> timers_tracked (fold_left f l s).
Proof.
  intros Hf. revert s. induction l as [|a l IH]; intros s Hs; cbn; [exact Hs|].
  apply IH. destruct (Hf s a) as (H1 & H2 & H3). eapply tracked_frame; eauto.
Qed.

Lemma proxied_onmessage_tracked ls data s :
  timers_tracked s -> timers_tracked (Proxied.onmessage ls data s).
Proof.
  intros Hs. unfold Proxied.onmessage. destruct (JSON_parse data) as [e|ev].
  - frame_timers.
  - apply fold_frame.
    + intros s' l. unfold Proxied.notify. destruct (listener_call l ev); cbn; auto.
    + frame_timers.
Qed.

Lemma forEach_listener_frame ls ev s :
  timers (Direct.forEach_listener ls ev s).1 = timers s /\
  next_timer (Direct.forEach_listener ls ev s).1 = next_timer s /\
  reconnectTimeoutRef (Direct.forEach_listener ls ev s).1 = reconnectTimeoutRef s.
Proof.
  revert s. induction ls as [|l ls IH]; intros s; cbn; [auto|].
  destruct (listener_call l ev); cbn; [auto|].
  destruct (IH (set_delivered (delivered s ++ [(l, ev)]) s)) as (H1 & H2 & H3).
  rewrite H1, H2, H3. auto.
Qed.

Lemma direct_onmessage_tracked ls data s :
  timers_tracked s -> timers_tracked (Direct.onmessage ls data s).1.
Proof.
  intros Hs. unfold Direct.onmessage. destruct (JSON_parse data) as [e|ev]; cbn.
  - exact Hs.
  - destruct (forEach_listener_frame ls ev s) as (H1 & H2 & H3).
    eapply tracked_frame; eauto.
Qed.

Lemma ice_handler_disconnected v pc p s :
  pcs s !! pc = Some p -> iceConnectionState p = ice_disconnected ->
  let s' := rev_ice (revision v) pc s in
  timers s' = <[next_timer s := mkTimer (cb_grace pc) 5000]>
                (without (reconnectTimeoutRef s) (timers s)) /\
  next_timer s' = Pos.succ (next_timer s) /\
  reconnectTimeoutRef s' = Some (next_timer s) /\
  connectionAttempts s' = connectionAttempts s /\
  connectionState s' = connectionState s /\
  pcs s' = pcs s.
Proof.
  intros Hp Hst.
  destruct v; cbv zeta; cbn [rev_ice revision proxied direct];
    unfold Proxied.oniceconnectionstatechange, Direct.oniceconnectionstatechange;
    rewrite Hp, Hst; clear Hp; open_store s; run_store; repeat apply conj; reflexivity.
Qed.

Lemma ice_handler_tracked v pc s :
  timers_tracked s -> timers_tracked (rev_ice (revision v) pc s).
Proof.
  intros Hs. destruct (pcs s !! pc) as [p|] eqn:Hp.
  2:{ destruct v; cbn;
        unfold Proxied.oniceconnectionstatechange, Direct.oniceconnectionstatechange;
        rewrite Hp; exact Hs. }
  destruct (iceConnectionState p) eqn:Hst;
    try (destruct v; cbn;
         unfold Proxied.oniceconnectionstatechange, Direct.oniceconnectionstatechange;
         rewrite Hp, Hst; frame_timers).
  - destruct (ice_handler_disconnected v pc p s Hp Hst) as (Ht & Hn & Hr & _).
    eapply armed_tracked; eauto.
  - destruct v; cbn;
      unfold Proxied.oniceconnectionstatechange, Direct.oniceconnectionstatechange;
      rewrite Hp, Hst.
    + apply (attemptReconnect_tracked the_proxied). frame_timers.
    + apply (attemptReconnect_tracked the_direct). frame_timers.
Qed.

Lemma grace_tracked v pc s :
  timers_tracked s -> timers_tracked (rev_grace (revision v) pc s).
Proof.
  intros Hs.
  destruct v; cbn; unfold Proxied.grace_callback, Direct.grace_callback;
    destruct (pcs s !! pc) as [p|]; try exact Hs;
    destruct (iceConnectionState p); try exact Hs.
  - apply (attemptReconnect_tracked the_proxied). frame_timers.
  - apply (attemptReconnect_tracked the_proxied). frame_timers.
  - apply (attemptReconnect_tracked the_direct), Hs.
  - apply (attemptReconnect_tracked the_direct), Hs.
Qed.

Lemma connection_handler_tracked v pc s :
  timers_tracked s -> timers_tracked (rev_connection (revision v) pc s).
Proof.
  intros Hs. destruct v; cbn; [|exact Hs].
  unfold Proxied.onconnectionstatechange.
  destruct (pcs s !! pc) as [p|]; [|exact Hs].
  destruct (pc_connectionState p); frame_timers.
Qed.

Lemma channel_open_tracked v s :
  timers_tracked s -> timers_tracked (rev_channel_open (revision v) s).
Proof. intros Hs. destruct v; cbn; frame_timers. Qed.

Lemma channel_close_tracked v s :
  timers_tracked s -> timers_tracked (rev_channel_close (revision v) s).
Proof. intros Hs. destruct v; cbn; [frame_timers|exact Hs]. Qed.

Lemma channel_message_tracked v ls data s :
  timers_tracked s -> timers_tracked (rev_channel_message (revision v) ls data s).
Proof.
  intros Hs. destruct v; cbn.
  - apply proxied_onmessage_tracked, Hs.
  - apply direct_onmessage_tracked, Hs.
Qed.

End Discipline.

(** *** [connect] keeps the discipline, however its requests settle *)

(** Takes a program apart along its statements. *)
Ltac split_prog :=
  repeat match goal with
    | |- prog_preserves _ (bind _ _) => apply bind_preserves; [|intros ?]
    | |- prog_preserves _ (try_catch _ _) => apply try_catch_preserves; [|intros ?]
    | |- prog_preserves _ (await _) => apply await_preserves
    | |- prog_preserves _ (ret _) => apply ret_preserves
    | |- prog_preserves _ (throw _) => apply throw_preserves
    | |- prog_preserves _ (read _) => apply read_preserves
    | |- prog_preserves _ (if ?b then _ else _) => destruct b
    | |- prog_preserves _ (match ?x with _ => _ end) => destruct x
    end.

Section ConnectDiscipline.
Context {platform : Platform}.

Lemma act_frame (f : State -> State) :
  (forall s, timers (f s) = timers s) ->
  (forall s, next_timer (f s) = next_timer s) ->
  (forall s, reconnectTimeoutRef (f s) = reconnectTimeoutRef s) ->
  prog_preserves timers_tracked (act f).
Proof.
  intros H1 H2 H3. apply act_preserves. intros s Hs.
  apply (tracked_frame s); auto.
Qed.

Lemma new_RTCPeerConnection_tracked : prog_preserves timers_tracked new_RTCPeerConnection.
Proof. intros s Hs. cbn. frame_timers. Qed.

Lemma createElement_audio_tracked : prog_preserves timers_tracked createElement_audio.
Proof. intros s Hs. cbn. frame_timers. Qed.

Lemma new_MediaStream_tracked tracks : prog_preserves timers_tracked (new_MediaStream tracks).
Proof. intros s Hs. cbn. frame_timers. Qed.

Lemma pc_addTrack_tracked pc m i : prog_preserves timers_tracked (pc_addTrack pc m i).
Proof.
  intros s Hs. unfold pc_addTrack. destruct (is_closed pc s); cbn; [exact Hs|frame_timers].
Qed.

Lemma pc_createDataChannel_tracked pc : prog_preserves timers_tracked (pc_createDataChannel pc).
Proof.
  intros s Hs. unfold pc_createDataChannel.
  destruct (is_closed pc s); cbn; [exact Hs|frame_timers].
Qed.

Lemma set_timeout_abort_tracked d : prog_preserves timers_tracked (set_timeout cb_abort d).
Proof. intros s Hs. cbn. apply (tracked_setTimeout_abort s d Hs). Qed.

Lemma addTracks_tracked pc m tracks i :
  prog_preserves timers_tracked (Direct.addTracks pc m i tracks).
Proof.
  revert i. induction tracks as [|t tracks IH]; intros i; cbn.
  - apply ret_preserves.
  - apply bind_preserves; [apply pc_addTrack_tracked|intros _; apply IH].
Qed.

Lemma connect_tracked v cl : prog_preserves timers_tracked (rev_connect (revision v) cl).
Proof.
  destruct v; cbn [rev_connect revision proxied direct];
    unfold Proxied.connect, Direct.connect; split_prog;
    lazymatch goal with
    | |- prog_preserves _ new_RTCPeerConnection => apply new_RTCPeerConnection_tracked
    | |- prog_preserves _ createElement_audio => apply createElement_audio_tracked
    | |- prog_preserves _ (new_MediaStream _) => apply new_MediaStream_tracked
    | |- prog_preserves _ (pc_addTrack _ _ _) => apply pc_addTrack_tracked
    | |- prog_preserves _ (pc_createDataChannel _) => apply pc_createDataChannel_tracked
    | |- prog_preserves _ (set_timeout cb_abort _) => apply set_timeout_abort_tracked
    | |- prog_preserves _ (Direct.addTracks _ _ _ _) => apply addTracks_tracked
    | |- prog_preserves _ (act (clearTimeout _)) =>
        apply act_preserves; intros s Hs; apply tracked_clearTimeout, Hs
    | |- prog_preserves _ (act Proxied.disconnect) =>
        apply act_preserves; apply (disconnect_tracked the_proxied)
    | |- prog_preserves _ (act Direct.attemptReconnect) =>
        apply act_preserves; apply (attemptReconnect_tracked the_direct)
    | |- prog_preserves _ (act _) => apply act_frame; reflexivity
    end.
Qed.

Lemma reconnect_callback_tracked v : prog_preserves timers_tracked (rev_reconnect (revision v)).
Proof.
  destruct v; cbn [rev_reconnect revision proxied direct];
    unfold Proxied.reconnect_callback, Direct.reconnect_callback;
    (apply try_catch_preserves;
     [|intros e; apply act_frame; reflexivity]).
  - apply (connect_tracked the_proxied).
  - apply (connect_tracked the_direct).
Qed.

End ConnectDiscipline.

(** *** Every run keeps the discipline *)

Section Runs.
Context {platform : Platform}.

Lemma spawn_ok (p : Prog unit) w :
  prog_preserves timers_tracked p ->
  world_ok timers_tracked w -> world_ok timers_tracked (spawn p w).
Proof.
  intros Hp [Hs Ht]. unfold spawn. split; cbn.
  - apply preserves_state, Hp, Hs.
  - apply Forall_app. split; [exact Ht|]. constructor; [|constructor]. apply Hp, Hs.
Qed.

Lemma on_store_ok (f : State -> State) w :
  (forall s, timers_tracked s -> timers_tracked (f s)) ->
  world_ok timers_tracked w -> world_ok timers_tracked (on_store f w).
Proof. intros Hf [Hs Ht]. split; cbn; auto. Qed.

Lemma settle_ok i oracle w :
  world_ok timers_tracked w -> world_ok timers_tracked (settle i oracle w).
Proof.
  intros [Hs Ht]. unfold settle.
  destruct (tasks w !! i) as [r|] eqn:Hi; [|split; assumption].
  destruct r as [s a|s e|s rq k]; try (split; assumption).
  pose proof (Forall_lookup_1 _ _ _ _ Ht Hi) as [_ Hk]. cbn in Hk.
  split; cbn.
  - apply preserves_state, Hk, Hs.
  - apply Forall_insert; [exact Ht|]. apply Hk, Hs.
Qed.

Lemma ice_change_tracked v pc st s :
  timers_tracked s -> timers_tracked (ice_change (revision v) pc st s).
Proof.
  intros Hs. unfold ice_change. destruct (pcs s !! pc) as [p|]; [|exact Hs].
  destruct (pc_closed p); [exact Hs|].
  destruct (pc_on_ice p); [apply ice_handler_tracked|]; frame_timers.
Qed.

Lemma connection_change_tracked v pc st s :
  timers_tracked s -> timers_tracked (connection_change (revision v) pc st s).
Proof.
  intros Hs. unfold connection_change. destruct (pcs s !! pc) as [p|]; [|exact Hs].
  destruct (pc_closed p); [exact Hs|].
  destruct (pc_on_state p); [apply connection_handler_tracked|]; frame_timers.
Qed.

Lemma channel_open_event_tracked v dc s :
  timers_tracked s -> timers_tracked (channel_open (revision v) dc s).
Proof.
  intros Hs. unfold channel_open. destruct (dcs s !! dc) as [d|]; [|exact Hs].
  destruct (readyState d); try exact Hs.
  destruct (dc_onopen d); [apply channel_open_tracked|]; frame_timers.
Qed.

Lemma channel_receive_tracked v dc data s :
  timers_tracked s -> timers_tracked (channel_receive (revision v) dc data s).
Proof.
  intros Hs. unfold channel_receive. destruct (dcs s !! dc) as [d|]; [|exact Hs].
  destruct (readyState d), (dc_onmessage d); try exact Hs.
  apply channel_message_tracked, Hs.
Qed.

Lemma channel_close_event_tracked v dc s :
  timers_tracked s -> timers_tracked (channel_close (revision v) dc s).
Proof.
  intros Hs. unfold channel_close. destruct (dcs s !! dc) as [d|]; [|exact Hs].
  destruct (readyState d); try exact Hs;
    (destruct (dc_onopen d); [apply channel_close_tracked|]; frame_timers).
Qed.

Lemma fire_ok v id w :
  world_ok timers_tracked w -> world_ok timers_tracked (fire (revision v) id w).
Proof.
  intros Hw. unfold fire. destruct (timers (store w) !! id) as [t|]; [|exact Hw].
  assert (Hc : world_ok timers_tracked (on_store (clearTimeout id) w))
    by (apply on_store_ok; [apply tracked_clearTimeout|exact Hw]).
  destruct (timer_callback t).
  - apply on_store_ok; [apply grace_tracked|exact Hc].
  - apply spawn_ok; [apply reconnect_callback_tracked|exact Hc].
  - exact Hc.
Qed.

Lemma exec_ok v w a :
  world_ok timers_tracked w -> world_ok timers_tracked (exec (revision v) w a).
Proof.
  intros Hw. destruct a; cbn [exec].
  - apply spawn_ok; [apply connect_tracked|exact Hw].
  - apply on_store_ok; [apply disconnect_tracked|exact Hw].
  - apply on_store_ok; [apply sendEvent_tracked|exact Hw].
  - apply on_store_ok; [|exact Hw]. intros s Hs. frame_timers.
  - apply on_store_ok; [|exact Hw]. intros s Hs. frame_timers.
  - apply on_store_ok; [apply ice_change_tracked|exact Hw].
  - apply on_store_ok; [apply connection_change_tracked|exact Hw].
  - apply on_store_ok; [apply channel_open_event_tracked|exact Hw].
  - apply on_store_ok; [apply channel_receive_tracked|exact Hw].
  - apply on_store_ok; [apply channel_close_event_tracked|exact Hw].
  - apply fire_ok, Hw.
  - apply settle_ok, Hw.
Qed.

Lemma run_ok v acts w :
  world_ok timers_tracked w -> world_ok timers_tracked (run (revision v) acts w).
Proof.
  revert w. induction acts as [|a acts IH]; intros w Hw; cbn; [exact Hw|].
  apply IH, exec_ok, Hw.
Qed.

(** In every world a run can reach, the only recovery timer that can be
    pending is the one [reconnectTimeoutRef] holds. *)
Lemma reachable_tracked v w :
  reachable (revision v) w -> timers_tracked (store w).
Proof.
  intros [acts ->]. apply run_ok. split; [apply tracked_initial|constructor].
Qed.

End Runs.

(** * The claims *)

Section RecoveryController.
Context {platform : Platform}.

(** One trigger, branch by branch.  In every run of the recovery
    controller, in either revision: a
    reconnection trigger ([attemptReconnect]) that finds the attempt
    counter at [maxReconnectAttempts] (3) or beyond sets the state to
    [error] with the exhausted-retries message and schedules nothing
    (timer table, timer ref and counter are left as they were); a
    trigger that finds the counter below the limit increments it,
    leaves the status alone, and leaves exactly one recovery timer
    pending, the delayed reconnect it has just scheduled.  A backoff
    timer that is pending when the counter is found at the limit is one
    of the things left as they were; the evaluations on sample runs
    show such a timer firing afterwards. *)
Theorem attemptReconnect_bounded_retries :
  forall (v : RevisionName) (w : World),
    reachable (revision v) w ->
    (maxReconnectAttempts <= connectionAttempts (store w) ->
       connectionState (rev_attemptReconnect (revision v) (store w))
         = mkConnectionState error (Some exhausted_message) /\
       connectionAttempts (rev_attemptReconnect (revision v) (store w))
         = connectionAttempts (store w) /\
       timers (rev_attemptReconnect (revision v) (store w)) = timers (store w) /\
       next_timer (rev_attemptReconnect (revision v) (store w)) = next_timer (store w) /\
       reconnectTimeoutRef (rev_attemptReconnect (revision v) (store w))
         = reconnectTimeoutRef (store w)) /\
    (connectionAttempts (store w) < maxReconnectAttempts ->
       connectionAttempts (rev_attemptReconnect (revision v) (store w))
         = connectionAttempts (store w) + 1 /\
       connectionState (rev_attemptReconnect (revision v) (store w))
         = connectionState (store w) /\
       exists id,
         reconnectTimeoutRef (rev_attemptReconnect (revision v) (store w)) = Some id /\
         pending_recovery (rev_attemptReconnect (revision v) (store w))
           = {[ id := mkTimer cb_reconnect (2000 * (connectionAttempts (store w) + 1)) ]}).
Proof.
  intros v w Hw. apply reachable_tracked in Hw. split.
  - intros Hge. rewrite attemptReconnect_exhausted by exact Hge. cbn. auto.
  - intros Hlt. destruct (attemptReconnect_retry v (store w) Hlt) as (Ht & Hn & Hr & Ha & Hc).
    repeat split; [exact Ha|exact Hc|].
    exists (next_timer (store w)). split; [exact Hr|].
    eapply armed_pending; [exact Hw|exact Ht|reflexivity].
Qed.

(** C7. For every attempt number [n] with [1 <= n <= maxReconnectAttempts],
    the reconnect that attempt [n] schedules is delayed by [2000 * n]
    milliseconds: the delay is linear in the attempt count, with base
    delay 2000 ms. *)
Theorem backoff_delay_is_linear :
  forall (v : RevisionName) (s : State) (n : Z),
    1 <= n <= maxReconnectAttempts ->
    connectionAttempts s = n - 1 ->
    connectionAttempts (rev_attemptReconnect (revision v) s) = n /\
    exists id,
      reconnectTimeoutRef (rev_attemptReconnect (revision v) s) = Some id /\
      timers (rev_attemptReconnect (revision v) s) !! id
        = Some (mkTimer cb_reconnect (2000 * n)).
Proof.
  intros v s n Hn Hs.
  assert (Hlt : connectionAttempts s < maxReconnectAttempts) by lia.
  destruct (attemptReconnect_retry v s Hlt) as (Ht & _ & Hr & Ha & _).
  split; [lia|]. exists (next_timer s). split; [exact Hr|].
  rewrite Ht, lookup_insert_eq. do 2 f_equal. lia.
Qed.

End RecoveryController.

Section Teardown.
Context {platform : Platform}.

Lemma close_dc_not_open d :
  readyState (close_dc d) = rs_closing \/ readyState (close_dc d) = rs_closed.
Proof. unfold close_dc. destruct (readyState d) eqn:E; cbn; auto. Qed.

Lemma stop_all_not_live tracks :
  Forall (fun t => track_live t = false) (map stop_track tracks).
Proof. induction tracks; cbn; constructor; auto. Qed.

(** After [disconnect], no timer that is still pending starts a
    reconnect. *)
Lemma disconnect_no_recovery v s id t :
  timers_tracked s ->
  timers (rev_disconnect (revision v) s) !! id = Some t -> recovery t = false.
Proof.
  intros Hs Hl. destruct (disconnect_timers v s) as (Ht & _).
  rewrite Ht in Hl. eapply without_ref_no_recovery; eauto.
Qed.

Lemma disconnect_heaps v s :
  pcs (rev_disconnect (revision v) s)
    = match pcRef s with Some i => alter close_pc i (pcs s) | None => pcs s end /\
  dcs (rev_disconnect (revision v) s)
    = match dcRef s with Some i => alter close_dc i (dcs s) | None => dcs s end /\
  streams (rev_disconnect (revision v) s)
    = match localStreamRef s with
      | Some i => alter (fun m => mkStream (map stop_track (stream_tracks m))) i (streams s)
      | None => streams s
      end /\
  audios (rev_disconnect (revision v) s)
    = match audioElementRef s with
      | Some i => alter (fun _ => mkAudio true) i (audios s)
      | None => audios s
      end.
Proof.
  destruct v; cbn [rev_disconnect revision proxied direct]; open_store s; run_store;
    repeat apply conj; reflexivity.
Qed.

Lemma live_or_stopped tracks :
  Forall (fun t => track_live t = false) tracks \/
  Exists (fun t => track_live t = true) tracks.
Proof.
  induction tracks as [|t tracks [IH|IH]].
  - left. constructor.
  - destruct (track_live t) eqn:E.
    + right. constructor. exact E.
    + left. constructor; assumption.
  - right. apply Exists_cons_tl, IH.
Qed.

Lemma disconnect_single_handle v s :
  single_handle s -> no_live_handle (rev_disconnect (revision v) s).
Proof.
  intros (Hpc & Hdc & Hst). destruct (disconnect_heaps v s) as (Epc & Edc & Est & _).
  repeat apply conj.
  - intros i p. rewrite Epc. destruct (pcRef s) as [j|] eqn:Hr.
    + destruct (decide (j = i)) as [->|Hne].
      * rewrite list_lookup_alter_eq. destruct (pcs s !! i); cbn; [|discriminate].
        intros [= <-]. reflexivity.
      * rewrite list_lookup_alter_ne by exact Hne. intros Hl.
        destruct (pc_closed p) eqn:E; [reflexivity|].
        specialize (Hpc i p Hl E). congruence.
    + intros Hl. destruct (pc_closed p) eqn:E; [reflexivity|].
      specialize (Hpc i p Hl E). discriminate.
  - intros i d. rewrite Edc. destruct (dcRef s) as [j|] eqn:Hr.
    + destruct (decide (j = i)) as [->|Hne].
      * rewrite list_lookup_alter_eq. destruct (dcs s !! i); cbn; [|discriminate].
        intros [= <-]. apply close_dc_not_open.
      * rewrite list_lookup_alter_ne by exact Hne. intros Hl.
        destruct (readyState d) eqn:E; auto;
          (pose proof (Hdc i d Hl ltac:(rewrite E; auto)); congruence).
    + intros Hl.
      destruct (readyState d) eqn:E; auto;
        (pose proof (Hdc i d Hl ltac:(rewrite E; auto)); congruence).
  - intros i m. rewrite Est. destruct (localStreamRef s) as [j|] eqn:Hr.
    + destruct (decide (j = i)) as [->|Hne].
      * rewrite list_lookup_alter_eq. destruct (streams s !! i); cbn; [|discriminate].
        intros [= <-]. apply stop_all_not_live.
      * rewrite list_lookup_alter_ne by exact Hne. intros Hl.
        destruct (live_or_stopped (stream_tracks m)) as [Ok|Live]; [exact Ok|].
        specialize (Hst i m Hl Live). congruence.
    + intros Hl. destruct (live_or_stopped (stream_tracks m)) as [Ok|Live]; [exact Ok|].
      specialize (Hst i m Hl Live). discriminate.
Qed.

(** What [disconnect] does release. Called on any store, in either
    revision, it releases the transport handle the refs hold: it clears the
    refs to the peer connection, the data channel, the local stream, the
    audio element and the timer; leaves the peer connection that was
    referenced closed, the data channel that was referenced closing or
    closed (never open), every track of the referenced local stream
    stopped, the referenced audio element removed, and the timer the ref
    held no longer pending; sets the status to [disconnected]; and a
    second call changes nothing but the console.  Where the refs held
    the only live handle, inspection afterwards finds no open
    connection, no open channel and no live track at all.  In every run,
    no recovery timer (grace or backoff) is pending after [disconnect],
    so no timer that fires afterwards starts a [connect]. *)
Theorem disconnect_tears_down :
  forall (v : RevisionName) (s s' : State),
    s' = rev_disconnect (revision v) s ->
    (pcRef s' = None /\ dcRef s' = None /\ localStreamRef s' = None /\
     audioElementRef s' = None /\ reconnectTimeoutRef s' = None) /\
    connectionState s' = mkConnectionState disconnected None /\
    (forall i p, pcRef s = Some i -> pcs s !! i = Some p ->
       pcs s' !! i = Some (close_pc p)) /\
    (forall i d, dcRef s = Some i -> dcs s !! i = Some d ->
       exists d', dcs s' !! i = Some d' /\
         (readyState d' = rs_closing \/ readyState d' = rs_closed)) /\
    (forall i m, localStreamRef s = Some i -> streams s !! i = Some m ->
       exists m', streams s' !! i = Some m' /\
         length (stream_tracks m') = length (stream_tracks m) /\
         Forall (fun t => track_live t = false) (stream_tracks m')) /\
    (forall i a, audioElementRef s = Some i -> audios s !! i = Some a ->
       audios s' !! i = Some (mkAudio true)) /\
    (forall id, reconnectTimeoutRef s = Some id -> timers s' !! id = None) /\
    rev_disconnect (revision v) s' = console_log "Disconnecting..." arg_none s' /\
    (single_handle s -> no_live_handle s') /\
    (forall w, reachable (revision v) w -> s = store w ->
       pending_recovery s' = ∅ /\
       forall id, tasks (fire (revision v) id (on_store (rev_disconnect (revision v)) w))
                  = tasks w).
Proof.
  intros v s s' ->. repeat apply conj.
  1-6: destruct v; cbn [rev_disconnect revision proxied direct]; open_store s; run_store;
    reflexivity.
  - intros i p Hr Hp. destruct (disconnect_heaps v s) as (-> & _).
    rewrite Hr, list_lookup_alter_eq, Hp. reflexivity.
  - intros i d Hr Hd. exists (close_dc d). split; [|apply close_dc_not_open].
    destruct (disconnect_heaps v s) as (_ & -> & _).
    rewrite Hr, list_lookup_alter_eq, Hd. reflexivity.
  - intros i m Hr Hm. exists (mkStream (map stop_track (stream_tracks m))).
    split; [|split; [cbn; apply length_map|apply stop_all_not_live]].
    destruct (disconnect_heaps v s) as (_ & _ & -> & _).
    rewrite Hr, list_lookup_alter_eq, Hm. reflexivity.
  - intros i a Hr Ha. destruct (disconnect_heaps v s) as (_ & _ & _ & ->).
    rewrite Hr, list_lookup_alter_eq, Ha. reflexivity.
  - intros id Hr. destruct (disconnect_timers v s) as (Ht & _).
    rewrite Ht, Hr. cbn. apply lookup_delete_eq.
  - destruct v; cbn [rev_disconnect revision proxied direct]; open_store s; run_store;
      reflexivity.
  - apply disconnect_single_handle.
  - intros w Hw ->. apply reachable_tracked in Hw.
    destruct (disconnect_timers v (store w)) as (Ht & Hn & _). split.
    + eapply cleared_tracked; eauto.
    + intros id. unfold fire. cbn [store on_store].
      destruct (timers (rev_disconnect (revision v) (store w)) !! id) as [t|] eqn:Hl;
        [|reflexivity].
      pose proof (disconnect_no_recovery v _ _ _ Hw Hl) as Hrec.
      unfold recovery in Hrec. destruct (timer_callback t); try discriminate.
      reflexivity.
Qed.

(** [disconnect] always leaves the attempt counter at 0, whatever it
    was and whether or not a reconnection had succeeded.  A [connect]
    that runs at once on the store [disconnect] has left starts with
    the whole budget: when it suspends for the first time the counter is
    still 0, the next three reconnection triggers each schedule a
    reconnect (attempts 1, 2 and 3, no [error] status), and only the
    fourth reports exhaustion.  What a [connect] that was already
    suspended does to the counter after [disconnect] is shown by the
    evaluations on sample runs. *)
Theorem disconnect_restores_retry_budget :
  forall (v : RevisionName) (s : State) (cl : Render),
    connectionAttempts (rev_disconnect (revision v) s) = 0 /\
    connectionAttempts
      (res_state (rev_connect (revision v) cl (rev_disconnect (revision v) s))) = 0 /\
    (connectionAttempts (triggers (revision v) 1
       (res_state (rev_connect (revision v) cl (rev_disconnect (revision v) s)))) = 1 /\
     connectionAttempts (triggers (revision v) 2
       (res_state (rev_connect (revision v) cl (rev_disconnect (revision v) s)))) = 2 /\
     connectionAttempts (triggers (revision v) 3
       (res_state (rev_connect (revision v) cl (rev_disconnect (revision v) s)))) = 3) /\
    connectionState (triggers (revision v) 3
       (res_state (rev_connect (revision v) cl (rev_disconnect (revision v) s))))
      = mkConnectionState connecting None /\
    connectionState (triggers (revision v) 4
       (res_state (rev_connect (revision v) cl (rev_disconnect (revision v) s))))
      = mkConnectionState error (Some exhausted_message).
Proof.
  intros v s cl.
  assert (H0 : connectionAttempts (rev_disconnect (revision v) s) = 0)
    by (destruct v; cbn [rev_disconnect revision proxied direct]; open_store s; run_store;
        reflexivity).
  set (s0 := res_state (rev_connect (revision v) cl (rev_disconnect (revision v) s))).
  assert (Hs0 : connectionAttempts s0 = 0 /\
                connectionState s0 = mkConnectionState connecting None).
  { subst s0. revert H0. generalize (rev_disconnect (revision v) s). intros d Hd.
    destruct v; cbn [rev_connect revision proxied direct];
      [|unfold Direct.connect; destruct (r_isSessionStarted cl)];
      vm_compute; auto. }
  destruct Hs0 as [Ha0 Hc0].
  cbn [triggers].
  set (s1 := rev_attemptReconnect (revision v) s0).
  destruct (attemptReconnect_retry v s0 ltac:(rewrite Ha0; reflexivity))
    as (_ & _ & _ & Ha1 & Hc1). fold s1 in Ha1, Hc1.
  set (s2 := rev_attemptReconnect (revision v) s1).
  destruct (attemptReconnect_retry v s1 ltac:(rewrite Ha1, Ha0; reflexivity))
    as (_ & _ & _ & Ha2 & Hc2). fold s2 in Ha2, Hc2.
  set (s3 := rev_attemptReconnect (revision v) s2).
  destruct (attemptReconnect_retry v s2 ltac:(rewrite Ha2, Ha1, Ha0; reflexivity))
    as (_ & _ & _ & Ha3 & Hc3). fold s3 in Ha3, Hc3.
  repeat apply conj; try lia.
  - congruence.
  - rewrite attemptReconnect_exhausted by (unfold maxReconnectAttempts; lia). reflexivity.
Qed.

End Teardown.

Section Outbound.
Context {platform : Platform}.


End Outbound.

Section GraceTimer.
Context {platform : Platform}.

Lemma attemptReconnect_logs v s :
  length (console (rev_attemptReconnect (revision v) s)) = S (length (console s)).
Proof.
  destruct (Z.lt_ge_cases (connectionAttempts s) maxReconnectAttempts) as [Hlt|Hge].
  - apply Z.ltb_lt in Hlt.
    destruct v; cbn [rev_attemptReconnect revision proxied direct];
      unfold Proxied.attemptReconnect, Direct.attemptReconnect;
      rewrite Hlt; open_store s; run_store; rewrite length_app; cbn; lia.
  - rewrite attemptReconnect_exhausted by exact Hge. cbn. rewrite length_app. cbn. lia.
Qed.

(** One [disconnected] notification on an open connection whose handler
    is assigned. *)
Lemma ice_disconnected_step v pc p s :
  timers_tracked s ->
  pcs s !! pc = Some p -> pc_closed p = false -> pc_on_ice p = true ->
  let s' := ice_change (revision v) pc ice_disconnected s in
  timers_tracked s' /\
  (exists p', pcs s' !! pc = Some p' /\ pc_closed p' = false /\ pc_on_ice p' = true) /\
  connectionAttempts s' = connectionAttempts s /\
  connectionState s' = connectionState s /\
  reconnectTimeoutRef s' = Some (next_timer s) /\
  pending_recovery s' = {[ next_timer s := mkTimer (cb_grace pc) 5000 ]}.
Proof.
  intros Hs Hp Hopen Hh. cbv zeta. unfold ice_change. rewrite Hp, Hopen, Hh.
  set (s1 := set_pcs _ s).
  assert (Hp1 : pcs s1 !! pc
                = Some (mkPc ice_disconnected (pc_connectionState p) (pc_closed p)
                             (pc_on_ice p) (pc_on_state p) (pc_senders p))).
  { subst s1. cbn [pcs set_pcs]. rewrite list_lookup_alter_eq, Hp. reflexivity. }
  assert (Hs1 : timers_tracked s1) by (subst s1; frame_timers).
  destruct (ice_handler_disconnected v pc _ s1 Hp1 eq_refl)
    as (Ht & Hn & Hr & Ha & Hc & Hpcs).
  repeat apply conj.
  - eapply armed_tracked; eauto.
  - rewrite Hpcs, Hp1. eexists. split; [reflexivity|]. cbn. auto.
  - exact Ha.
  - exact Hc.
  - exact Hr.
  - exact (armed_pending s1 _ _ _ Hs1 Ht eq_refl).
Qed.

Lemma ice_disconnected_repeated v pc p s n :
  timers_tracked s ->
  pcs s !! pc = Some p -> pc_closed p = false -> pc_on_ice p = true ->
  timers_tracked (ice_notifications (revision v) n pc ice_disconnected s) /\
  (exists p', pcs (ice_notifications (revision v) n pc ice_disconnected s) !! pc = Some p' /\
              pc_closed p' = false /\ pc_on_ice p' = true) /\
  connectionAttempts (ice_notifications (revision v) n pc ice_disconnected s)
    = connectionAttempts s /\
  connectionState (ice_notifications (revision v) n pc ice_disconnected s)
    = connectionState s.
Proof.
  intros Hs Hp Hopen Hh. induction n as [|n IH]; cbn [ice_notifications].
  - repeat apply conj; eauto.
  - destruct IH as (Ht & (p' & Hp' & Ho' & Hh') & Ha & Hc).
    destruct (ice_disconnected_step v pc p' _ Ht Hp' Ho' Hh')
      as (Ht2 & Hp2 & Ha2 & Hc2 & _).
    repeat apply conj; [exact Ht2|exact Hp2|congruence|congruence].
Qed.

(** C2. In every run, in either revision, for a connection that is open
    and has its handler assigned: [disconnected] notifications, one or
    many in a row, start no reconnection (attempt counter and status
    stay as they were) and leave exactly one recovery timer pending, a
    grace timer of 5000 ms for that connection, held by the timer ref
    (each notification cancels the timer armed before it).  When a
    grace timer fires, the store escalates to [attemptReconnect] if the
    connection's ICE state is then [disconnected] or [failed], and
    otherwise only loses the timer; the two outcomes differ. *)
Theorem ice_disconnected_arms_one_grace_timer :
  forall (v : RevisionName) (w : World) (pc : nat) (p : PeerConnection),
    reachable (revision v) w ->
    pcs (store w) !! pc = Some p -> pc_closed p = false -> pc_on_ice p = true ->
    (forall n,
       connectionAttempts (ice_notifications (revision v) (S n) pc ice_disconnected (store w))
         = connectionAttempts (store w) /\
       connectionState (ice_notifications (revision v) (S n) pc ice_disconnected (store w))
         = connectionState (store w) /\
       exists id,
         reconnectTimeoutRef
           (ice_notifications (revision v) (S n) pc ice_disconnected (store w)) = Some id /\
         pending_recovery
           (ice_notifications (revision v) (S n) pc ice_disconnected (store w))
           = {[ id := mkTimer (cb_grace pc) 5000 ]}) /\
    (forall (w' : World) (id : positive) (d : Z) (p' : PeerConnection),
       timers (store w') !! id = Some (mkTimer (cb_grace pc) d) ->
       pcs (store w') !! pc = Some p' ->
       (iceConnectionState p' = ice_disconnected \/ iceConnectionState p' = ice_failed ->
          fire (revision v) id w' = on_store (grace_escalation v id) w') /\
       (iceConnectionState p' <> ice_disconnected -> iceConnectionState p' <> ice_failed ->
          fire (revision v) id w' = on_store (clearTimeout id) w') /\
       grace_escalation v id (store w') <> clearTimeout id (store w')).
Proof.
  intros v w pc p Hw Hp Hopen Hh. apply reachable_tracked in Hw. split.
  - intros n.
    destruct (ice_disconnected_repeated v pc p (store w) n Hw Hp Hopen Hh)
      as (Ht & (p' & Hp' & Ho' & Hh') & Ha & Hc).
    cbn [ice_notifications].
    destruct (ice_disconnected_step v pc p' _ Ht Hp' Ho' Hh')
      as (_ & _ & Ha2 & Hc2 & Hr2 & Hpend).
    repeat apply conj; [congruence|congruence|].
    eexists. split; [exact Hr2|exact Hpend].
  - intros w' id d p' Hl Hp'.
    assert (Hfire : fire (revision v) id w'
              = on_store (rev_grace (revision v) pc) (on_store (clearTimeout id) w')).
    { unfold fire. rewrite Hl. reflexivity. }
    assert (Hpcs : pcs (clearTimeout id (store w')) !! pc = Some p') by exact Hp'.
    repeat apply conj.
    + intros Hst. rewrite Hfire. unfold on_store, grace_escalation. cbn [store tasks].
      f_equal.
      destruct v; cbn [rev_grace revision proxied direct];
        unfold Proxied.grace_callback, Direct.grace_callback; rewrite Hpcs;
        destruct Hst as [-> | ->]; reflexivity.
    + intros Hd Hf. rewrite Hfire. unfold on_store. cbn [store tasks]. f_equal.
      destruct v; cbn [rev_grace revision proxied direct];
        unfold Proxied.grace_callback, Direct.grace_callback; rewrite Hpcs;
        destruct (iceConnectionState p'); congruence.
    + intros Heq. apply (f_equal (fun s => length (console s))) in Heq.
      unfold grace_escalation in Heq. rewrite attemptReconnect_logs in Heq.
      destruct v; cbn in Heq; rewrite ?length_app in Heq; cbn in Heq; lia.
Qed.

(** C3, as amended. In either revision, when the ICE state of an open
    connection with its handler assigned becomes [connected] or
    [completed] while a grace timer for it is pending: the attempt
    counter is reset to 0 and the grace timer is left pending, still
    held by the timer ref (it is not cancelled); when that timer then
    fires it finds the connection recovered and only leaves the table,
    so no reconnection attempt is made. *)
Theorem ice_recovery_resets_counter_keeps_timer :
  forall (v : RevisionName) (w : World) (pc : nat) (p : PeerConnection)
         (st : IceState) (id : positive) (d : Z),
    pcs (store w) !! pc = Some p -> pc_closed p = false -> pc_on_ice p = true ->
    st = ice_connected \/ st = ice_completed ->
    timers (store w) !! id = Some (mkTimer (cb_grace pc) d) ->
    connectionAttempts (ice_change (revision v) pc st (store w)) = 0 /\
    timers (ice_change (revision v) pc st (store w)) = timers (store w) /\
    reconnectTimeoutRef (ice_change (revision v) pc st (store w))
      = reconnectTimeoutRef (store w) /\
    fire (revision v) id (on_store (ice_change (revision v) pc st) w)
      = on_store (clearTimeout id) (on_store (ice_change (revision v) pc st) w).
Proof.
  intros v w pc p st id d Hp Hopen Hh Hst Hl.
  set (s1 := set_pcs (alter (fun p => mkPc st (pc_connectionState p) (pc_closed p)
                               (pc_on_ice p) (pc_on_state p) (pc_senders p))
                            pc (pcs (store w))) (store w)).
  assert (Hp1 : pcs s1 !! pc
                = Some (mkPc st (pc_connectionState p) (pc_closed p)
                             (pc_on_ice p) (pc_on_state p) (pc_senders p))).
  { subst s1. cbn [pcs set_pcs]. rewrite list_lookup_alter_eq, Hp. reflexivity. }
  assert (Hice : ice_change (revision v) pc st (store w) = rev_ice (revision v) pc s1).
  { unfold ice_change. rewrite Hp, Hopen, Hh. reflexivity. }
  assert (Hshape : connectionAttempts (rev_ice (revision v) pc s1) = 0 /\
                   timers (rev_ice (revision v) pc s1) = timers (store w) /\
                   reconnectTimeoutRef (rev_ice (revision v) pc s1)
                     = reconnectTimeoutRef (store w) /\
                   pcs (rev_ice (revision v) pc s1) = pcs s1).
  { destruct v; cbn [rev_ice revision proxied direct];
      unfold Proxied.oniceconnectionstatechange, Direct.oniceconnectionstatechange;
      rewrite Hp1; cbn [iceConnectionState]; destruct Hst as [-> | ->];
      repeat apply conj; reflexivity. }
  destruct Hshape as (Ha & Ht & Hr & Hpcs). rewrite Hice.
  repeat apply conj; [exact Ha|exact Ht|exact Hr|].
  unfold fire. cbn [store on_store]. rewrite Hice, Ht, Hl. cbn [timer_callback].
  unfold on_store. cbn [store tasks]. f_equal. rewrite !Hice.
  assert (Hq : pcs (clearTimeout id (rev_ice (revision v) pc s1)) !! pc
               = Some (mkPc st (pc_connectionState p) (pc_closed p)
                             (pc_on_ice p) (pc_on_state p) (pc_senders p))).
  { cbn [pcs clearTimeout set_timers]. rewrite Hpcs. exact Hp1. }
  revert Hq. generalize (clearTimeout id (rev_ice (revision v) pc s1)). intros s2 Hq.
  destruct v; cbn [rev_grace revision proxied direct];
    unfold Proxied.grace_callback, Direct.grace_callback; rewrite Hq;
    cbn [iceConnectionState]; destruct Hst as [-> | ->]; reflexivity.
Qed.

End GraceTimer.

(** ** Evaluations on sample runs *)

(** C4, evaluation. Once a reconnection has replaced the transport
    handle, [disconnect] no longer reaches the handle it replaced.
    [Proxied], reconnected after a sustained [disconnected], then
    [disconnect]: the status is [disconnected] and the second peer
    connection is closed, but the first is still open and the track of
    the first local stream is still live.  [Direct], reconnected after
    an ICE failure, then [disconnect]: both peer connections are closed
    ([attemptReconnect] closed the first), but the track of the first
    local stream is still live. *)
Theorem disconnect_misses_replaced_handle :
  connectionState (store (sample_run the_proxied (proxied_reconnected ++ [call_disconnect])))
    = mkConnectionState disconnected None /\
  pcRef (store (sample_run the_proxied (proxied_reconnected ++ [call_disconnect]))) = None /\
  map pc_closed (pcs (store (sample_run the_proxied (proxied_reconnected ++ [call_disconnect]))))
    = [false; true] /\
  map readyState (dcs (store (sample_run the_proxied (proxied_reconnected ++ [call_disconnect]))))
    = [rs_connecting; rs_closing] /\
  map stream_tracks
      (streams (store (sample_run the_proxied (proxied_reconnected ++ [call_disconnect]))))
    = [[mkTrack true true]; [mkTrack true false]] /\
  connectionState (store (sample_run the_direct (direct_reconnected ++ [call_disconnect])))
    = mkConnectionState disconnected None /\
  map pc_closed (pcs (store (sample_run the_direct (direct_reconnected ++ [call_disconnect]))))
    = [true; true] /\
  map stream_tracks
      (streams (store (sample_run the_direct (direct_reconnected ++ [call_disconnect]))))
    = [[mkTrack true true]; [mkTrack true false]].
Proof. repeat apply conj; vm_compute; reflexivity. Qed.

(** C3, counterexample. In both revisions, after a successful handshake
    and a [disconnected] notification the grace timer is pending (timer
    2 in [Proxied], timer 1 in [Direct]); the [connected] notification
    that follows resets the counter but does not cancel the timer: it is
    still pending and still held by the timer ref. *)
Lemma grace_timer_survives_recovery :
  timers (store (sample_run the_proxied
                   (proxied_connected ++ [ice_changes 0 ice_disconnected]))) !! 2%positive
    = Some (mkTimer (cb_grace 0) 5000) /\
  iceConnectionState <$>
    pcs (store (sample_run the_proxied
                  (proxied_connected ++ [ice_changes 0 ice_disconnected;
                                         ice_changes 0 ice_connected]))) !! 0%nat
    = Some ice_connected /\
  timers (store (sample_run the_proxied
                   (proxied_connected ++ [ice_changes 0 ice_disconnected;
                                          ice_changes 0 ice_connected]))) !! 2%positive
    = Some (mkTimer (cb_grace 0) 5000) /\
  reconnectTimeoutRef (store (sample_run the_proxied
                                (proxied_connected ++ [ice_changes 0 ice_disconnected;
                                                       ice_changes 0 ice_connected])))
    = Some 2%positive /\
  connectionAttempts (store (sample_run the_proxied
                               (proxied_connected ++ [ice_changes 0 ice_disconnected;
                                                      ice_changes 0 ice_connected]))) = 0 /\
  timers (store (sample_run the_direct
                   (direct_connected ++ [ice_changes 0 ice_disconnected;
                                         ice_changes 0 ice_connected]))) !! 1%positive
    = Some (mkTimer (cb_grace 0) 5000) /\
  reconnectTimeoutRef (store (sample_run the_direct
                                (direct_connected ++ [ice_changes 0 ice_disconnected;
                                                      ice_changes 0 ice_connected])))
    = Some 1%positive.
Proof. repeat apply conj; vm_compute; reflexivity. Qed.


Section EventBus.
Context {platform : Platform}.

Lemma proxied_notify_all event listeners s :
  delivered (fold_left (Proxied.notify event) listeners s)
    = delivered s ++ map (fun l => (l, event)) listeners.
Proof.
  revert s. induction listeners as [|l listeners IH]; intros s; cbn [fold_left map].
  - rewrite app_nil_r. reflexivity.
  - rewrite IH. unfold Proxied.notify.
    destruct (listener_call l event); cbn [delivered console_error set_console set_delivered];
      rewrite <- app_assoc; reflexivity.
Qed.

(** In [Proxied], publication reaches every listener the handler holds,
    in order, whatever any of them throws. *)
Lemma proxied_onmessage_delivers_all listeners data event s :
  JSON_parse data = inr event ->
  delivered (Proxied.onmessage listeners data s)
    = delivered s ++ map (fun l => (l, event)) listeners.
Proof.
  intros Hparse. unfold Proxied.onmessage. rewrite Hparse.
  rewrite proxied_notify_all. reflexivity.
Qed.
End EventBus.

(** C8, evaluation. A channel whose handler holds the listeners [13; 7]
    receives one message, and listener 13 throws.  In [Proxied] both
    listeners are called with the event, in order, and the exception is
    logged.  In [Direct] the exception leaves the handler: listener 7 is
    never called and nothing is logged. *)
Theorem direct_listener_exception_stops_delivery :
  delivered (Proxied.onmessage (platform := sample_platform) [13; 7]%nat "x" initial_state)
    = [(13%nat, mkEvent "x" []); (7%nat, mkEvent "x" [])] /\
  console (Proxied.onmessage (platform := sample_platform) [13; 7]%nat "x" initial_state)
    = [mkLog lvl_log "Received event:" (arg_text "x");
       mkLog lvl_error "Error in event listener:" (arg_exn sample_exn)] /\
  delivered (Direct.onmessage (platform := sample_platform) [13; 7]%nat "x" initial_state).1
    = [(13%nat, mkEvent "x" [])] /\
  console (Direct.onmessage (platform := sample_platform) [13; 7]%nat "x" initial_state).1 = [] /\
  (Direct.onmessage (platform := sample_platform) [13; 7]%nat "x" initial_state).2
    = Some sample_exn.
Proof. repeat apply conj; vm_compute; reflexivity. Qed.

(** C5, evaluation. [Proxied]: a second [connect] while the first is
    still [connecting] creates a second peer connection beside the first,
    both open, and a second handshake is in flight; a [connect] while
    [connected] does the same, whether the component calls it or the
    backoff timer does after a sustained [disconnected].  [Direct]: two
    calls from the same render start two token requests; a call from a
    render that has seen the session started starts nothing but still
    turns a [connected] status into [connecting]. *)
Theorem connect_twice_duplicates_handshake :
  status (connectionState (store (sample_run the_proxied
                                    [call_addEventListener 7%nat; click_connect])))
    = connecting /\
  map pc_closed (pcs (store (sample_run the_proxied
                               [call_addEventListener 7%nat; click_connect; click_connect])))
    = [false; false] /\
  map awaiting (tasks (sample_run the_proxied
                         [call_addEventListener 7%nat; click_connect; click_connect]))
    = [Some rq_getUserMedia; Some rq_getUserMedia] /\
  status (connectionState (store (sample_run the_proxied proxied_connected))) = connected /\
  map pc_closed (pcs (store (sample_run the_proxied (proxied_connected ++ [click_connect]))))
    = [false; false] /\
  status (connectionState (store (sample_run the_proxied
            (proxied_connected ++ [ice_changes 0 ice_disconnected; timer_fires 2%positive]))))
    = connected /\
  map pc_closed (pcs (store (sample_run the_proxied
            (proxied_connected ++ [ice_changes 0 ice_disconnected; timer_fires 2%positive;
                                   timer_fires 3%positive]))))
    = [false; false] /\
  map awaiting (tasks (sample_run the_direct
                         [call_addEventListener 7%nat; click_connect; click_connect]))
    = [Some (rq_fetch "/api/session" None); Some (rq_fetch "/api/session" None)] /\
  status (connectionState (store (sample_run the_direct direct_connected))) = connected /\
  status (connectionState (store (sample_run the_direct
                                    (direct_connected ++ [call_connect (mkRender [7%nat] true)]))))
    = connecting.
Proof. repeat apply conj; vm_compute; reflexivity. Qed.

(** C6, evaluation. [Direct]: the first handshake fails at the signaling
    endpoint.  The status is then [error] although only the first of
    three retries has been scheduled; when the backoff timer fires the
    status turns to [connecting], and after the next failure to [error]
    again.  [Proxied] on the same failure ends [disconnected], with no
    retry scheduled. *)
Theorem direct_shows_error_between_retries :
  connectionState (store (sample_run the_direct first_failure))
    = mkConnectionState error (Some "Failed to get session token: 500") /\
  connectionAttempts (store (sample_run the_direct first_failure)) = 1 /\
  map_to_list (timers (store (sample_run the_direct first_failure)))
    = [(1%positive, mkTimer cb_reconnect 2000)] /\
  status (connectionState (store (sample_run the_direct
            (first_failure ++ [timer_fires 1%positive]))))
    = connecting /\
  status (connectionState (store (sample_run the_direct
            (first_failure ++ [timer_fires 1%positive; settles 1 signaling_fails]))))
    = error /\
  connectionAttempts (store (sample_run the_direct
            (first_failure ++ [timer_fires 1%positive; settles 1 signaling_fails]))) = 2 /\
  connectionState (store (sample_run the_proxied
            (first_failure ++ [settles 0 signaling_fails; settles 0 signaling_fails;
                               settles 0 signaling_fails; settles 0 signaling_fails])))
    = mkConnectionState disconnected None /\
  map_to_list (timers (store (sample_run the_proxied
            (first_failure ++ [settles 0 signaling_fails; settles 0 signaling_fails;
                               settles 0 signaling_fails; settles 0 signaling_fails]))))
    = [].
Proof. repeat apply conj; vm_compute; reflexivity. Qed.

(** C1, evaluation. The [error] state of exhausted retries is not
    terminal: the trigger that finds the counter at
    [maxReconnectAttempts] sets the status but does not cancel the
    backoff timer of the third attempt, and when that timer is still
    pending it fires afterwards and runs [connect].

    [Direct], after [direct_retry_wave]: the counter is 3, backoff timer
    3 (6000 ms) is pending and one reconnect is still in flight.  That
    reconnect fails, which is the fourth trigger: the status is [error]
    with the exhausted-retries message, and timer 3 is still pending and
    still held by the ref.  Timer 3 fires: the status is [connecting]
    and a new [connect] waits for the session token.  Its handshake
    succeeds and ICE connects: the status is [connected], the counter 0.

    [Proxied], after [proxied_retry_wave]: the counter is 3 and backoff
    timer 4 (6000 ms) is pending.  ICE [failed] is reported once more:
    [error] with the exhausted-retries message, timer 4 still pending.
    Timer 4 fires: the status is [connecting], a second peer connection
    is open beside the first and a new [connect] waits for the
    microphone.  Its handshake succeeds: [connected], the counter 0. *)
Theorem exhausted_retries_keep_pending_reconnect :
  (connectionAttempts (store (sample_run the_direct direct_retry_wave)) = 3 /\
   map_to_list (timers (store (sample_run the_direct direct_retry_wave)))
     = [(3%positive, mkTimer cb_reconnect 6000)] /\
   map awaiting (tasks (sample_run the_direct direct_retry_wave))
     = [None; None; None; Some (rq_fetch "/api/session" None)] /\
   connectionState (store (sample_run the_direct
       (direct_retry_wave ++ [settles 3 signaling_fails])))
     = mkConnectionState error (Some exhausted_message) /\
   connectionAttempts (store (sample_run the_direct
       (direct_retry_wave ++ [settles 3 signaling_fails]))) = 3 /\
   map_to_list (timers (store (sample_run the_direct
       (direct_retry_wave ++ [settles 3 signaling_fails]))))
     = [(3%positive, mkTimer cb_reconnect 6000)] /\
   reconnectTimeoutRef (store (sample_run the_direct
       (direct_retry_wave ++ [settles 3 signaling_fails])))
     = Some 3%positive /\
   map awaiting (tasks (sample_run the_direct
       (direct_retry_wave ++ [settles 3 signaling_fails])))
     = [None; None; None; None] /\
   connectionState (store (sample_run the_direct
       (direct_retry_wave ++ [settles 3 signaling_fails; timer_fires 3%positive])))
     = mkConnectionState connecting None /\
   map awaiting (tasks (sample_run the_direct
       (direct_retry_wave ++ [settles 3 signaling_fails; timer_fires 3%positive])))
     = [None; None; None; None; Some (rq_fetch "/api/session" None)] /\
   connectionState (store (sample_run the_direct
       (direct_retry_wave ++ [settles 3 signaling_fails; timer_fires 3%positive]
        ++ repeat (settles 4 all_fulfilled) 8 ++ [ice_changes 0 ice_connected])))
     = mkConnectionState connected None /\
   connectionAttempts (store (sample_run the_direct
       (direct_retry_wave ++ [settles 3 signaling_fails; timer_fires 3%positive]
        ++ repeat (settles 4 all_fulfilled) 8 ++ [ice_changes 0 ice_connected]))) = 0) /\
  (connectionAttempts (store (sample_run the_proxied proxied_retry_wave)) = 3 /\
   status (connectionState (store (sample_run the_proxied proxied_retry_wave))) = connected /\
   map_to_list (timers (store (sample_run the_proxied proxied_retry_wave)))
     = [(4%positive, mkTimer cb_reconnect 6000)] /\
   connectionState (store (sample_run the_proxied
       (proxied_retry_wave ++ [ice_changes 0 ice_failed])))
     = mkConnectionState error (Some exhausted_message) /\
   connectionAttempts (store (sample_run the_proxied
       (proxied_retry_wave ++ [ice_changes 0 ice_failed]))) = 3 /\
   map_to_list (timers (store (sample_run the_proxied
       (proxied_retry_wave ++ [ice_changes 0 ice_failed]))))
     = [(4%positive, mkTimer cb_reconnect 6000)] /\
   reconnectTimeoutRef (store (sample_run the_proxied
       (proxied_retry_wave ++ [ice_changes 0 ice_failed])))
     = Some 4%positive /\
   connectionState (store (sample_run the_proxied
       (proxied_retry_wave ++ [ice_changes 0 ice_failed; timer_fires 4%positive])))
     = mkConnectionState connecting None /\
   map awaiting (tasks (sample_run the_proxied
       (proxied_retry_wave ++ [ice_changes 0 ice_failed; timer_fires 4%positive])))
     = [None; Some rq_getUserMedia] /\
   map pc_closed (pcs (store (sample_run the_proxied
       (proxied_retry_wave ++ [ice_changes 0 ice_failed; timer_fires 4%positive]))))
     = [false; false] /\
   connectionState (store (sample_run the_proxied
       (proxied_retry_wave ++ [ice_changes 0 ice_failed; timer_fires 4%positive]
        ++ repeat (settles 1 all_fulfilled) 6 ++ [connection_changes 1 pcs_connected])))
     = mkConnectionState connected None /\
   connectionAttempts (store (sample_run the_proxied
       (proxied_retry_wave ++ [ice_changes 0 ice_failed; timer_fires 4%positive]
        ++ repeat (settles 1 all_fulfilled) 6 ++ [connection_changes 1 pcs_connected]))) = 0).
Proof. split; repeat apply conj; vm_compute; reflexivity. Qed.

(** C10, evaluation. [disconnect] resets the counter, but it does not
    stop a [connect] that is suspended, and in [Direct] that call takes
    from the budget afterwards.

    [Direct], [direct_disconnect_mid_wave]: right after [disconnect] the
    status is [disconnected], the counter 0 and no timer pending, but
    the reconnect that the backoff timer started still waits for the
    session token.  The token request then fails: the [catch] of that
    call sets the status to [error] and runs [attemptReconnect], so the
    counter is 1 and a backoff timer (2000 ms) is pending, although
    nobody has called [connect] since the [disconnect].  The next
    [connect] of the component starts with the counter at 1: two
    triggers later the counter is 3, and the third trigger after that
    [connect] already reports exhaustion.  Left alone instead, the
    pending timer fires and starts a [connect] by itself.

    [Proxied], [proxied_disconnect_mid_wave], for comparison: the
    suspended reconnect fails as soon as it resumes (its peer
    connection is closed), and its [catch] ends with [disconnect]: the
    status is [disconnected], the counter 0, no timer pending, and the
    next [connect] starts with the counter at 0. *)
Theorem disconnect_mid_wave_loses_budget :
  (connectionState (store (sample_run the_direct direct_disconnect_mid_wave))
     = mkConnectionState disconnected None /\
   connectionAttempts (store (sample_run the_direct direct_disconnect_mid_wave)) = 0 /\
   map_to_list (timers (store (sample_run the_direct direct_disconnect_mid_wave))) = [] /\
   map awaiting (tasks (sample_run the_direct direct_disconnect_mid_wave))
     = [None; Some (rq_fetch "/api/session" None)] /\
   connectionState (store (sample_run the_direct
       (direct_disconnect_mid_wave ++ [settles 1 signaling_fails])))
     = mkConnectionState error (Some "Failed to get session token: 500") /\
   connectionAttempts (store (sample_run the_direct
       (direct_disconnect_mid_wave ++ [settles 1 signaling_fails]))) = 1 /\
   map_to_list (timers (store (sample_run the_direct
       (direct_disconnect_mid_wave ++ [settles 1 signaling_fails]))))
     = [(2%positive, mkTimer cb_reconnect 2000)] /\
   connectionAttempts (store (sample_run the_direct
       (direct_disconnect_mid_wave ++ [settles 1 signaling_fails; click_connect]))) = 1 /\
   map awaiting (tasks (sample_run the_direct
       (direct_disconnect_mid_wave ++ [settles 1 signaling_fails; click_connect])))
     = [None; None; Some (rq_fetch "/api/session" None)] /\
   connectionAttempts (triggers (revision (platform := sample_platform) the_direct) 2
       (store (sample_run the_direct
          (direct_disconnect_mid_wave ++ [settles 1 signaling_fails; click_connect])))) = 3 /\
   connectionState (triggers (revision (platform := sample_platform) the_direct) 3
       (store (sample_run the_direct
          (direct_disconnect_mid_wave ++ [settles 1 signaling_fails; click_connect]))))
     = mkConnectionState error (Some exhausted_message) /\
   map awaiting (tasks (sample_run the_direct
       (direct_disconnect_mid_wave ++ [settles 1 signaling_fails; timer_fires 2%positive])))
     = [None; None; Some (rq_fetch "/api/session" None)]) /\
  (connectionAttempts (store (sample_run the_proxied proxied_disconnect_mid_wave)) = 0 /\
   map awaiting (tasks (sample_run the_proxied proxied_disconnect_mid_wave))
     = [None; Some rq_getUserMedia] /\
   connectionState (store (sample_run the_proxied
       (proxied_disconnect_mid_wave ++ [settles 1 all_fulfilled])))
     = mkConnectionState disconnected None /\
   connectionAttempts (store (sample_run the_proxied
       (proxied_disconnect_mid_wave ++ [settles 1 all_fulfilled]))) = 0 /\
   map_to_list (timers (store (sample_run the_proxied
       (proxied_disconnect_mid_wave ++ [settles 1 all_fulfilled])))) = [] /\
   map awaiting (tasks (sample_run the_proxied
       (proxied_disconnect_mid_wave ++ [settles 1 all_fulfilled])))
     = [None; None] /\
   connectionAttempts (store (sample_run the_proxied
       (proxied_disconnect_mid_wave ++ [settles 1 all_fulfilled; click_connect]))) = 0).
Proof. split; repeat apply conj; vm_compute; reflexivity. Qed.

(** ** The theorems at concrete inputs *)

(** [attemptReconnect_bounded_retries] at two worlds: the initial one,
    where a trigger schedules the first retry, and [Direct] after three
    failed handshakes, where the next trigger reports exhaustion. *)
Lemma attemptReconnect_bounded_retries_witness :
  (reachable (platform := sample_platform) (revision (platform := sample_platform) the_proxied) initial_world /\
   connectionAttempts (store initial_world) < maxReconnectAttempts /\
   connectionAttempts
     (rev_attemptReconnect (revision (platform := sample_platform) the_proxied)
        (store initial_world))
     = connectionAttempts (store initial_world) + 1) /\
  (reachable (platform := sample_platform) (revision (platform := sample_platform) the_direct)
     (sample_run the_direct direct_three_failures) /\
   maxReconnectAttempts
     <= connectionAttempts (store (sample_run the_direct direct_three_failures)) /\
   connectionState
     (rev_attemptReconnect (revision (platform := sample_platform) the_direct)
        (store (sample_run the_direct direct_three_failures)))
     = mkConnectionState error (Some exhausted_message)).
Proof.
  split.
  - assert (Hr : reachable (platform := sample_platform) (revision (platform := sample_platform) the_proxied) initial_world)
      by (exists []; reflexivity).
    split; [exact Hr|]. split; [reflexivity|].
    apply (proj2 (attemptReconnect_bounded_retries (platform := sample_platform)
                    the_proxied initial_world Hr)).
    reflexivity.
  - assert (Hr : reachable (platform := sample_platform) (revision (platform := sample_platform) the_direct)
                   (sample_run the_direct direct_three_failures))
      by (exists direct_three_failures; reflexivity).
    assert (Hge : maxReconnectAttempts
                  <= connectionAttempts (store (sample_run the_direct direct_three_failures)))
      by (vm_compute; discriminate).
    split; [exact Hr|]. split; [exact Hge|].
    apply (proj1 (attemptReconnect_bounded_retries (platform := sample_platform)
                    the_direct _ Hr)).
    exact Hge.
Defined.

(** C7 at attempt 2 of [Direct]. *)
Lemma backoff_delay_is_linear_witness :
  1 <= 2 <= maxReconnectAttempts /\
  connectionAttempts (set_connectionAttempts 1 initial_state) = 2 - 1 /\
  connectionAttempts
    (rev_attemptReconnect (revision (platform := sample_platform) the_direct)
       (set_connectionAttempts 1 initial_state)) = 2.
Proof.
  assert (Hn : 1 <= 2 <= maxReconnectAttempts) by (unfold maxReconnectAttempts; lia).
  split; [exact Hn|]. split; [reflexivity|].
  apply (backoff_delay_is_linear (platform := sample_platform) the_direct
           (set_connectionAttempts 1 initial_state) 2 Hn).
  reflexivity.
Defined.

(** [disconnect_tears_down] on [Proxied], connected and with a grace
    timer pending; the refs hold the only live handle there. *)
Lemma disconnect_tears_down_sample :
  rev_disconnect (revision (platform := sample_platform) the_proxied)
    (store (sample_run the_proxied (proxied_connected ++ [ice_changes 0 ice_disconnected])))
  = rev_disconnect (revision (platform := sample_platform) the_proxied)
      (store (sample_run the_proxied (proxied_connected ++ [ice_changes 0 ice_disconnected]))) /\
  single_handle
    (store (sample_run the_proxied (proxied_connected ++ [ice_changes 0 ice_disconnected]))) /\
  pcRef (rev_disconnect (revision (platform := sample_platform) the_proxied)
           (store (sample_run the_proxied
                     (proxied_connected ++ [ice_changes 0 ice_disconnected])))) = None /\
  no_live_handle
    (rev_disconnect (revision (platform := sample_platform) the_proxied)
       (store (sample_run the_proxied
                 (proxied_connected ++ [ice_changes 0 ice_disconnected])))) /\
  pending_recovery
    (rev_disconnect (revision (platform := sample_platform) the_proxied)
       (store (sample_run the_proxied
                 (proxied_connected ++ [ice_changes 0 ice_disconnected])))) = ∅.
Proof.
  split; [reflexivity|].
  assert (Hsingle : single_handle
            (store (sample_run the_proxied
                      (proxied_connected ++ [ice_changes 0 ice_disconnected])))).
  { repeat apply conj.
    - intros [|i] p Hl _; [reflexivity|]. vm_compute in Hl. discriminate.
    - intros [|i] d Hl _; [reflexivity|]. vm_compute in Hl. discriminate.
    - intros [|i] m Hl _; [reflexivity|]. vm_compute in Hl. discriminate. }
  split; [exact Hsingle|].
  destruct (disconnect_tears_down (platform := sample_platform) the_proxied
              (store (sample_run the_proxied
                        (proxied_connected ++ [ice_changes 0 ice_disconnected])))
              _ eq_refl)
    as ((Hpc & _) & _ & _ & _ & _ & _ & _ & _ & Hlive & Hruns).
  split; [exact Hpc|]. split; [exact (Hlive Hsingle)|].
  apply (Hruns (sample_run the_proxied (proxied_connected ++ [ice_changes 0 ice_disconnected]))).
  - eexists; reflexivity.
  - reflexivity.
Defined.

(** C2 on [Proxied], connected: two [disconnected] notifications. *)
Lemma ice_disconnected_arms_one_grace_timer_witness :
  reachable (platform := sample_platform) (revision (platform := sample_platform) the_proxied)
    (sample_run the_proxied proxied_connected) /\
  pcs (store (sample_run the_proxied proxied_connected)) !! 0%nat
    = Some (mkPc ice_connected pcs_connected false true true [(0, 0)%nat]) /\
  exists id,
    reconnectTimeoutRef
      (ice_notifications (revision (platform := sample_platform) the_proxied) 2 0
         ice_disconnected (store (sample_run the_proxied proxied_connected))) = Some id /\
    pending_recovery
      (ice_notifications (revision (platform := sample_platform) the_proxied) 2 0
         ice_disconnected (store (sample_run the_proxied proxied_connected)))
      = {[ id := mkTimer (cb_grace 0) 5000 ]}.
Proof.
  assert (Hr : reachable (platform := sample_platform) (revision (platform := sample_platform) the_proxied)
                 (sample_run the_proxied proxied_connected))
    by (eexists; reflexivity).
  assert (Hp : pcs (store (sample_run the_proxied proxied_connected)) !! 0%nat
               = Some (mkPc ice_connected pcs_connected false true true [(0, 0)%nat]))
    by (vm_compute; reflexivity).
  split; [exact Hr|]. split; [exact Hp|].
  destruct (ice_disconnected_arms_one_grace_timer (platform := sample_platform)
              the_proxied _ 0%nat _ Hr Hp eq_refl eq_refl) as [Harm _].
  destruct (Harm 1%nat) as (_ & _ & Hid). exact Hid.
Defined.

(** C3, amended, on [Proxied]: connected, then [disconnected], then
    [connected] again with grace timer 2 pending. *)
Lemma ice_recovery_resets_counter_keeps_timer_witness :
  timers (store (sample_run the_proxied (proxied_connected ++ [ice_changes 0 ice_disconnected])))
    !! 2%positive = Some (mkTimer (cb_grace 0) 5000) /\
  timers (ice_change (revision (platform := sample_platform) the_proxied) 0 ice_connected
            (store (sample_run the_proxied
                      (proxied_connected ++ [ice_changes 0 ice_disconnected]))))
    = timers (store (sample_run the_proxied
                       (proxied_connected ++ [ice_changes 0 ice_disconnected]))) /\
  connectionAttempts
    (ice_change (revision (platform := sample_platform) the_proxied) 0 ice_connected
       (store (sample_run the_proxied
                 (proxied_connected ++ [ice_changes 0 ice_disconnected])))) = 0.
Proof.
  assert (Hl : timers (store (sample_run the_proxied
                                (proxied_connected ++ [ice_changes 0 ice_disconnected])))
                 !! 2%positive = Some (mkTimer (cb_grace 0) 5000))
    by (vm_compute; reflexivity).
  assert (Hp : pcs (store (sample_run the_proxied
                             (proxied_connected ++ [ice_changes 0 ice_disconnected])))
                 !! 0%nat
               = Some (mkPc ice_disconnected pcs_connected false true true [(0, 0)%nat]))
    by (vm_compute; reflexivity).
  split; [exact Hl|].
  destruct (ice_recovery_resets_counter_keeps_timer (platform := sample_platform)
              the_proxied _ 0%nat _ ice_connected 2%positive 5000
              Hp eq_refl eq_refl (or_introl eq_refl) Hl)
    as (Ha & Ht & _).
  split; [exact Ht|exact Ha].
Defined.


(** * Further properties

    Properties of the hook beyond the recovery controller, of the SDP
    helpers and of the signaling endpoint. *)

(** ** The event bus *)

Section Subscriptions.
Context {platform : Platform}.

(** X1. Subscribing a listener that is not yet subscribed and then
    calling the unsubscribe closure [addEventListener] returned gives
    back the store as it was: the listener list is restored, in order,
    and nothing else has changed. *)
Theorem subscribe_then_unsubscribe l s :
  l ∉ eventListeners s ->
  removeEventListener l (addEventListener l s) = s.
Proof.
  intros Hl. unfold removeEventListener, addEventListener.
  destruct s as [c b ls x1 x2 x3 x4 x5 x6 x7 x8 x9 x10 x11 x12 x13 x14].
  unfold setEventListeners.
  cbn [eventListeners connectionState isSessionStarted pcRef dcRef
       audioElementRef localStreamRef reconnectTimeoutRef connectionAttempts pcs dcs
       streams audios timers next_timer console delivered] in *. f_equal.
  rewrite filter_app, filter_cons, filter_nil.
  destruct (decide (l <> l)) as [Hc|_]; [destruct Hc; reflexivity|]. rewrite app_nil_r.
  induction ls as [|x xs IH]; [reflexivity|].
  apply not_elem_of_cons in Hl as [Hx Hxs].
  rewrite filter_cons. destruct (decide (x <> l)) as [_|Hc]; [|destruct Hc; congruence].
  f_equal. apply IH, Hxs.
Qed.

(** X2. The unsubscribe closure removes every registration of its
    listener, not only the one that returned it: afterwards the
    listener is not in the list at all, while every other listener
    keeps all its registrations and the order among the remaining
    entries is unchanged. *)
Theorem unsubscribe_removes_every_registration l s :
  (l ∉ eventListeners (removeEventListener l s)) /\
  (forall l', l' <> l ->
     filter (fun x => x = l') (eventListeners (removeEventListener l s))
       = filter (fun x => x = l') (eventListeners s)) /\
  eventListeners (removeEventListener l s) `sublist_of` eventListeners s.
Proof.
  unfold removeEventListener. cbn [eventListeners setEventListeners]. repeat apply conj.
  - intros Hin. apply list_elem_of_filter in Hin as [Hne _]. congruence.
  - intros l' Hne. induction (eventListeners s) as [|x xs IH]; [reflexivity|].
    rewrite !filter_cons. destruct (decide (x <> l)) as [Hx|Hx].
    + rewrite filter_cons. destruct (decide (x = l')); [f_equal|]; exact IH.
    + apply dec_stable in Hx. subst x. destruct (decide (l = l')); [congruence|exact IH].
  - apply sublist_filter.
Qed.

Lemma fold_notify_listeners ev f ls s :
  fold_left (Proxied.notify ev) ls (setEventListeners f s)
    = setEventListeners f (fold_left (Proxied.notify ev) ls s).
Proof.
  revert s. induction ls as [|l ls IH]; intros s; cbn; [reflexivity|].
  rewrite <- IH. f_equal. unfold Proxied.notify. destruct (listener_call l ev); reflexivity.
Qed.

Lemma forEach_listener_listeners ev f ls s :
  (Direct.forEach_listener ls ev (setEventListeners f s)).1
    = setEventListeners f (Direct.forEach_listener ls ev s).1.
Proof.
  revert s. induction ls as [|l ls IH]; intros s; cbn; [reflexivity|].
  destruct (listener_call l ev); cbn; [reflexivity|]. rewrite <- IH. reflexivity.
Qed.

Lemma channel_receive_listeners v dc data f s :
  channel_receive (revision v) dc data (setEventListeners f s)
    = setEventListeners f (channel_receive (revision v) dc data s).
Proof.
  unfold channel_receive. cbn [dcs setEventListeners].
  destruct (dcs s !! dc) as [d|]; [|reflexivity].
  destruct (readyState d); try reflexivity.
  destruct (dc_onmessage d) as [ls|]; [|reflexivity].
  destruct v; cbn [rev_channel_message revision proxied direct].
  - unfold Proxied.onmessage. destruct (JSON_parse data) as [e|ev]; [reflexivity|].
    rewrite <- fold_notify_listeners. reflexivity.
  - unfold Direct.onmessage. destruct (JSON_parse data) as [e|ev]; [reflexivity|].
    apply forEach_listener_listeners.
Qed.

(** X3. The message handler of a channel calls the listeners that
    [connect] captured when it installed the handler.  Subscribing or
    unsubscribing afterwards changes nothing about who is called for a
    message on that channel, in either revision: a listener added
    later is not called, a listener removed later still is. *)
Theorem channel_ignores_later_subscriptions v dc data l s :
  delivered (channel_receive (revision v) dc data (addEventListener l s))
    = delivered (channel_receive (revision v) dc data s) /\
  delivered (channel_receive (revision v) dc data (removeEventListener l s))
    = delivered (channel_receive (revision v) dc data s).
Proof.
  unfold addEventListener, removeEventListener.
  rewrite !channel_receive_listeners. split; reflexivity.
Qed.

Lemma proxied_notify_console event listeners s :
  console (fold_left (Proxied.notify event) listeners s)
    = console s ++ map (fun e => mkLog lvl_error "Error in event listener:" (arg_exn e))
                       (throwing listeners event).
Proof.
  revert s. induction listeners as [|l listeners IH]; intros s; cbn [fold_left].
  - cbn. rewrite app_nil_r. reflexivity.
  - rewrite IH. unfold Proxied.notify, throwing. cbn [omap list_omap].
    destruct (listener_call l event); cbn; [rewrite <- app_assoc|]; reflexivity.
Qed.

(** X4. [Proxied]'s message handler, for every payload and every list
    of listeners.  A payload that parses is logged and handed to every
    listener, in order, and each exception a listener throws is logged
    as one error, in order.  A payload that does not parse is handed to
    nobody and logged as one error. *)
Theorem proxied_delivery_survives_listener_errors listeners data s :
  match JSON_parse data with
  | inr event =>
      delivered (Proxied.onmessage listeners data s)
        = delivered s ++ map (fun l => (l, event)) listeners /\
      console (Proxied.onmessage listeners data s)
        = console s ++ mkLog lvl_log "Received event:" (arg_text (ev_type event))
            :: map (fun e => mkLog lvl_error "Error in event listener:" (arg_exn e))
                   (throwing listeners event)
  | inl err =>
      delivered (Proxied.onmessage listeners data s) = delivered s /\
      console (Proxied.onmessage listeners data s)
        = console s ++ [mkLog lvl_error "Error parsing event data:" (arg_exn err)]
  end.
Proof.
  unfold Proxied.onmessage. destruct (JSON_parse data) as [err|event].
  - split; reflexivity.
  - split.
    + rewrite proxied_notify_all. reflexivity.
    + rewrite proxied_notify_console. cbn [console console_log set_console].
      rewrite <- app_assoc. reflexivity.
Qed.

Lemma forEach_listener_called ls ev s :
  delivered (Direct.forEach_listener ls ev s).1
    = delivered s ++ map (fun l => (l, ev)) (called_until_throw ls ev) /\
  (Direct.forEach_listener ls ev s).2 = head (throwing ls ev) /\
  console (Direct.forEach_listener ls ev s).1 = console s.
Proof.
  revert s. induction ls as [|l ls IH]; intros s; cbn [Direct.forEach_listener called_until_throw].
  - cbn. rewrite app_nil_r. auto.
  - unfold throwing. cbn [omap list_omap]. destruct (listener_call l ev) as [err|] eqn:E.
    + cbn. auto.
    + destruct (IH (set_delivered (delivered s ++ [(l, ev)]) s)) as (H1 & H2 & H3).
      rewrite H1, H2, H3. cbn [delivered set_delivered console map]. rewrite <- app_assoc.
      auto.
Qed.

(** X5. [Direct]'s message handler, for every list of listeners: a
    payload that parses is handed to the listeners in order up to and
    including the first one that throws, and to none after it; that
    first exception leaves the handler, and nothing is logged. *)
Theorem direct_delivery_stops_at_first_throw listeners data event s :
  JSON_parse data = inr event ->
  delivered (Direct.onmessage listeners data s).1
    = delivered s ++ map (fun l => (l, event)) (called_until_throw listeners event) /\
  (Direct.onmessage listeners data s).2 = head (throwing listeners event) /\
  console (Direct.onmessage listeners data s).1 = console s.
Proof.
  intros Hp. unfold Direct.onmessage. rewrite Hp. apply forEach_listener_called.
Qed.

End Subscriptions.

(** ** How [connect] ends *)

Section EndsFacts.

Lemma ends_anyhow {A} (r : Res A) : ends anyhow anyhow r.
Proof. induction r as [s a|s e|s rq k IH]; cbn; auto; exact I. Qed.

Lemma ends_weaken {A} (QR QR' : State -> A -> Prop) (QT QT' : State -> Exn -> Prop) r :
  (forall s a, QR s a -> QR' s a) -> (forall s e, QT s e -> QT' s e) ->
  ends QR QT r -> ends QR' QT' r.
Proof.
  intros HR HT. induction r as [s a|s e|s rq k IH]; cbn; auto.
Qed.

Lemma res_bind_ends {A B} (QR : State -> B -> Prop) QT (r : Res A) (f : A -> Prog B) :
  ends (fun s a => ends QR QT (f a s)) QT r -> ends QR QT (res_bind r f).
Proof. induction r as [s a|s e|s rq k IH]; cbn; auto. Qed.

Lemma res_catch_ends {A} (QR : State -> A -> Prop) QT (r : Res A) (h : Exn -> Prog A) :
  ends QR (fun s e => ends QR QT (h e s)) r -> ends QR QT (res_catch r h).
Proof. induction r as [s a|s e|s rq k IH]; cbn; auto. Qed.

Lemma bind_ends {A B} (QR : State -> B -> Prop) QT (p : Prog A) (f : A -> Prog B) :
  prog_ends anyhow QT p -> (forall a, prog_ends QR QT (f a)) -> prog_ends QR QT (bind p f).
Proof.
  intros Hp Hf s. apply res_bind_ends. eapply ends_weaken; [| |apply Hp]; cbn; auto.
  intros s' a _. apply Hf.
Qed.

Lemma try_catch_ends {A} (QR : State -> A -> Prop) QT (p : Prog A) (h : Exn -> Prog A) :
  prog_ends QR anyhow p -> (forall e, prog_ends QR QT (h e)) -> prog_ends QR QT (try_catch p h).
Proof.
  intros Hp Hh s. apply res_catch_ends. eapply ends_weaken; [| |apply Hp]; cbn; auto.
  intros s' e _. apply Hh.
Qed.

Lemma prog_ends_anyhow {A} (p : Prog A) : prog_ends anyhow anyhow p.
Proof. intros s. apply ends_anyhow. Qed.

End EndsFacts.

(** Takes a program apart along its statements; what is left are its
    last statements. *)
Ltac split_ends :=
  repeat match goal with
    | |- prog_ends _ _ (bind _ _) => apply bind_ends; [|intros ?]
    | |- prog_ends _ _ (try_catch _ _) => apply try_catch_ends; [|intros ?]
    | |- prog_ends anyhow anyhow _ => apply prog_ends_anyhow
    | |- prog_ends _ _ (if ?b then _ else _) => destruct b
    | |- prog_ends _ _ (match ?x with _ => _ end) => destruct x
    end.

Section RejectionFacts.

Lemma res_bind_on_rejection {A B} (Q : Exn -> State -> Res B -> Prop) (r : Res A)
      (f : A -> Prog B) :
  on_rejection (fun e s' r' => Q e s' (res_bind r' f)) r ->
  (forall a s, on_rejection Q (f a s)) ->
  on_rejection Q (res_bind r f).
Proof.
  intros Hr Hf. induction r as [s a|s e|s rq k IH]; cbn in *; auto.
  destruct Hr as [H1 H2]. split; auto.
Qed.

Lemma res_catch_on_rejection {A} (Q : Exn -> State -> Res A -> Prop) (r : Res A)
      (h : Exn -> Prog A) :
  on_rejection (fun e s' r' => Q e s' (res_catch r' h)) r ->
  (forall e s, on_rejection Q (h e s)) ->
  on_rejection Q (res_catch r h).
Proof.
  intros Hr Hh. induction r as [s a|s e|s rq k IH]; cbn in *; auto.
  destruct Hr as [H1 H2]. split; auto.
Qed.

Lemma bind_on_rejection {A B} (Q : Exn -> State -> Res B -> Prop) (p : Prog A)
      (f : A -> Prog B) :
  prog_on_rejection (fun e s' r' => Q e s' (res_bind r' f)) p ->
  (forall a, prog_on_rejection Q (f a)) ->
  prog_on_rejection Q (bind p f).
Proof. intros Hp Hf s. apply res_bind_on_rejection; [apply Hp|intros a s'; apply Hf]. Qed.

Lemma try_catch_on_rejection {A} (Q : Exn -> State -> Res A -> Prop) (p : Prog A)
      (h : Exn -> Prog A) :
  prog_on_rejection (fun e s' r' => Q e s' (res_catch r' h)) p ->
  (forall e, prog_on_rejection Q (h e)) ->
  prog_on_rejection Q (try_catch p h).
Proof. intros Hp Hh s. apply res_catch_on_rejection; [apply Hp|intros e s'; apply Hh]. Qed.

Lemma await_on_rejection rq (Q : Exn -> State -> Res (Answer rq) -> Prop) :
  (forall e s', Q e s' (Throw s' e)) -> prog_on_rejection Q (await rq).
Proof. intros H s. split; [exact H|]. intros [a|e] s'; exact I. Qed.

Lemma act_on_rejection (Q : Exn -> State -> Res unit -> Prop) f : prog_on_rejection Q (act f).
Proof. intros s. exact I. Qed.

Lemma read_on_rejection {A} (Q : Exn -> State -> Res A -> Prop) (f : State -> A) :
  prog_on_rejection Q (read f).
Proof. intros s. exact I. Qed.

Lemma ret_on_rejection {A} (Q : Exn -> State -> Res A -> Prop) (a : A) :
  prog_on_rejection Q (ret a).
Proof. intros s. exact I. Qed.

Lemma throw_on_rejection {A} (Q : Exn -> State -> Res A -> Prop) e :
  prog_on_rejection Q (throw e).
Proof. intros s. exact I. Qed.

Lemma pc_addTrack_on_rejection (Q : Exn -> State -> Res unit -> Prop) pc m i :
  prog_on_rejection Q (pc_addTrack pc m i).
Proof. intros s. unfold pc_addTrack. destruct (is_closed pc s); exact I. Qed.

Lemma pc_createDataChannel_on_rejection (Q : Exn -> State -> Res nat -> Prop) pc :
  prog_on_rejection Q (pc_createDataChannel pc).
Proof. intros s. unfold pc_createDataChannel. destruct (is_closed pc s); exact I. Qed.

Lemma addTracks_on_rejection (Q : Exn -> State -> Res unit -> Prop) pc m tracks i :
  prog_on_rejection Q (Direct.addTracks pc m i tracks).
Proof.
  revert i. induction tracks as [|t tracks IH]; intros i; cbn.
  - apply ret_on_rejection.
  - apply bind_on_rejection; [apply pc_addTrack_on_rejection|intros _; apply IH].
Qed.

End RejectionFacts.

(** Takes a program apart along its statements; what is left is, for
    each [await], the call resumed with a rejection. *)
Ltac split_rejection :=
  repeat match goal with
    | |- prog_on_rejection _ (bind _ _) => apply bind_on_rejection; [|intros ?]
    | |- prog_on_rejection _ (try_catch _ _) => apply try_catch_on_rejection; [|intros ?]
    | |- prog_on_rejection _ (act _) => apply act_on_rejection
    | |- prog_on_rejection _ (read _) => apply read_on_rejection
    | |- prog_on_rejection _ (ret _) => apply ret_on_rejection
    | |- prog_on_rejection _ (throw _) => apply throw_on_rejection
    | |- prog_on_rejection _ (pc_addTrack _ _ _) => apply pc_addTrack_on_rejection
    | |- prog_on_rejection _ (pc_createDataChannel _) => apply pc_createDataChannel_on_rejection
    | |- prog_on_rejection _ (Direct.addTracks _ _ _ _) => apply addTracks_on_rejection
    | |- prog_on_rejection _ new_RTCPeerConnection => intros ?; exact I
    | |- prog_on_rejection _ createElement_audio => intros ?; exact I
    | |- prog_on_rejection _ (new_MediaStream _) => intros ?; exact I
    | |- prog_on_rejection _ (set_timeout _ _) => intros ?; exact I
    | |- prog_on_rejection _ (await _) => apply await_on_rejection; intros ? ?
    | |- prog_on_rejection _ (if ?b then _ else _) => destruct b
    | |- prog_on_rejection _ (match ?x with _ => _ end) => destruct x
    end.

Section RequestsFacts.
Variable P : Request -> Prop.

Lemma res_bind_requests {A B} (r : Res A) (f : A -> Prog B) :
  requests P r -> (forall a s, requests P (f a s)) -> requests P (res_bind r f).
Proof.
  intros Hr Hf. induction r as [s a|s e|s rq k IH]; cbn in *; auto.
  destruct Hr as [H1 H2]. split; auto.
Qed.

Lemma res_catch_requests {A} (r : Res A) (h : Exn -> Prog A) :
  requests P r -> (forall e s, requests P (h e s)) -> requests P (res_catch r h).
Proof.
  intros Hr Hf. induction r as [s a|s e|s rq k IH]; cbn in *; auto.
  destruct Hr as [H1 H2]. split; auto.
Qed.

Lemma bind_requests {A B} (p : Prog A) (f : A -> Prog B) :
  prog_requests P p -> (forall a, prog_requests P (f a)) -> prog_requests P (bind p f).
Proof. intros Hp Hf s. apply res_bind_requests; [apply Hp|intros a s'; apply Hf]. Qed.

Lemma try_catch_requests {A} (p : Prog A) (h : Exn -> Prog A) :
  prog_requests P p -> (forall e, prog_requests P (h e)) -> prog_requests P (try_catch p h).
Proof. intros Hp Hf s. apply res_catch_requests; [apply Hp|intros a s'; apply Hf]. Qed.

Lemma await_requests rq : P rq -> prog_requests P (await rq).
Proof. intros H s. split; [exact H|]. intros [a|e] s'; exact I. Qed.

Lemma throw_then_requests {A B} e (f : A -> Prog B) : prog_requests P (bind (throw e) f).
Proof. intros s. exact I. Qed.

Lemma ret_then_requests {A B} (a : A) (f : A -> Prog B) :
  prog_requests P (f a) -> prog_requests P (bind (ret a) f).
Proof. intros H s. apply H. Qed.

Lemma pc_addTrack_requests pc m i : prog_requests P (pc_addTrack pc m i).
Proof. intros s. unfold pc_addTrack. destruct (is_closed pc s); exact I. Qed.

Lemma pc_createDataChannel_requests pc : prog_requests P (pc_createDataChannel pc).
Proof. intros s. unfold pc_createDataChannel. destruct (is_closed pc s); exact I. Qed.

End RequestsFacts.

(** Takes a program apart along its statements, keeping what a test
    that guards the rest of the program has established. *)
Ltac split_requests :=
  repeat match goal with
    | |- prog_requests _ (bind (if ?b then _ else _) _) => destruct b eqn:?
    | |- prog_requests _ (bind (throw _) _) => apply throw_then_requests
    | |- prog_requests _ (bind (ret _) _) => apply ret_then_requests
    | |- prog_requests _ (bind _ _) => apply bind_requests; [|intros ?]
    | |- prog_requests _ (try_catch _ _) => apply try_catch_requests; [|intros ?]
    | |- prog_requests _ (pc_addTrack _ _ _) => apply pc_addTrack_requests
    | |- prog_requests _ (pc_createDataChannel _) => apply pc_createDataChannel_requests
    | |- prog_requests _ (await _) => apply await_requests
    | |- prog_requests _ (if ?b then _ else _) => destruct b
    | |- prog_requests _ (match ?x with _ => _ end) => destruct x
    end.

Section ConnectEnds.
Context {platform : Platform}.

(** X6. The promise [connect] returns is never rejected, in either
    revision: whatever its requests settle to and whatever happens to
    the store while it is suspended, every path through the function
    ends by returning, because its outermost [catch] handles every
    exception without throwing.  The [catch] around [await connect()]
    in the reconnect timer and in the component therefore never runs.
    (This is about the statements of the hook: the debug panel that
    [Direct] creates before its [try] is outside the model.) *)
Theorem connect_never_rejects v cl s :
  ends anyhow never (rev_connect (revision v) cl s).
Proof.
  revert s. change (prog_ends anyhow never (rev_connect (revision v) cl)).
  destruct v; cbn [rev_connect revision proxied direct];
    unfold Proxied.connect, Direct.connect;
    (apply try_catch_ends; [apply prog_ends_anyhow|intros e]);
    split_ends; intros s; exact I.
Qed.

(** X7. Whenever [Proxied.connect] has run to its end, the attempt
    counter is 0, whether the handshake succeeded (its last statement
    resets the counter) or failed (its [catch] ends with [disconnect]):
    in [Proxied] a failed reconnection attempt gives the whole retry
    budget back. *)
Theorem proxied_connect_ends_with_full_budget cl s :
  ends (fun s' _ => connectionAttempts s' = 0) never (Proxied.connect cl s).
Proof.
  revert s.
  change (prog_ends (fun s' (_ : unit) => connectionAttempts s' = 0) never (Proxied.connect cl)).
  unfold Proxied.connect. apply try_catch_ends.
  - split_ends; try (intros s; exact I). intros s; reflexivity.
  - intros e. split_ends; try (intros s; exact I).
    intros s. open_store s; reflexivity.
Qed.

Lemma proxied_disconnect_torn_down s : torn_down (Proxied.disconnect s).
Proof. unfold torn_down. open_store s; run_store; repeat apply conj; reflexivity. Qed.

(** X8. At every [await] of [Proxied.connect], a rejection of the
    pending request (microphone access denied, the offer refused, the
    network down, ...) ends the call at once, without another request,
    in the store [disconnect] leaves: status [disconnected] with no
    error message, every ref cleared, no timer held, the counter at 0.
    The [error] status that the [catch] may set first is overwritten by
    [disconnect] within the same callback. *)
Theorem proxied_rejection_ends_disconnected cl s :
  on_rejection (fun _ _ r => exists s1, r = Ret s1 tt /\ torn_down s1) (Proxied.connect cl s).
Proof.
  revert s.
  change (prog_on_rejection (fun _ _ r => exists s1, r = Ret s1 tt /\ torn_down s1)
            (Proxied.connect cl)).
  unfold Proxied.connect. split_rejection.
  all: repeat first
         [ progress cbn [res_bind res_catch bind act read ret throw try_catch]
         | match goal with |- context [if ?b then _ else _] => destruct b end ].
  all: eexists; split; [reflexivity|apply proxied_disconnect_torn_down].
Qed.

(** X9. At every [await] of [Direct.connect], a rejection [e] of the
    pending request ends the call at once: the status is set to [error]
    with the message of [e], and then [attemptReconnect] runs on a
    store whose counter is the one the call resumed on.  Every failure
    is retried this way, a denied microphone included. *)
Theorem direct_rejection_retries cl s :
  on_rejection (fun e s' r => exists s1,
      r = Ret (Direct.attemptReconnect s1) tt /\
      connectionState s1 = mkConnectionState error (Some (message_of e "Unknown error")) /\
      connectionAttempts s1 = connectionAttempts s')
    (Direct.connect cl s).
Proof.
  revert s.
  match goal with |- forall s, on_rejection ?Q _ =>
    change (prog_on_rejection Q (Direct.connect cl)) end.
  unfold Direct.connect. split_rejection.
  all: cbn [res_bind res_catch bind act read ret throw try_catch].
  all: eexists; split; [reflexivity|split; reflexivity].
Qed.

(** X10. Every [fetch] of [Proxied.connect] goes to [/api/session] and
    carries a non-empty body: an offer without a description makes the
    call throw before anything is sent, so the endpoint never sees an
    empty request from this hook. *)
Theorem proxied_connect_posts_nonempty_offer cl s :
  requests proxied_request_ok (Proxied.connect cl s).
Proof.
  revert s. change (prog_requests proxied_request_ok (Proxied.connect cl)).
  unfold Proxied.connect. split_requests; try (intros s; exact I); try exact I.
  split; [reflexivity|assumption].
Qed.

End ConnectEnds.

(** ** The signaling timeout *)

Section AtFetchFacts.

Lemma res_bind_at_fetch {A B} (Q : State -> (Settled HttpResponse -> State -> Res B) -> Prop)
      (r : Res A) (f : A -> Prog B) :
  at_fetch (fun s k => Q s (fun x s' => res_bind (k x s') f)) r ->
  (forall a s, at_fetch Q (f a s)) ->
  at_fetch Q (res_bind r f).
Proof.
  intros Hr Hf. induction r as [s a|s e|s rq k IH]; cbn [res_bind at_fetch] in *; auto.
  destruct Hr as [H1 H2]. split; [|auto].
  destruct rq; auto.
Qed.

Lemma res_catch_at_fetch {A} (Q : State -> (Settled HttpResponse -> State -> Res A) -> Prop)
      (r : Res A) (h : Exn -> Prog A) :
  at_fetch (fun s k => Q s (fun x s' => res_catch (k x s') h)) r ->
  (forall e s, at_fetch Q (h e s)) ->
  at_fetch Q (res_catch r h).
Proof.
  intros Hr Hf. induction r as [s a|s e|s rq k IH]; cbn [res_catch at_fetch] in *; auto.
  destruct Hr as [H1 H2]. split; [|auto].
  destruct rq; auto.
Qed.

Lemma bind_at_fetch {A B} (Q : State -> (Settled HttpResponse -> State -> Res B) -> Prop)
      (p : Prog A) (f : A -> Prog B) :
  prog_at_fetch (fun s k => Q s (fun x s' => res_bind (k x s') f)) p ->
  (forall a, prog_at_fetch Q (f a)) ->
  prog_at_fetch Q (bind p f).
Proof. intros Hp Hf s. apply res_bind_at_fetch; [apply Hp|intros a s'; apply Hf]. Qed.

Lemma try_catch_at_fetch {A} (Q : State -> (Settled HttpResponse -> State -> Res A) -> Prop)
      (p : Prog A) (h : Exn -> Prog A) :
  prog_at_fetch (fun s k => Q s (fun x s' => res_catch (k x s') h)) p ->
  (forall e, prog_at_fetch Q (h e)) ->
  prog_at_fetch Q (try_catch p h).
Proof. intros Hp Hf s. apply res_catch_at_fetch; [apply Hp|intros a s'; apply Hf]. Qed.

Lemma await_at_fetch rq (Q : State -> (Settled HttpResponse -> State -> Res (Answer rq)) -> Prop) :
  (forall url body, rq <> rq_fetch url body) -> prog_at_fetch Q (await rq).
Proof.
  intros Hrq s. cbn [await at_fetch]. split.
  - destruct rq; try exact I. destruct (Hrq url body eq_refl).
  - intros [a|e] s'; exact I.
Qed.

End AtFetchFacts.

(** Takes a program apart along its statements, up to the statement
    that arms a timer. *)
Ltac split_at_fetch :=
  repeat match goal with
    | |- prog_at_fetch _ (bind (set_timeout _ _) _) => fail 1
    | |- prog_at_fetch _ (bind _ _) => apply bind_at_fetch; [|intros ?]
    | |- prog_at_fetch _ (try_catch _ _) => apply try_catch_at_fetch; [|intros ?]
    | |- prog_at_fetch _ (await _) => apply await_at_fetch; discriminate
    | |- prog_at_fetch _ (pc_addTrack _ _ _) =>
        intros ?; unfold pc_addTrack; destruct (is_closed _ _); exact I
    | |- prog_at_fetch _ (pc_createDataChannel _) =>
        intros ?; unfold pc_createDataChannel; destruct (is_closed _ _); exact I
    | |- prog_at_fetch _ (if ?b then _ else _) => destruct b
    | |- prog_at_fetch _ (match ?x with _ => _ end) => destruct x
    end.

Section Abort.
Context {platform : Platform}.

Lemma proxied_disconnect_lookup s id :
  timers s !! id = None -> timers (Proxied.disconnect s) !! id = None.
Proof.
  intros H. destruct (disconnect_timers the_proxied s) as (Ht & _).
  cbn [rev_disconnect revision proxied] in Ht. rewrite Ht.
  unfold without. destruct (reconnectTimeoutRef s) as [r|]; [|exact H].
  destruct (decide (r = id)) as [->|Hne]; [apply lookup_delete_eq|].
  rewrite lookup_delete_ne by exact Hne. exact H.
Qed.

(** X11. The signaling timeout of [Proxied.connect] never outlives
    its request: wherever the call is suspended at a [fetch], the 30 s
    abort timer it has just armed is pending, and as soon as the call
    has been resumed, with the response or with a rejection, that timer
    is pending no more. *)
Theorem proxied_abort_timer_spans_fetch cl s :
  at_fetch abort_timer_spans_fetch (Proxied.connect cl s).
Proof.
  revert s. change (prog_at_fetch abort_timer_spans_fetch (Proxied.connect cl)).
  unfold Proxied.connect. split_at_fetch; try (intros s; exact I).
  intros s. unfold bind at 1. unfold set_timeout. cbn [setTimeout res_bind].
  unfold try_catch at 1. unfold bind at 1. cbn [await res_bind res_catch at_fetch].
  split.
  - exists (next_timer s). split.
    + cbn [timers set_timers]. apply lookup_insert_eq.
    + intros [resp|e] s'.
      * cbn [res_bind res_catch bind act].
        destruct (resp_ok resp); cbn [negb res_bind res_catch bind act await ret res_state];
          cbn [timers clearTimeout set_timers]; apply lookup_delete_eq.
      * cbn [res_bind res_catch bind act throw].
        destruct (exn_is_Error e && String.eqb (exn_name e) "AbortError");
          cbn [res_bind res_catch bind act throw read ret];
          match goal with |- context [if ?b then _ else _] => destruct b end;
          cbn [res_bind res_catch bind act throw read ret res_state];
          apply proxied_disconnect_lookup; cbn [timers clearTimeout set_timers console_error set_console setConnectionState];
          apply lookup_delete_eq.
  - intros x s'.
    match goal with |- at_fetch ?Q _ => set (Q0 := Q) end.
    destruct x as [resp|e].
    + cbn [res_bind].
      match goal with |- at_fetch _ (res_catch (?f ?a ?s0) ?h) =>
        assert (Hp : prog_at_fetch Q0 (try_catch (f a) h)); [|exact (Hp s0)] end.
      split_at_fetch; intros s0; exact I.
    + cbn [res_bind res_catch bind act throw].
      destruct (exn_is_Error e && String.eqb (exn_name e) "AbortError"); exact I.
Qed.

End Abort.

(** ** Invariants of every run *)

Section Keeps.
Context {platform : Platform}.
Variable I : State -> Prop.
Variable R : Revision.

Lemma spawn_keeps (p : Prog unit) w :
  prog_preserves I p -> world_ok I w -> world_ok I (spawn p w).
Proof.
  intros Hp [Hs Ht]. unfold spawn. split; cbn.
  - apply preserves_state, Hp, Hs.
  - apply Forall_app. split; [exact Ht|]. constructor; [|constructor]. apply Hp, Hs.
Qed.

Lemma on_store_keeps (f : State -> State) w :
  (forall s, I s -> I (f s)) -> world_ok I w -> world_ok I (on_store f w).
Proof. intros Hf [Hs Ht]. split; cbn; auto. Qed.

Lemma settle_keeps i oracle w : world_ok I w -> world_ok I (settle i oracle w).
Proof.
  intros [Hs Ht]. unfold settle.
  destruct (tasks w !! i) as [r|] eqn:Hi; [|split; assumption].
  destruct r as [s a|s e|s rq k]; try (split; assumption).
  pose proof (Forall_lookup_1 _ _ _ _ Ht Hi) as [_ Hk]. cbn in Hk.
  split; cbn.
  - apply preserves_state, Hk, Hs.
  - apply Forall_insert; [exact Ht|]. apply Hk, Hs.
Qed.

(** A property that every callback of the revision keeps, and that no
    browser-side change of a connection or channel disturbs, holds in
    every world a run reaches. *)
Lemma run_keeps :
  (forall cl, prog_preserves I (rev_connect R cl)) ->
  prog_preserves I (rev_reconnect R) ->
  (forall s, I s -> I (rev_disconnect R s)) ->
  (forall e s, I s -> I (sendEvent e s).1) ->
  (forall f s, I s -> I (setEventListeners f s)) ->
  (forall pc st s, I s -> I (ice_change R pc st s)) ->
  (forall pc st s, I s -> I (connection_change R pc st s)) ->
  (forall dc s, I s -> I (channel_open R dc s)) ->
  (forall dc data s, I s -> I (channel_receive R dc data s)) ->
  (forall dc s, I s -> I (channel_close R dc s)) ->
  (forall id s, I s -> I (clearTimeout id s)) ->
  (forall pc s, I s -> I (rev_grace R pc s)) ->
  forall acts w, world_ok I w -> world_ok I (run R acts w).
Proof.
  intros Hconnect Hreconnect Hdisconnect Hsend Hlisteners Hice Hconn Hopen Hrecv Hclose
         Hclear Hgrace acts.
  induction acts as [|a acts IH]; intros w Hw; cbn; [exact Hw|].
  apply IH. destruct a; cbn [exec].
  - apply spawn_keeps; auto.
  - apply on_store_keeps; auto.
  - apply on_store_keeps; auto.
  - apply on_store_keeps; [|exact Hw]. intros s. apply Hlisteners.
  - apply on_store_keeps; [|exact Hw]. intros s. apply Hlisteners.
  - apply on_store_keeps; auto.
  - apply on_store_keeps; auto.
  - apply on_store_keeps; auto.
  - apply on_store_keeps; auto.
  - apply on_store_keeps; auto.
  - unfold fire. destruct (timers (store w) !! id) as [t|]; [|exact Hw].
    assert (Hc : world_ok I (on_store (clearTimeout id) w))
      by (apply on_store_keeps; auto).
    destruct (timer_callback t).
    + apply on_store_keeps; auto.
    + apply spawn_keeps; auto.
    + exact Hc.
  - apply settle_keeps, Hw.
Qed.

Lemma run_to_end_keeps {A} oracle (r : Res A) :
  preserves I r -> I (run_to_end oracle r).1.
Proof.
  induction r as [s a|s e|s rq k IH]; cbn; auto.
  intros [Hs Hk]. apply IH, Hk, Hs.
Qed.

End Keeps.

Section Budget.
Context {platform : Platform}.

Lemma bounded_frame s s' :
  connectionAttempts s' = connectionAttempts s -> attempts_bounded s -> attempts_bounded s'.
Proof. unfold attempts_bounded. intros ->. auto. Qed.

Lemma bounded_zero s : connectionAttempts s = 0 -> attempts_bounded s.
Proof. unfold attempts_bounded, maxReconnectAttempts. lia. Qed.

Lemma attemptReconnect_bounded v s :
  attempts_bounded s -> attempts_bounded (rev_attemptReconnect (revision v) s).
Proof.
  intros Hs. destruct (Z.lt_ge_cases (connectionAttempts s) maxReconnectAttempts) as [Hlt|Hge].
  - destruct (attemptReconnect_retry v s Hlt) as (_ & _ & _ & Ha & _).
    unfold attempts_bounded in *. lia.
  - rewrite attemptReconnect_exhausted by assumption. exact Hs.
Qed.

Lemma disconnect_bounded v s : attempts_bounded (rev_disconnect (revision v) s).
Proof.
  apply bounded_zero.
  destruct v; cbn [rev_disconnect revision proxied direct]; open_store s; reflexivity.
Qed.

Lemma sendEvent_bounded e s : attempts_bounded s -> attempts_bounded (sendEvent e s).1.
Proof.
  apply bounded_frame. unfold sendEvent.
  destruct (dcRef s) as [i|];
    [destruct (dcs s !! i) as [d|];
       [destruct (readyState d); [|destruct (JSON_stringify e)| |]|]|];
    reflexivity.
Qed.

Lemma ice_handler_bounded v pc s :
  attempts_bounded s -> attempts_bounded (rev_ice (revision v) pc s).
Proof.
  intros Hs. destruct (pcs s !! pc) as [p|] eqn:Hp.
  2:{ destruct v; cbn;
        unfold Proxied.oniceconnectionstatechange, Direct.oniceconnectionstatechange;
        rewrite Hp; exact Hs. }
  destruct (iceConnectionState p) eqn:Hst.
  all: try (destruct v; cbn;
         unfold Proxied.oniceconnectionstatechange, Direct.oniceconnectionstatechange;
         rewrite Hp, Hst; first [exact Hs | apply bounded_zero; reflexivity
                                | revert Hs; apply bounded_frame; reflexivity]).
  - destruct (ice_handler_disconnected v pc p s Hp Hst) as (_ & _ & _ & Ha & _).
    revert Hs. apply bounded_frame. exact Ha.
  - destruct v; cbn;
      unfold Proxied.oniceconnectionstatechange, Direct.oniceconnectionstatechange;
      rewrite Hp, Hst.
    + apply (attemptReconnect_bounded the_proxied). revert Hs. apply bounded_frame. reflexivity.
    + apply (attemptReconnect_bounded the_direct). revert Hs. apply bounded_frame. reflexivity.
Qed.

Lemma grace_bounded v pc s :
  attempts_bounded s -> attempts_bounded (rev_grace (revision v) pc s).
Proof.
  intros Hs.
  destruct v; cbn; unfold Proxied.grace_callback, Direct.grace_callback;
    destruct (pcs s !! pc) as [p|]; try exact Hs;
    destruct (iceConnectionState p); try exact Hs.
  - apply (attemptReconnect_bounded the_proxied). revert Hs. apply bounded_frame. reflexivity.
  - apply (attemptReconnect_bounded the_proxied). revert Hs. apply bounded_frame. reflexivity.
  - apply (attemptReconnect_bounded the_direct), Hs.
  - apply (attemptReconnect_bounded the_direct), Hs.
Qed.

Lemma fold_notify_attempts ev ls s :
  connectionAttempts (fold_left (Proxied.notify ev) ls s) = connectionAttempts s.
Proof.
  revert s. induction ls as [|l ls IH]; intros s; cbn; [reflexivity|].
  rewrite IH. unfold Proxied.notify. destruct (listener_call l ev); reflexivity.
Qed.

Lemma forEach_listener_attempts ls ev s :
  connectionAttempts (Direct.forEach_listener ls ev s).1 = connectionAttempts s.
Proof.
  revert s. induction ls as [|l ls IH]; intros s; cbn; [reflexivity|].
  destruct (listener_call l ev); cbn; [reflexivity|]. rewrite IH. reflexivity.
Qed.

Lemma channel_message_bounded v ls data s :
  attempts_bounded s -> attempts_bounded (rev_channel_message (revision v) ls data s).
Proof.
  apply bounded_frame. destruct v; cbn.
  - unfold Proxied.onmessage. destruct (JSON_parse data) as [e|ev]; [reflexivity|].
    rewrite fold_notify_attempts. reflexivity.
  - unfold Direct.onmessage. destruct (JSON_parse data) as [e|ev]; [reflexivity|].
    apply forEach_listener_attempts.
Qed.

Lemma addTracks_bounded pc m tracks i :
  prog_preserves attempts_bounded (Direct.addTracks pc m i tracks).
Proof.
  revert i. induction tracks as [|t tracks IH]; intros i; cbn.
  - apply ret_preserves.
  - apply bind_preserves; [|intros _; apply IH].
    intros s Hs. unfold pc_addTrack. destruct (is_closed pc s); cbn; [exact Hs|].
    revert Hs. apply bounded_frame. reflexivity.
Qed.

Lemma connect_bounded v cl : prog_preserves attempts_bounded (rev_connect (revision v) cl).
Proof.
  destruct v; cbn [rev_connect revision proxied direct];
    unfold Proxied.connect, Direct.connect; split_prog;
    lazymatch goal with
    | |- prog_preserves _ (pc_addTrack _ _ _) =>
        intros s Hs; unfold pc_addTrack; destruct (is_closed _ s); cbn;
        [exact Hs|revert Hs; apply bounded_frame; reflexivity]
    | |- prog_preserves _ (pc_createDataChannel _) =>
        intros s Hs; unfold pc_createDataChannel; destruct (is_closed _ s); cbn;
        [exact Hs|revert Hs; apply bounded_frame; reflexivity]
    | |- prog_preserves _ (Direct.addTracks _ _ _ _) => apply addTracks_bounded
    | |- prog_preserves _ (act (set_connectionAttempts 0)) =>
        apply act_preserves; intros s _; apply bounded_zero; reflexivity
    | |- prog_preserves _ (act Proxied.disconnect) =>
        apply act_preserves; intros s _; apply (disconnect_bounded the_proxied)
    | |- prog_preserves _ (act Direct.attemptReconnect) =>
        apply act_preserves; apply (attemptReconnect_bounded the_direct)
    | |- prog_preserves _ (act _) =>
        apply act_preserves; intros s; apply bounded_frame; reflexivity
    | |- prog_preserves _ _ =>
        intros s Hs; cbn; revert Hs; apply bounded_frame; reflexivity
    end.
Qed.

Lemma reconnect_callback_bounded v : prog_preserves attempts_bounded (rev_reconnect (revision v)).
Proof.
  destruct v; cbn [rev_reconnect revision proxied direct];
    unfold Proxied.reconnect_callback, Direct.reconnect_callback;
    (apply try_catch_preserves;
     [|intros e; apply act_preserves; intros s; apply bounded_frame; reflexivity]).
  - apply (connect_bounded the_proxied).
  - apply (connect_bounded the_direct).
Qed.

Lemma run_bounded v acts w :
  world_ok attempts_bounded w -> world_ok attempts_bounded (run (revision v) acts w).
Proof.
  apply run_keeps.
  - apply connect_bounded.
  - apply reconnect_callback_bounded.
  - intros s _. apply disconnect_bounded.
  - apply sendEvent_bounded.
  - intros f s. apply bounded_frame. reflexivity.
  - intros pc st s Hs. unfold ice_change. destruct (pcs s !! pc) as [p|]; [|exact Hs].
    destruct (pc_closed p); [exact Hs|].
    destruct (pc_on_ice p); [apply ice_handler_bounded|]; revert Hs; apply bounded_frame;
      reflexivity.
  - intros pc st s Hs. unfold connection_change. destruct (pcs s !! pc) as [p|]; [|exact Hs].
    destruct (pc_closed p); [exact Hs|].
    destruct (pc_on_state p); [|revert Hs; apply bounded_frame; reflexivity].
    destruct v; cbn; [|revert Hs; apply bounded_frame; reflexivity].
    unfold Proxied.onconnectionstatechange. cbn [pcs set_pcs].
    match goal with |- context [?l !! pc] => destruct (l !! pc) as [q|] end;
      [|revert Hs; apply bounded_frame; reflexivity].
    destruct (pc_connectionState q); revert Hs; apply bounded_frame; reflexivity.
  - intros dc s Hs. unfold channel_open. destruct (dcs s !! dc) as [d|]; [|exact Hs].
    destruct (readyState d); try exact Hs.
    destruct (dc_onopen d); [destruct v|]; revert Hs; apply bounded_frame; reflexivity.
  - intros dc data s Hs. unfold channel_receive. destruct (dcs s !! dc) as [d|]; [|exact Hs].
    destruct (readyState d), (dc_onmessage d); try exact Hs.
    apply channel_message_bounded, Hs.
  - intros dc s Hs. unfold channel_close. destruct (dcs s !! dc) as [d|]; [|exact Hs].
    destruct (readyState d); try exact Hs;
      (destruct (dc_onopen d); [destruct v|]; revert Hs; apply bounded_frame; reflexivity).
  - intros id s. apply bounded_frame. reflexivity.
  - intros pc s. apply grace_bounded.
Qed.

(** X12. In every world a run of either revision can reach, whatever
    the component calls, the browser reports and the requests settle
    to, the attempt counter lies between 0 and [maxReconnectAttempts]:
    it is never negative and never exceeds the budget. *)
Theorem attempt_counter_stays_within_budget v w :
  reachable (revision v) w ->
  0 <= connectionAttempts (store w) <= maxReconnectAttempts.
Proof.
  intros [acts ->].
  apply (run_bounded v acts initial_world).
  split; [apply bounded_zero; reflexivity|constructor].
Qed.

(** X13. In every world a run of either revision can reach, at most
    one recovery timer (grace or backoff) is pending, and it is the one
    [reconnectTimeoutRef] holds: any two pending recovery timers are
    the same timer. *)
Theorem at_most_one_recovery_timer v w id1 id2 t1 t2 :
  reachable (revision v) w ->
  pending_recovery (store w) !! id1 = Some t1 ->
  pending_recovery (store w) !! id2 = Some t2 ->
  id1 = id2 /\ reconnectTimeoutRef (store w) = Some id1.
Proof.
  intros Hw H1 H2. apply reachable_tracked in Hw.
  unfold pending_recovery in *.
  apply map_lookup_filter_Some in H1 as [H1 R1], H2 as [H2 R2]. cbn in *.
  pose proof (tracked_ref _ Hw _ _ H1 R1) as E1.
  pose proof (tracked_ref _ Hw _ _ H2 R2) as E2.
  split; [congruence|exact E1].
Qed.

(** X14. [n] reconnection triggers in a row, from a store whose counter
    is within the budget: the counter ends at the smaller of its old
    value plus [n] and [maxReconnectAttempts]; the status is untouched
    as long as the budget suffices, and is [error] with the
    exhausted-retries message as soon as it does not. *)
Theorem triggers_saturate v n s :
  0 <= connectionAttempts s <= maxReconnectAttempts ->
  connectionAttempts (triggers (revision v) n s)
    = Z.min (connectionAttempts s + Z.of_nat n) maxReconnectAttempts /\
  (maxReconnectAttempts < connectionAttempts s + Z.of_nat n ->
   connectionState (triggers (revision v) n s)
     = mkConnectionState error (Some exhausted_message)) /\
  (connectionAttempts s + Z.of_nat n <= maxReconnectAttempts ->
   connectionState (triggers (revision v) n s) = connectionState s).
Proof.
  intros Hs. induction n as [|n IH]; cbn [triggers].
  - repeat split; try lia.
  - destruct IH as (Ha & He & Hk).
    destruct (Z.lt_ge_cases (connectionAttempts (triggers (revision v) n s))
                maxReconnectAttempts) as [Hlt|Hge].
    + destruct (attemptReconnect_retry v _ Hlt) as (_ & _ & _ & Ha' & Hc').
      rewrite Ha', Hc', Ha. repeat split; try lia.
      intros Hle. apply Hk. lia.
    + rewrite attemptReconnect_exhausted by assumption.
      cbn [connectionAttempts connectionState setConnectionState console_error set_console].
      repeat split; try lia.
Qed.

(** X15. In [Proxied], an ICE notification leaves the status as it is,
    with one exception: [failed] with the retry budget used up sets
    [error].  In particular ICE reaching [connected] does not make the
    status [connected] (the connection-state handler does that). *)
Theorem proxied_ice_leaves_status pc st s :
  connectionState (ice_change proxied pc st s) = connectionState s \/
  (st = ice_failed /\ maxReconnectAttempts <= connectionAttempts s /\
   connectionState (ice_change proxied pc st s)
     = mkConnectionState error (Some exhausted_message)).
Proof.
  unfold ice_change. destruct (pcs s !! pc) as [p|] eqn:Hp; [|left; reflexivity].
  destruct (pc_closed p); [left; reflexivity|].
  destruct (pc_on_ice p); [|left; reflexivity].
  cbn [rev_ice proxied]. unfold Proxied.oniceconnectionstatechange.
  cbn [pcs set_pcs]. rewrite list_lookup_alter_eq, Hp.
  cbn [fmap option_fmap option_map iceConnectionState].
  destruct st; try (left; reflexivity).
  - left. open_store s; reflexivity.
  - destruct (Z.lt_ge_cases (connectionAttempts s) maxReconnectAttempts) as [Hlt|Hge].
    + left.
      match goal with |- connectionState (Proxied.attemptReconnect ?x) = _ =>
        destruct (attemptReconnect_retry the_proxied x Hlt) as (_ & _ & _ & _ & Hc) end.
      cbn [rev_attemptReconnect revision proxied] in Hc. rewrite Hc. reflexivity.
    + right. repeat apply conj; [reflexivity|exact Hge|].
      match goal with |- connectionState (Proxied.attemptReconnect ?x) = _ =>
        rewrite (attemptReconnect_exhausted the_proxied x Hge) end.
      reflexivity.
Qed.

(** X16. In [Proxied], a connection-state notification only logs and
    sets the status: [connected] on [connected], [disconnected] on
    [failed] and on [closed], unchanged otherwise.  It releases
    nothing and schedules nothing: refs, channels, streams, timers and
    the attempt counter are as before, also when the connection has
    failed for good. *)
Theorem proxied_connection_state_only_sets_status pc st s :
  let s' := connection_change proxied pc st s in
  connectionAttempts s' = connectionAttempts s /\
  timers s' = timers s /\ reconnectTimeoutRef s' = reconnectTimeoutRef s /\
  pcRef s' = pcRef s /\ dcRef s' = dcRef s /\ localStreamRef s' = localStreamRef s /\
  audioElementRef s' = audioElementRef s /\ dcs s' = dcs s /\ streams s' = streams s /\
  (forall p, pcs s !! pc = Some p -> pc_closed p = false -> pc_on_state p = true ->
     connectionState s' =
       match st with
       | pcs_connected => mkConnectionState connected None
       | pcs_failed | pcs_closed => mkConnectionState disconnected None
       | _ => connectionState s
       end).
Proof.
  cbv zeta. unfold connection_change.
  destruct (pcs s !! pc) as [p|] eqn:Hp.
  2:{ repeat apply conj; try reflexivity. intros; discriminate. }
  destruct (pc_closed p) eqn:Hc.
  { repeat apply conj; try reflexivity. intros q Hq. congruence. }
  destruct (pc_on_state p) eqn:Ho.
  2:{ repeat apply conj; try reflexivity. intros q Hq. congruence. }
  cbn [rev_connection proxied]. unfold Proxied.onconnectionstatechange.
  cbn [pcs set_pcs]. rewrite list_lookup_alter_eq, Hp.
  cbn [fmap option_fmap option_map pc_connectionState].
  destruct st; repeat apply conj; try reflexivity; intros; reflexivity.
Qed.

End Budget.

(** ** The listeners of a reconnection *)

Section Stale.
Context {platform : Platform}.

Lemma no_listeners_frame n s s' :
  dcs s' = dcs s -> no_listeners_from n s -> no_listeners_from n s'.
Proof. unfold no_listeners_from. intros ->. auto. Qed.

Lemma no_listeners_alter n f dc s :
  (forall d, dc_onmessage (f d) = dc_onmessage d \/ dc_onmessage (f d) = Some []) ->
  no_listeners_from n s ->
  no_listeners_from n (set_dcs (alter f dc (dcs s)) s).
Proof.
  intros Hf Hs i d Hl Hn. cbn [dcs set_dcs] in Hl.
  destruct (decide (i = dc)) as [->|Hne].
  - rewrite list_lookup_alter_eq in Hl.
    destruct (dcs s !! dc) as [d0|] eqn:Hd0; [|discriminate].
    cbn in Hl. injection Hl as <-.
    destruct (Hf d0) as [->| ->]; [|auto]. eapply Hs; eauto.
  - rewrite list_lookup_alter_ne in Hl by congruence. eapply Hs; eauto.
Qed.

Lemma no_listeners_new_channel n s :
  no_listeners_from n s ->
  no_listeners_from n (set_dcs (dcs s ++ [mkDc rs_connecting [] None false]) s).
Proof.
  intros Hs i d Hl Hn. cbn [dcs set_dcs] in Hl.
  apply lookup_app_Some in Hl as [Hl|[_ Hl]]; [eapply Hs; eauto|].
  apply list_lookup_singleton_Some in Hl as [_ <-]. left. reflexivity.
Qed.

Lemma close_dc_onmessage d : dc_onmessage (close_dc d) = dc_onmessage d.
Proof. unfold close_dc. destruct (readyState d); reflexivity. Qed.

Lemma closing_keeps_no_listeners n r s s' :
  dcs s' = match r with Some i => alter close_dc i (dcs s) | None => dcs s end ->
  no_listeners_from n s -> no_listeners_from n s'.
Proof.
  intros Hd Hs i d Hl Hn. rewrite Hd in Hl. destruct r as [j|]; [|eapply Hs; eauto].
  destruct (decide (i = j)) as [->|Hne].
  - rewrite list_lookup_alter_eq in Hl.
    destruct (dcs s !! j) as [d0|] eqn:Hd0; [|discriminate].
    cbn in Hl. injection Hl as <-. rewrite close_dc_onmessage. eapply Hs; eauto.
  - rewrite list_lookup_alter_ne in Hl by congruence. eapply Hs; eauto.
Qed.

Lemma disconnect_no_listeners v n s :
  no_listeners_from n s -> no_listeners_from n (rev_disconnect (revision v) s).
Proof.
  apply (closing_keeps_no_listeners n (dcRef s)).
  destruct v; cbn [rev_disconnect revision proxied direct]; open_store s; reflexivity.
Qed.

Lemma direct_attemptReconnect_no_listeners n s :
  no_listeners_from n s -> no_listeners_from n (Direct.attemptReconnect s).
Proof.
  unfold Direct.attemptReconnect.
  destruct (connectionAttempts s <? maxReconnectAttempts).
  - apply (closing_keeps_no_listeners n (dcRef s)). open_store s; reflexivity.
  - apply no_listeners_frame. reflexivity.
Qed.

Lemma addTracks_no_listeners n pc m tracks i :
  prog_preserves (no_listeners_from n) (Direct.addTracks pc m i tracks).
Proof.
  revert i. induction tracks as [|t tracks IH]; intros i; cbn.
  - apply ret_preserves.
  - apply bind_preserves; [|intros _; apply IH].
    intros s Hs. unfold pc_addTrack. destruct (is_closed pc s); cbn; [exact Hs|].
    revert Hs. apply no_listeners_frame. reflexivity.
Qed.

Lemma first_connect_no_listeners v n :
  prog_preserves (no_listeners_from n) (rev_connect (revision v) first_render).
Proof.
  destruct v; cbn [rev_connect revision proxied direct];
    unfold Proxied.connect, Direct.connect;
    cbn [r_eventListeners r_isSessionStarted first_render negb];
    split_prog;
    lazymatch goal with
    | |- prog_preserves _ (pc_addTrack _ _ _) =>
        intros s Hs; unfold pc_addTrack; destruct (is_closed _ s); cbn;
        [exact Hs|revert Hs; apply no_listeners_frame; reflexivity]
    | |- prog_preserves _ (pc_createDataChannel _) =>
        intros s Hs; unfold pc_createDataChannel; destruct (is_closed _ s); cbn;
        [exact Hs|apply no_listeners_new_channel, Hs]
    | |- prog_preserves _ (Direct.addTracks _ _ _ _) => apply addTracks_no_listeners
    | |- prog_preserves _ (act (Proxied.install_dc_handlers _ _)) =>
        apply act_preserves; intros s; apply no_listeners_alter; intros d; right; reflexivity
    | |- prog_preserves _ (act (Direct.install_dc_listeners _ _)) =>
        apply act_preserves; intros s; apply no_listeners_alter; intros d; right; reflexivity
    | |- prog_preserves _ (act Proxied.disconnect) =>
        apply act_preserves; apply (disconnect_no_listeners the_proxied)
    | |- prog_preserves _ (act Direct.attemptReconnect) =>
        apply act_preserves; apply direct_attemptReconnect_no_listeners
    | |- prog_preserves _ (act _) =>
        apply act_preserves; intros s; apply no_listeners_frame; reflexivity
    | |- prog_preserves _ _ =>
        intros s Hs; cbn; revert Hs; apply no_listeners_frame; reflexivity
    end.
Qed.

Lemma reconnect_no_listeners v n :
  prog_preserves (no_listeners_from n) (rev_reconnect (revision v)).
Proof.
  destruct v; cbn [rev_reconnect revision proxied direct];
    unfold Proxied.reconnect_callback, Direct.reconnect_callback;
    (apply try_catch_preserves;
     [|intros e; apply act_preserves; intros s0; apply no_listeners_frame; reflexivity]).
  - apply (first_connect_no_listeners the_proxied).
  - apply (first_connect_no_listeners the_direct).
Qed.

(** X17. The reconnect that the backoff timer starts runs the
    [connect] of the first render, which captured the empty listener
    list.  So, in either revision and however the requests of the
    reconnection settle, once it has run to its end (no other callback
    in between): every channel it has created has a message handler
    that holds no listener (or none yet), and a message that arrives on
    such a channel is delivered to nobody, whoever is subscribed by
    then. *)
Theorem reconnection_installs_no_listeners v oracle s dc d data :
  let s' := (run_to_end oracle (rev_reconnect (revision v) s)).1 in
  (length (dcs s) <= dc)%nat -> dcs s' !! dc = Some d ->
  (dc_onmessage d = None \/ dc_onmessage d = Some []) /\
  delivered (channel_receive (revision v) dc data s') = delivered s'.
Proof.
  cbv zeta. intros Hn Hd.
  assert (H : no_listeners_from (length (dcs s))
                (run_to_end oracle (rev_reconnect (revision v) s)).1).
  { apply run_to_end_keeps. apply reconnect_no_listeners.
    intros i d0 Hl Hi. apply lookup_lt_Some in Hl. lia. }
  pose proof (H dc d Hd Hn) as Hm. split; [exact Hm|].
  unfold channel_receive. rewrite Hd.
  destruct (readyState d); try reflexivity.
  destruct Hm as [-> | ->]; [reflexivity|].
  destruct v; cbn [rev_channel_message revision proxied direct].
  - unfold Proxied.onmessage. destruct (JSON_parse data); reflexivity.
  - unfold Direct.onmessage. destruct (JSON_parse data); reflexivity.
Qed.

End Stale.

(** ** The session flag of [Direct] *)

Section SessionFlag.
Context {platform : Platform}.

Lemma started_frame s s' :
  isSessionStarted s' = isSessionStarted s -> session_started s -> session_started s'.
Proof. unfold session_started. intros ->. auto. Qed.

Lemma addTracks_started pc m tracks i :
  prog_preserves session_started (Direct.addTracks pc m i tracks).
Proof.
  revert i. induction tracks as [|t tracks IH]; intros i; cbn.
  - apply ret_preserves.
  - apply bind_preserves; [|intros _; apply IH].
    intros s Hs. unfold pc_addTrack. destruct (is_closed pc s); cbn; [exact Hs|].
    revert Hs. apply started_frame. reflexivity.
Qed.

Lemma direct_attemptReconnect_started s :
  session_started s -> session_started (Direct.attemptReconnect s).
Proof.
  apply started_frame. unfold Direct.attemptReconnect.
  destruct (connectionAttempts s <? maxReconnectAttempts); [|reflexivity].
  open_store s; reflexivity.
Qed.

Lemma direct_connect_started cl s :
  r_isSessionStarted cl = false -> preserves session_started (Direct.connect cl s).
Proof.
  intros Hcl. unfold Direct.connect. rewrite Hcl. cbn [negb].
  unfold try_catch at 1. unfold bind at 1. unfold act at 1. cbn [res_bind].
  unfold bind at 1. unfold act at 1. cbn [res_bind].
  apply res_catch_preserves.
  - match goal with |- preserves _ (?p ?s0) =>
      assert (Hp : prog_preserves session_started p); [|apply Hp; reflexivity] end.
    split_prog;
    lazymatch goal with
    | |- prog_preserves _ (pc_createDataChannel _) =>
        intros s1 Hs; unfold pc_createDataChannel; destruct (is_closed _ s1); cbn;
        [exact Hs|revert Hs; apply started_frame; reflexivity]
    | |- prog_preserves _ (Direct.addTracks _ _ _ _) => apply addTracks_started
    | |- prog_preserves _ (act _) =>
        apply act_preserves; intros s1; apply started_frame; reflexivity
    | |- prog_preserves _ _ =>
        intros s1 Hs; cbn; revert Hs; apply started_frame; reflexivity
    end.
  - intros e. split_prog;
    lazymatch goal with
    | |- prog_preserves _ (act Direct.attemptReconnect) =>
        apply act_preserves; apply direct_attemptReconnect_started
    | |- prog_preserves _ (act _) =>
        apply act_preserves; intros s1; apply started_frame; reflexivity
    end.
Qed.

(** X18. [Direct.connect] sets [isSessionStarted] before its first
    request and never resets it, not even when the handshake fails.
    So after one handshake has run to its end (no other callback in
    between), however it ended, the flag is set, and the [connect] of a
    later render, which captures the flag as set, sends nothing: it
    returns without suspending, and the store it leaves is the one it
    found with the status set to [connecting], up to lines of the
    console (the line the debug overlay echoes before the guard).
    ([disconnect] resets the flag.) *)
Theorem direct_connect_once_per_session oracle cl ls s :
  r_isSessionStarted cl = false ->
  let s1 := (run_to_end oracle (Direct.connect cl s)).1 in
  isSessionStarted s1 = true /\
  exists s2,
    Direct.connect (mkRender ls (isSessionStarted s1)) s1 = Ret s2 tt /\
    same_but_console (setConnectionState (mkConnectionState connecting None) s1) s2.
Proof.
  intros Hcl. cbv zeta.
  assert (H : session_started (run_to_end oracle (Direct.connect cl s)).1)
    by (apply run_to_end_keeps, direct_connect_started, Hcl).
  split; [exact H|]. rewrite H.
  eexists. split; reflexivity.
Qed.

End SessionFlag.

(** ** [restartIce] *)

Section Repair.
Context {platform : Platform}.
Import DirectRepair.

(** X19. [restartIce] never rejects.  Without a peer connection it
    returns at once, without a request, and changes nothing but lines
    of the console.  With one, a rejection [e] at any of its [await]s
    ends the call at once: the last line written to the console is the
    error [ICE restart failed:] with [e], nothing else of the store the
    call resumed on has changed by then, and [attemptReconnect], the
    full reconnection, runs on that store. *)
Theorem restartIce_falls_back s :
  ends anyhow never (restartIce s) /\
  on_rejection (fun e s' r => exists s1,
      r = Ret (Direct.attemptReconnect s1) tt /\
      same_but_console s' s1 /\
      last (console s1) = Some (mkLog lvl_error "ICE restart failed:" (arg_exn e)))
    (restartIce s) /\
  (pcRef s = None -> exists s1, restartIce s = Ret s1 tt /\ same_but_console s s1).
Proof.
  repeat apply conj.
  - revert s. change (prog_ends anyhow never restartIce). unfold restartIce.
    split_ends; intros s; exact I.
  - revert s.
    match goal with |- forall s, on_rejection ?Q _ =>
      change (prog_on_rejection Q restartIce) end.
    unfold restartIce. split_rejection.
    all: try (intros s0; unfold current_pc; destruct (pcRef s0); exact I).
    all: cbn [res_bind res_catch bind act read ret throw try_catch].
    all: eexists; split; [reflexivity|split; [reflexivity|]].
    all: cbn [console console_error set_console]; apply last_snoc.
  - intros H. exists s. split; [|reflexivity].
    unfold restartIce, bind, read. cbn [res_bind]. rewrite H. reflexivity.
Qed.

End Repair.

(** ** The SDP helpers *)

Section CompatFacts.
Import Compat.

Lemma split_cons c s :
  split_crlf (String c s) =
    match s with
    | String c' rest' =>
        if Ascii.eqb c CR && Ascii.eqb c' LF then EmptyString :: split_crlf rest'
        else push_char c (split_crlf s)
    | EmptyString => push_char c (split_crlf s)
    end.
Proof. destruct s; reflexivity. Qed.

Lemma push_char_nonempty c pieces : push_char c pieces <> [].
Proof. destruct pieces; discriminate. Qed.

Lemma split_crlf_nonempty s : split_crlf s <> [].
Proof.
  destruct s as [|c [|c' rest]]; [discriminate|discriminate|].
  rewrite split_cons. destruct (Ascii.eqb c CR && Ascii.eqb c' LF); [discriminate|].
  apply push_char_nonempty.
Qed.

Lemma join_push_char c pieces :
  pieces <> [] -> join_crlf (push_char c pieces) = String c (join_crlf pieces).
Proof. destruct pieces as [|p [|q rest]]; [congruence|reflexivity|reflexivity]. Qed.

(** Joining the pieces gives the text back. *)
Lemma join_split s : join_crlf (split_crlf s) = s.
Proof.
  assert (H : forall s, (forall c, join_crlf (split_crlf (String c s)) = String c s) /\
                        join_crlf (split_crlf s) = s).
  { clear s. induction s as [|c' rest [IH1 IH2]].
    - split; [intros c|]; reflexivity.
    - split; [|apply IH1]. intros c. rewrite split_cons.
      destruct (Ascii.eqb c CR && Ascii.eqb c' LF) eqn:E.
      + apply andb_prop in E as [E1 E2].
        apply Ascii.eqb_eq in E1, E2. subst c c'.
        pose proof (split_crlf_nonempty rest) as Hne.
        destruct (split_crlf rest) as [|p ps] eqn:Hs; [congruence|].
        change (join_crlf (EmptyString :: p :: ps)) with (CRLF +:+ join_crlf (p :: ps)).
        rewrite IH2. reflexivity.
      + rewrite join_push_char by apply split_crlf_nonempty. rewrite IH1. reflexivity. }
  apply H.
Qed.

Lemma has_crlf_cons c s :
  has_crlf (String c s) =
    match s with
    | String c' _ => Ascii.eqb c CR && Ascii.eqb c' LF || has_crlf s
    | EmptyString => false
    end.
Proof. destruct s; reflexivity. Qed.

(** A piece followed by the separator is split off whole. *)
Lemma split_piece line u :
  has_crlf line = false ->
  split_crlf (line +:+ CRLF +:+ u) = line :: split_crlf u.
Proof.
  induction line as [|c r IH]; intros Hl.
  - reflexivity.
  - rewrite has_crlf_cons in Hl. destruct r as [|c' r'].
    + change (String c EmptyString +:+ CRLF +:+ u) with (String c (String CR (String LF u))).
      rewrite split_cons. cbv beta iota.
      assert (E : Ascii.eqb CR LF = false) by reflexivity.
      rewrite E, andb_false_r.
      change (split_crlf (String CR (String LF u))) with (EmptyString :: split_crlf u).
      reflexivity.
    + change (String c (String c' r') +:+ CRLF +:+ u)
        with (String c (String c' (r' +:+ CRLF +:+ u))).
      rewrite split_cons. cbv beta iota.
      apply orb_false_elim in Hl as [Hc Hr]. rewrite Hc.
      change (String c' (r' +:+ CRLF +:+ u)) with (String c' r' +:+ CRLF +:+ u).
      rewrite IH by exact Hr. reflexivity.
Qed.

Lemma split_whole line : has_crlf line = false -> split_crlf line = [line].
Proof.
  induction line as [|c r IH]; intros Hl; [reflexivity|].
  rewrite has_crlf_cons in Hl.
  destruct r as [|c' r']; [reflexivity|].
  rewrite split_cons. cbv beta iota.
  apply orb_false_elim in Hl as [Hc Hr]. rewrite Hc, IH by exact Hr. reflexivity.
Qed.

Lemma split_join lines :
  lines <> [] -> Forall (fun line => has_crlf line = false) lines ->
  split_crlf (join_crlf lines) = lines.
Proof.
  induction lines as [|line rest IH]; intros Hne Hall; [congruence|].
  apply Forall_cons in Hall as [Hl Hrest].
  destruct rest as [|line' rest'].
  - apply split_whole, Hl.
  - change (join_crlf (line :: line' :: rest'))
      with (line +:+ CRLF +:+ join_crlf (line' :: rest')).
    rewrite split_piece by exact Hl. rewrite IH; [reflexivity|discriminate|exact Hrest].
Qed.

Lemma has_crlf_push c pieces :
  Forall (fun line => has_crlf line = false) pieces ->
  (forall p ps c', pieces = String c' p :: ps -> Ascii.eqb c CR && Ascii.eqb c' LF = false) ->
  Forall (fun line => has_crlf line = false) (push_char c pieces).
Proof.
  intros Hall Hc. destruct pieces as [|p ps]; cbn.
  - constructor; [reflexivity|constructor].
  - apply Forall_cons in Hall as [Hp Hps]. constructor; [|exact Hps].
    rewrite has_crlf_cons. destruct p as [|c' p']; [reflexivity|].
    rewrite (Hc p' ps c' eq_refl). exact Hp.
Qed.

Lemma split_head s c' p ps :
  split_crlf s = String c' p :: ps -> exists r, s = String c' r.
Proof.
  destruct s as [|c r]; [discriminate|]. rewrite split_cons.
  destruct r as [|c'' r''].
  - cbn. intros H. injection H as -> _ _. eauto.
  - destruct (Ascii.eqb c CR && Ascii.eqb c'' LF); [discriminate|].
    destruct (split_crlf (String c'' r'')); cbn; intros H; injection H as -> _ _; eauto.
Qed.

(** No piece contains the separator. *)
Lemma split_pieces_whole s : Forall (fun line => has_crlf line = false) (split_crlf s).
Proof.
  assert (H : forall s, (forall c, Forall (fun line => has_crlf line = false)
                                     (split_crlf (String c s))) /\
                        Forall (fun line => has_crlf line = false) (split_crlf s)).
  { clear s. induction s as [|c' rest [IH1 IH2]].
    - split; [intros c|]; repeat constructor.
    - split; [|apply IH1]. intros c. rewrite split_cons.
      destruct (Ascii.eqb c CR && Ascii.eqb c' LF) eqn:E.
      + constructor; [reflexivity|exact IH2].
      + apply has_crlf_push; [apply IH1|].
        intros p ps c'' Hs. apply split_head in Hs as [r Hr]. injection Hr as <- _.
        exact E. }
  apply H.
Qed.

End CompatFacts.

Section CompatLoop.
Import Compat.

Lemma prefix_app p1 p2 s : String.prefix (p1 +:+ p2) s = true -> String.prefix p1 s = true.
Proof.
  revert s. induction p1 as [|a p1 IH]; intros s H; [destruct s; reflexivity|].
  change (String a p1 +:+ p2) with (String a (p1 +:+ p2)) in H.
  destruct s as [|b s]; [discriminate|]. cbn [String.prefix] in *.
  destruct (Ascii.ascii_dec a b); [apply IH, H|discriminate].
Qed.

Lemma media_line_audio line : startsWith line "m=audio" = true -> startsWith line "m=" = true.
Proof. apply (prefix_app "m=" "audio"). Qed.

Lemma ensure_step_line acc b line :
  ensure_step (acc, b) line =
    (acc ++ [if negb (startsWith line "m=") && b && direction_line line
             then "a=sendrecv" else line],
     section_after b line).
Proof.
  unfold ensure_step, section_after, direction_line.
  destruct (startsWith line "m=audio") eqn:Ha.
  - rewrite (media_line_audio _ Ha). reflexivity.
  - destruct (startsWith line "m="); cbn [andb negb]; [reflexivity|].
    destruct b; cbn [andb]; [|reflexivity].
    destruct (startsWith line "a=sendonly" || startsWith line "a=recvonly"); [reflexivity|].
    destruct (startsWith line "a=rtcp-mux"); reflexivity.
Qed.

Lemma ensure_loop lines acc b :
  (fold_left ensure_step lines (acc, b)).1 = acc ++ with_sendrecv b lines.
Proof.
  revert acc b. induction lines as [|line rest IH]; intros acc b; cbn [fold_left with_sendrecv].
  - rewrite app_nil_r. reflexivity.
  - rewrite ensure_step_line, IH, <- app_assoc. reflexivity.
Qed.

Lemma ensure_is_join sdp :
  ensureCompatibleAudioSection sdp = join_crlf (with_sendrecv false (split_crlf sdp)).
Proof.
  unfold ensureCompatibleAudioSection. cbv zeta.
  pose proof (ensure_loop (split_crlf sdp) [] false) as H.
  destruct (fold_left ensure_step (split_crlf sdp) ([], false)) as [result b].
  cbn in H. rewrite H. reflexivity.
Qed.

Lemma with_sendrecv_length b lines : length (with_sendrecv b lines) = length lines.
Proof. revert b. induction lines as [|l r IH]; intros b; cbn; [reflexivity|]. rewrite IH. reflexivity. Qed.

Lemma with_sendrecv_whole b lines :
  Forall (fun line => has_crlf line = false) lines ->
  Forall (fun line => has_crlf line = false) (with_sendrecv b lines).
Proof.
  intros H. revert b. induction H as [|l r Hl Hr IH]; intros b; cbn [with_sendrecv];
    constructor; [|apply IH].
  destruct (negb (startsWith l "m=") && b && direction_line l); [reflexivity|exact Hl].
Qed.

Lemma ensure_lines sdp :
  split_crlf (ensureCompatibleAudioSection sdp) = with_sendrecv false (split_crlf sdp).
Proof.
  rewrite ensure_is_join. apply split_join.
  - intros H. apply (f_equal length) in H. rewrite with_sendrecv_length in H.
    apply (split_crlf_nonempty sdp). destruct (split_crlf sdp); [reflexivity|discriminate].
  - apply with_sendrecv_whole, split_pieces_whole.
Qed.

(** The replacement is no media line and fixes no direction. *)
Lemma replaced_line b line :
  negb (startsWith line "m=") && b && direction_line line = true ->
  startsWith line "m=" = false /\ startsWith line "m=audio" = false /\ b = true /\
  direction_line line = true /\ section_after b line = b.
Proof.
  intros H. apply andb_prop in H as [H Hd]. apply andb_prop in H as [Hm Hb].
  apply negb_true_iff in Hm.
  assert (Ha : startsWith line "m=audio" = false).
  { destruct (startsWith line "m=audio") eqn:Ha; [|reflexivity].
    rewrite (media_line_audio _ Ha) in Hm. discriminate. }
  repeat split; auto. unfold section_after. rewrite Ha, Hm. reflexivity.
Qed.

Lemma with_sendrecv_idempotent b lines :
  with_sendrecv b (with_sendrecv b lines) = with_sendrecv b lines.
Proof.
  revert b. induction lines as [|line rest IH]; intros b; [reflexivity|].
  cbn [with_sendrecv].
  destruct (negb (startsWith line "m=") && b && direction_line line) eqn:E.
  - apply replaced_line in E as (_ & _ & -> & _ & Hs). rewrite Hs.
    change (section_after true "a=sendrecv") with true.
    change (negb (startsWith "a=sendrecv" "m=") && true && direction_line "a=sendrecv")
      with false.
    cbv iota. rewrite IH. reflexivity.
  - rewrite E, IH. reflexivity.
Qed.

Lemma with_sendrecv_clean b lines :
  one_way_audio_lines b (with_sendrecv b lines) = [].
Proof.
  revert b. induction lines as [|line rest IH]; intros b; [reflexivity|].
  cbn [with_sendrecv one_way_audio_lines].
  destruct (negb (startsWith line "m=") && b && direction_line line) eqn:E.
  - apply replaced_line in E as (_ & _ & -> & _ & Hs). rewrite Hs.
    change (section_after true "a=sendrecv") with true.
    change (negb (startsWith "a=sendrecv" "m=") && true && direction_line "a=sendrecv")
      with false.
    cbv iota. apply IH.
  - rewrite E. apply IH.
Qed.

Lemma with_sendrecv_fixed b lines :
  one_way_audio_lines b lines = [] <-> with_sendrecv b lines = lines.
Proof.
  revert b. induction lines as [|line rest IH]; intros b; [split; reflexivity|].
  cbn [with_sendrecv one_way_audio_lines].
  destruct (negb (startsWith line "m=") && b && direction_line line) eqn:E.
  - split; [discriminate|]. intros H. injection H as H _.
    apply replaced_line in E as (_ & _ & _ & Hd & _). rewrite <- H in Hd. discriminate.
  - cbn [app]. rewrite IH. split; [intros ->; reflexivity|intros H; injection H; auto].
Qed.

Lemma with_sendrecv_added b lines :
  one_way_audio_lines b lines <> [] -> In "a=sendrecv" (with_sendrecv b lines).
Proof.
  revert b. induction lines as [|line rest IH]; intros b; [intros H; destruct H; reflexivity|].
  cbn [with_sendrecv one_way_audio_lines].
  destruct (negb (startsWith line "m=") && b && direction_line line) eqn:E.
  - intros _. left. reflexivity.
  - cbn [app]. intros H. right. apply IH, H.
Qed.

Lemma prefix_self x t : String.prefix x (x +:+ t) = true.
Proof.
  induction x as [|a x IH]; [destruct t; reflexivity|].
  change (String a x +:+ t) with (String a (x +:+ t)). cbn [String.prefix].
  destruct (Ascii.ascii_dec a a); [exact IH|congruence].
Qed.

Lemma includes_self x t : includes (x +:+ t) x = true.
Proof.
  destruct (x +:+ t) eqn:E; cbn [includes]; rewrite <- E, prefix_self; reflexivity.
Qed.

Lemma includes_after a t x : includes t x = true -> includes (a +:+ t) x = true.
Proof.
  intros H. induction a as [|c a IH]; [exact H|].
  change (String c a +:+ t) with (String c (a +:+ t)). cbn [includes].
  rewrite IH. apply orb_true_r.
Qed.

Lemma append_empty x : x +:+ EmptyString = x.
Proof.
  induction x as [|a x IH]; [reflexivity|].
  change (String a x +:+ EmptyString) with (String a (x +:+ EmptyString)).
  rewrite IH. reflexivity.
Qed.

Lemma includes_join x lines : In x lines -> includes (join_crlf lines) x = true.
Proof.
  induction lines as [|l rest IH]; [intros []|].
  intros [->|Hin].
  - destruct rest as [|l' rest'].
    + cbn [join_crlf]. rewrite <- (append_empty x) at 1. apply includes_self.
    + apply includes_self.
  - destruct rest as [|l' rest']; [destruct Hin|].
    change (join_crlf (l :: l' :: rest')) with (l +:+ (CRLF +:+ join_crlf (l' :: rest'))).
    apply includes_after, (includes_after CRLF), IH, Hin.
Qed.

Lemma with_sendrecv_related b lines :
  Forall2 (fun old new => new = old \/ (new = "a=sendrecv" /\ direction_line old = true))
          lines (with_sendrecv b lines).
Proof.
  revert b. induction lines as [|line rest IH]; intros b; cbn [with_sendrecv];
    constructor; [|apply IH].
  destruct (negb (startsWith line "m=") && b && direction_line line) eqn:E; [|left; reflexivity].
  right. split; [reflexivity|]. apply replaced_line in E. tauto.
Qed.

End CompatLoop.

Section CompatTheorems.
Import Compat.

(** X20. [ensureCompatibleAudioSection] keeps the lines of the
    description, their number and their order.  A line is either left
    exactly as it was, or it was a one-directional attribute
    ([a=sendonly...], [a=recvonly...]) inside an audio section and has
    become [a=sendrecv]; media lines, lines outside audio sections and
    every other attribute are never touched. *)
Theorem ensure_rewrites_direction_lines_only sdp :
  split_crlf (ensureCompatibleAudioSection sdp) = with_sendrecv false (split_crlf sdp) /\
  length (split_crlf (ensureCompatibleAudioSection sdp)) = length (split_crlf sdp) /\
  Forall2 (fun old new => new = old \/ (new = "a=sendrecv" /\ direction_line old = true))
          (split_crlf sdp) (split_crlf (ensureCompatibleAudioSection sdp)).
Proof.
  rewrite ensure_lines.
  repeat apply conj; [reflexivity|apply with_sendrecv_length|apply with_sendrecv_related].
Qed.

(** X21. [ensureCompatibleAudioSection] is idempotent: applied to its
    own result it changes nothing. *)
Theorem ensure_idempotent sdp :
  ensureCompatibleAudioSection (ensureCompatibleAudioSection sdp)
    = ensureCompatibleAudioSection sdp.
Proof.
  rewrite (ensure_is_join (ensureCompatibleAudioSection sdp)), ensure_lines,
    with_sendrecv_idempotent, <- ensure_is_join. reflexivity.
Qed.

(** X22. In the result of [ensureCompatibleAudioSection] no line of
    an audio section fixes one direction: no [a=sendonly] and no
    [a=recvonly] attribute is left there. *)
Theorem ensure_leaves_no_one_way_audio sdp :
  one_way_audio_lines false (split_crlf (ensureCompatibleAudioSection sdp)) = [].
Proof. rewrite ensure_lines. apply with_sendrecv_clean. Qed.

(** X23. [ensureCompatibleAudioSection] returns the description
    unchanged, byte for byte, exactly when no audio section holds a
    one-directional attribute; otherwise the result differs from the
    input. *)
Theorem ensure_changes_exactly_one_way_audio sdp :
  (one_way_audio_lines false (split_crlf sdp) = [] -> ensureCompatibleAudioSection sdp = sdp) /\
  (one_way_audio_lines false (split_crlf sdp) <> [] -> ensureCompatibleAudioSection sdp <> sdp).
Proof.
  split.
  - intros H. rewrite ensure_is_join. apply with_sendrecv_fixed in H. rewrite H.
    apply join_split.
  - intros H E. apply H, with_sendrecv_fixed. rewrite <- ensure_lines, E. reflexivity.
Qed.

(** X24. The two helpers agree: when [ensureCompatibleAudioSection]
    had something to rewrite, its result contains [a=sendrecv], so
    [validateSDPForOpenAI] does not report the issue
    [Audio direction is not bidirectional] for it. *)
Theorem ensure_satisfies_direction_check sdp :
  one_way_audio_lines false (split_crlf sdp) <> [] ->
  includes (ensureCompatibleAudioSection sdp) "a=sendrecv" = true /\
  ~ In "Audio direction is not bidirectional"
       (issues (validateSDPForOpenAI (ensureCompatibleAudioSection sdp))).
Proof.
  intros H.
  assert (Hi : includes (ensureCompatibleAudioSection sdp) "a=sendrecv" = true).
  { rewrite ensure_is_join. apply includes_join, with_sendrecv_added, H. }
  split; [exact Hi|].
  unfold validateSDPForOpenAI. rewrite Hi. cbv zeta. cbn [negb].
  destruct (includes (ensureCompatibleAudioSection sdp) "m=audio");
    destruct (includes (ensureCompatibleAudioSection sdp) "opus");
    destruct (includes (ensureCompatibleAudioSection sdp) "PCMU");
    destruct (includes (ensureCompatibleAudioSection sdp) "PCMA");
    destruct (includes (ensureCompatibleAudioSection sdp) "c=IN IP4");
    cbn; intros Hin; repeat (destruct Hin as [Hin|Hin]; [discriminate|]); exact Hin.
Qed.

Lemma ensure_empty sdp : ensureCompatibleAudioSection sdp = "" -> sdp = "".
Proof.
  intros H. pose proof (ensure_lines sdp) as Hl. rewrite H in Hl.
  change (split_crlf "") with [""] in Hl.
  rewrite <- (join_split sdp).
  destruct (split_crlf sdp) as [|line [|line' rest]]; try discriminate.
  cbn [with_sendrecv] in Hl. cbn [andb negb] in Hl.
  rewrite andb_false_r in Hl. cbn in Hl. injection Hl as <-. reflexivity.
Qed.

(** X25. [createOpenAICompatibleOffer] never resolves with an empty
    description: an offer without one makes it throw, and rewriting a
    non-empty description never empties it. *)
Theorem compatible_offer_is_never_empty pc s :
  ends (fun _ sdp => sdp <> "") anyhow (createOpenAICompatibleOffer pc s).
Proof.
  unfold createOpenAICompatibleOffer, bind, await. cbn [res_bind ends].
  intros [[sdp|]|e] s'; cbn [res_bind ends]; try exact I.
  destruct (String.eqb sdp "") eqn:E; cbn [ends throw ret]; [exact I|].
  intros H. apply ensure_empty in H. subst sdp. discriminate.
Qed.

End CompatTheorems.

(** ** The signaling endpoint *)

Section RouteFacts.
Import SessionRoute.
Context {server : Server}.

Ltac run_handler :=
  repeat first
    [ progress cbv iota
    | progress unfold parse, new_Response
    | progress cbn [run_bind run_catch h_bind h_try h_await h_ret h_throw console_write
                    finishes asks rejections no_fetch at_most_one_fetch is_fetch complete
                    new_Response parse]
    | match goal with
      | |- forall _ : Settled _, _ => intros [?|?]
      | |- forall _, _ => intros ?
      | |- _ /\ _ => split
      | |- context [if ?b then _ else _] =>
          let v := eval cbv in b in
          lazymatch v with
          | true => change b with true
          | false => change b with false
          end
      | |- context [if ?b then _ else _] => destruct b eqn:?
      | |- context [match JSON_parse ?t with _ => _ end] => destruct (JSON_parse t) eqn:?
      end ].

Lemma falsy_key key : falsy key = false -> exists k, key = Some k /\ k <> "".
Proof.
  destruct key as [k|]; [|discriminate]. cbn. intros H. exists k. split; [reflexivity|].
  intros ->. discriminate.
Qed.

Lemma eqb_false_ne (a b : string) : String.eqb a b = false -> a <> b.
Proof. intros H ->. rewrite String.eqb_refl in H. discriminate. Qed.

(** X26. [POST] never throws: whatever the request body, the
    environment and the upstream do, it returns a [Response].  The
    reply is one of: the 400 for an empty body, the 500 for a missing
    key, the 500 [Failed to create session], the upstream body as
    [application/sdp] with the default status, or a JSON error with a
    status the [Response] constructor accepts. *)
Theorem post_always_answers key out :
  finishes (fun _ r =>
      r = bad_request \/ r = not_configured \/ r = failed_to_create \/
      (reply_status r = None /\ reply_content_type r = Some "application/sdp") \/
      (exists n, reply_status r = Some n /\ status_with_body n = true /\
                 reply_content_type r = Some "application/json"))
    (fun _ _ => False) (POST key out).
Proof.
  unfold POST. cbv zeta. run_handler.
  all: try (left; reflexivity).
  all: try (right; left; reflexivity).
  all: try (right; right; left; reflexivity).
  all: try (right; right; right; left; split; reflexivity).
  all: right; right; right; right; eexists; repeat split;
    unfold status_with_body;
    repeat match goal with H : _ = false |- _ => rewrite H; clear H end; reflexivity.
Qed.

(** X27. When any awaited operation of [POST] is rejected (reading
    the request body, the upstream [fetch], reading the upstream
    response), the handler makes no further request and replies 500
    [Failed to create session]. *)
Theorem post_rejection_is_reported key out :
  rejections (fun r => exists out', r = Done out' failed_to_create) (POST key out).
Proof.
  unfold POST. cbv zeta. run_handler.
  all: try exact I.
  all: eexists; reflexivity.
Qed.

(** X28. [POST] contacts the upstream at most once, and only with a
    non-empty key and a non-empty request body.  The call first reads
    the body of the request.  When reading fails, when the body is
    empty or when the key is missing or empty, the call ends without
    any upstream request.  For a non-empty body [sdp] and a non-empty
    key, the next thing the call does is the one upstream request: it
    goes to the calls URL, is authorised by [Bearer <key>], and its
    form holds that very [sdp] under [sdp] and the session
    configuration under [session]; nothing is sent upstream after
    it. *)
Theorem post_asks_upstream_once key out :
  asks (upstream_request key) (POST key out) /\
  at_most_one_fetch (POST key out) /\
  exists k,
    POST key out = Wait call_req_text k /\
    (forall e, no_fetch (k (rejected e))) /\
    forall sdp,
      (sdp = "" \/ falsy key = true -> no_fetch (k (fulfilled sdp))) /\
      (sdp <> "" -> forall apiKey, key = Some apiKey -> apiKey <> "" ->
         exists k2,
           k (fulfilled sdp)
             = Wait (call_fetch calls_url ("Bearer " +:+ apiKey)
                                [("sdp", sdp); ("session", sessionConfig)]) k2 /\
           forall x, no_fetch (k2 x)).
Proof.
  split; [|split].
  - unfold POST. cbv zeta. run_handler.
    all: try exact I.
    match goal with H : falsy key = false |- _ => apply falsy_key in H as (k & -> & Hk) end.
    split; [reflexivity|]. exists k.
    match goal with H : String.eqb ?sdp "" = false |- _ =>
      exists sdp; apply eqb_false_ne in H end.
    repeat split; auto.
  - unfold POST. cbv zeta. run_handler.
    all: try exact I.
    all: try reflexivity.
  - unfold POST. cbv zeta. unfold h_try at 1. unfold h_bind at 1. unfold h_await at 1.
    cbn [run_bind run_catch].
    eexists. split; [reflexivity|]. split.
    + intros e. run_handler. exact I.
    + intros sdp. split.
      * intros [->|Hkey]; run_handler; first [exact I|congruence].
      * intros Hsdp apiKey -> HapiKey.
        cbn [run_bind]. cbv beta.
        destruct (String.eqb_spec sdp "") as [->|_]; [congruence|].
        unfold falsy. destruct (String.eqb_spec apiKey "") as [->|_]; [congruence|].
        cbn [run_bind run_catch h_bind h_try h_await h_ret h_throw console_write interpolate].
        eexists. split; [reflexivity|].
        intros [response|e]; run_handler.
        all: try exact I.
        all: try reflexivity.
Qed.

(** X29. What [POST] relays, for a non-empty body and key.  An
    upstream success is answered with the upstream body verbatim (even
    an empty one) as [application/sdp].  An upstream failure is
    answered with the upstream status and a JSON error object that
    carries the parsed error, or the raw text when it does not parse;
    but when the upstream status is one the [Response] constructor
    rejects (outside 200..599, or a status without body such as 304),
    the reply is the 500 [Failed to create session] instead. *)
Theorem post_relays_upstream_answer (oracle : forall c, Settled (Reply c))
        apiKey sdp response text out :
  apiKey <> "" -> sdp <> "" ->
  oracle call_req_text = fulfilled sdp ->
  oracle (call_fetch calls_url ("Bearer " +:+ apiKey) [("sdp", sdp); ("session", sessionConfig)])
    = fulfilled response ->
  oracle call_response_text = fulfilled text ->
  (complete oracle (POST (Some apiKey) out)).2 =
    inr (if resp_ok response then mkReply text None (Some "application/sdp")
         else if status_with_body (resp_status response)
              then mkReply (JSON_stringify_error (resp_status response)
                              match JSON_parse text with
                              | inr j => inl j
                              | inl _ => inr text
                              end)
                           (Some (resp_status response)) (Some "application/json")
              else failed_to_create).
Proof.
  intros Hk Hs Hreq Hfetch Htext.
  apply String.eqb_neq in Hk, Hs.
  unfold POST. cbv zeta. cbn [run_catch run_bind h_try h_bind h_await complete].
  rewrite Hreq. cbn [run_catch run_bind h_try h_bind h_await complete].
  rewrite Hs. cbn [falsy]. rewrite Hk.
  cbn [run_catch run_bind h_try h_bind h_await complete console_write interpolate].
  match goal with |- context [oracle ?c] =>
    match type of Hfetch with oracle ?c' = _ => change c with c' end end.
  rewrite Hfetch. cbn [run_catch run_bind h_try h_bind h_await complete].
  destruct (resp_ok response); cbn [negb];
    cbn [run_catch run_bind h_try h_bind h_await complete]; rewrite Htext;
    cbn [run_catch run_bind h_try h_bind h_await complete console_write new_Response h_ret];
    [reflexivity|].
  unfold status_with_body, parse.
  destruct (JSON_parse text) as [e|j];
    cbn [run_catch run_bind h_try h_bind h_await complete console_write new_Response h_ret h_throw];
    destruct ((resp_status response <? 200) || (599 <? resp_status response));
    cbn [negb andb run_catch run_bind h_try h_bind h_await complete console_write new_Response
         h_ret h_throw]; try reflexivity;
    destruct (null_body_status (resp_status response));
    cbn [negb andb run_catch run_bind h_try h_bind h_await complete console_write new_Response
         h_ret h_throw]; reflexivity.
Qed.

(** X30. The API key reaches nothing but the [Authorization] header
    of the upstream request: for an upstream that answers alike
    whatever the header, two runs of [POST] with different non-empty
    keys write the same console lines and give the same reply. *)
Theorem post_keeps_key_private (oracle : forall c, Settled (Reply c)) key1 key2 out :
  key1 <> "" -> key2 <> "" ->
  (forall url a1 a2 formData,
     oracle (call_fetch url a1 formData) = oracle (call_fetch url a2 formData)) ->
  complete oracle (POST (Some key1) out) = complete oracle (POST (Some key2) out).
Proof.
  intros H1 H2 Ho. apply String.eqb_neq in H1, H2.
  unfold POST. cbv zeta. cbn [run_catch run_bind h_try h_bind h_await complete].
  destruct (oracle call_req_text) as [sdp|e]; [|reflexivity].
  cbn [run_catch run_bind h_try h_bind h_await complete].
  destruct (String.eqb sdp ""); [reflexivity|].
  cbn [falsy]. rewrite H1, H2.
  cbn [run_catch run_bind h_try h_bind h_await complete console_write interpolate].
  rewrite (Ho calls_url ("Bearer " +:+ key1) ("Bearer " +:+ key2)).
  reflexivity.
Qed.

End RouteFacts.

(** ** The further properties at concrete inputs *)

(** X1 for listener 7 on the initial store. *)
Lemma subscribe_then_unsubscribe_witness :
  (7%nat ∉ eventListeners initial_state) /\
  removeEventListener 7%nat (addEventListener 7%nat initial_state) = initial_state.
Proof.
  assert (H : 7%nat ∉ eventListeners initial_state) by (cbn; apply not_elem_of_nil).
  split; [exact H|].
  apply (subscribe_then_unsubscribe 7%nat initial_state H).
Defined.

(** X2 for listener 7 subscribed twice around listener 9. *)
Lemma unsubscribe_removes_every_registration_witness :
  9%nat <> 7%nat /\
  filter (fun x => x = 9%nat)
    (eventListeners (removeEventListener 7%nat
       (addEventListener 7%nat (addEventListener 9%nat (addEventListener 7%nat initial_state)))))
  = filter (fun x => x = 9%nat)
      (eventListeners
         (addEventListener 7%nat (addEventListener 9%nat (addEventListener 7%nat initial_state)))).
Proof.
  assert (H : 9%nat <> 7%nat) by lia.
  split; [exact H|].
  apply (proj1 (proj2 (unsubscribe_removes_every_registration 7%nat
           (addEventListener 7%nat (addEventListener 9%nat (addEventListener 7%nat initial_state)))))
           9%nat H).
Defined.

(** X5 on the sample platform: listener 13 throws, so listener 7 after
    it is not called. *)
Lemma direct_delivery_stops_at_first_throw_witness :
  JSON_parse (Platform := sample_platform) "x" = inr (mkEvent "x" []) /\
  delivered (Direct.onmessage (platform := sample_platform) [5; 13; 7]%nat "x" initial_state).1
    = delivered initial_state
      ++ map (fun l => (l, mkEvent "x" []))
             (called_until_throw (platform := sample_platform) [5; 13; 7]%nat (mkEvent "x" [])).
Proof.
  assert (H : JSON_parse (Platform := sample_platform) "x" = inr (mkEvent "x" []))
    by reflexivity.
  split; [exact H|].
  apply (proj1 (direct_delivery_stops_at_first_throw (platform := sample_platform)
                  [5; 13; 7]%nat "x" (mkEvent "x" []) initial_state H)).
Defined.

(** X12 for [Direct] after three failed handshakes. *)
Lemma attempt_counter_stays_within_budget_witness :
  reachable (platform := sample_platform) (revision (platform := sample_platform) the_direct)
    (sample_run the_direct direct_three_failures) /\
  0 <= connectionAttempts (store (sample_run the_direct direct_three_failures))
    <= maxReconnectAttempts.
Proof.
  assert (Hr : reachable (platform := sample_platform)
                 (revision (platform := sample_platform) the_direct)
                 (sample_run the_direct direct_three_failures))
    by (exists direct_three_failures; reflexivity).
  split; [exact Hr|].
  apply (attempt_counter_stays_within_budget (platform := sample_platform) the_direct _ Hr).
Defined.

(** X13 for [Direct] after a failed handshake: the backoff timer 1. *)
Lemma at_most_one_recovery_timer_witness :
  reachable (platform := sample_platform) (revision (platform := sample_platform) the_direct)
    (sample_run the_direct first_failure) /\
  pending_recovery (store (sample_run the_direct first_failure)) !! 1%positive
    = Some (mkTimer cb_reconnect 2000) /\
  reconnectTimeoutRef (store (sample_run the_direct first_failure)) = Some 1%positive.
Proof.
  assert (Hr : reachable (platform := sample_platform)
                 (revision (platform := sample_platform) the_direct)
                 (sample_run the_direct first_failure))
    by (exists first_failure; reflexivity).
  assert (Ht : pending_recovery (store (sample_run the_direct first_failure)) !! 1%positive
               = Some (mkTimer cb_reconnect 2000))
    by (vm_compute; reflexivity).
  split; [exact Hr|]. split; [exact Ht|].
  apply (proj2 (at_most_one_recovery_timer (platform := sample_platform) the_direct _
                  1%positive 1%positive _ _ Hr Ht Ht)).
Defined.

(** X14 for five triggers from the initial store. *)
Lemma triggers_saturate_witness :
  0 <= connectionAttempts initial_state <= maxReconnectAttempts /\
  connectionAttempts (triggers (revision (platform := sample_platform) the_direct) 5 initial_state)
    = Z.min (connectionAttempts initial_state + Z.of_nat 5) maxReconnectAttempts.
Proof.
  assert (H : 0 <= connectionAttempts initial_state <= maxReconnectAttempts)
    by (vm_compute; split; discriminate).
  split; [exact H|].
  apply (proj1 (triggers_saturate (platform := sample_platform) the_direct 5 initial_state H)).
Defined.

(** X16 for [Proxied], connected, when the connection is reported
    [failed]. *)
Lemma proxied_connection_state_only_sets_status_witness :
  pcs (store (sample_run the_proxied proxied_connected)) !! 0%nat
    = Some (mkPc ice_connected pcs_connected false true true [(0%nat, 0%nat)]) /\
  connectionState
    (connection_change (proxied (platform := sample_platform)) 0%nat pcs_failed
       (store (sample_run the_proxied proxied_connected)))
  = mkConnectionState disconnected None.
Proof.
  assert (H : pcs (store (sample_run the_proxied proxied_connected)) !! 0%nat
              = Some (mkPc ice_connected pcs_connected false true true [(0%nat, 0%nat)]))
    by (vm_compute; reflexivity).
  split; [exact H|].
  apply (proj2 (proj2 (proj2 (proj2 (proj2 (proj2 (proj2 (proj2 (proj2
           (proxied_connection_state_only_sets_status (platform := sample_platform)
              0%nat pcs_failed (store (sample_run the_proxied proxied_connected)))))))))))
           _ H eq_refl eq_refl).
Defined.

(** X17 for a reconnection of [Proxied] that succeeds, from the initial
    store: the channel it creates is channel 0. *)
Lemma reconnection_installs_no_listeners_witness :
  (length (dcs initial_state) <= 0)%nat /\
  dcs (run_to_end all_fulfilled
         (rev_reconnect (revision (platform := sample_platform) the_proxied) initial_state)).1
    !! 0%nat
    = Some (mkDc rs_connecting [] (Some []) true) /\
  delivered
    (channel_receive (revision (platform := sample_platform) the_proxied) 0%nat "x"
       (run_to_end all_fulfilled
          (rev_reconnect (revision (platform := sample_platform) the_proxied) initial_state)).1)
  = delivered
      (run_to_end all_fulfilled
         (rev_reconnect (revision (platform := sample_platform) the_proxied) initial_state)).1.
Proof.
  assert (Hn : (length (dcs initial_state) <= 0)%nat) by (cbn; lia).
  assert (Hd : dcs (run_to_end all_fulfilled
                      (rev_reconnect (revision (platform := sample_platform) the_proxied)
                         initial_state)).1 !! 0%nat
               = Some (mkDc rs_connecting [] (Some []) true))
    by (vm_compute; reflexivity).
  split; [exact Hn|]. split; [exact Hd|].
  apply (proj2 (reconnection_installs_no_listeners (platform := sample_platform)
                  the_proxied all_fulfilled initial_state 0%nat _ "x" Hn Hd)).
Defined.

(** X18 for a first handshake that fails at the signaling endpoint. *)
Lemma direct_connect_once_per_session_witness :
  r_isSessionStarted (mkRender [7%nat] false) = false /\
  isSessionStarted
    (run_to_end signaling_fails
       (Direct.connect (mkRender [7%nat] false) initial_state)).1
  = true /\
  exists s2,
    Direct.connect
      (mkRender [7%nat]
         (isSessionStarted
            (run_to_end signaling_fails
               (Direct.connect (mkRender [7%nat] false) initial_state)).1))
      (run_to_end signaling_fails
         (Direct.connect (mkRender [7%nat] false) initial_state)).1
    = Ret s2 tt /\
    same_but_console
      (setConnectionState (mkConnectionState connecting None)
         (run_to_end signaling_fails
            (Direct.connect (mkRender [7%nat] false) initial_state)).1)
      s2.
Proof.
  assert (H : r_isSessionStarted (mkRender [7%nat] false) = false) by reflexivity.
  split; [exact H|].
  apply (direct_connect_once_per_session
           signaling_fails (mkRender [7%nat] false) [7%nat] initial_state H).
Defined.

(** X19 on the initial store, which holds no connection. *)
Lemma restartIce_falls_back_witness :
  pcRef initial_state = None /\
  exists s1,
    DirectRepair.restartIce initial_state = Ret s1 tt /\
    same_but_console initial_state s1.
Proof.
  assert (H : pcRef initial_state = None) by reflexivity.
  split; [exact H|].
  apply (proj2 (proj2 (restartIce_falls_back initial_state)) H).
Defined.

(** X23 on a description with nothing to rewrite and on the sample
    offer, whose audio section is send-only. *)
Lemma ensure_changes_exactly_one_way_audio_witness :
  (Compat.one_way_audio_lines false (Compat.split_crlf "v=0") = [] /\
   Compat.ensureCompatibleAudioSection "v=0" = "v=0") /\
  (Compat.one_way_audio_lines false (Compat.split_crlf sample_offer) <> [] /\
   Compat.ensureCompatibleAudioSection sample_offer <> sample_offer).
Proof.
  assert (H1 : Compat.one_way_audio_lines false (Compat.split_crlf "v=0") = [])
    by (vm_compute; reflexivity).
  assert (H2 : Compat.one_way_audio_lines false (Compat.split_crlf sample_offer) <> [])
    by (vm_compute; discriminate).
  split; (split; [assumption|]).
  - apply (proj1 (ensure_changes_exactly_one_way_audio "v=0") H1).
  - apply (proj2 (ensure_changes_exactly_one_way_audio sample_offer) H2).
Defined.

(** X24 on the sample offer. *)
Lemma ensure_satisfies_direction_check_witness :
  Compat.one_way_audio_lines false (Compat.split_crlf sample_offer) <> [] /\
  Compat.includes (Compat.ensureCompatibleAudioSection sample_offer) "a=sendrecv" = true.
Proof.
  assert (H : Compat.one_way_audio_lines false (Compat.split_crlf sample_offer) <> [])
    by (vm_compute; discriminate).
  split; [exact H|].
  apply (proj1 (ensure_satisfies_direction_check sample_offer H)).
Defined.

(** X29 on the sample server when the upstream answers 429. *)
Lemma post_relays_upstream_answer_witness :
  "sk-test" <> "" /\ "v=0" <> "" /\
  (SessionRoute.complete (server := sample_server) upstream_busy
     (SessionRoute.POST (server := sample_server) (Some "sk-test") [])).2
  = inr (SessionRoute.mkReply "OpenAI API Error 429 rate limited" (Some 429)
           (Some "application/json")).
Proof.
  assert (Hk : "sk-test" <> "") by discriminate.
  assert (Hs : "v=0" <> "") by discriminate.
  split; [exact Hk|]. split; [exact Hs|].
  apply (post_relays_upstream_answer (server := sample_server) upstream_busy
           "sk-test" "v=0" (mkResponse false 429) "rate limited" [] Hk Hs
           eq_refl eq_refl eq_refl).
Defined.

(** X30 on the sample server, for two keys. *)
Lemma post_keeps_key_private_witness :
  "sk-one" <> "" /\ "sk-two" <> "" /\
  SessionRoute.complete (server := sample_server) upstream_busy
    (SessionRoute.POST (server := sample_server) (Some "sk-one") [])
  = SessionRoute.complete (server := sample_server) upstream_busy
      (SessionRoute.POST (server := sample_server) (Some "sk-two") []).
Proof.
  assert (H1 : "sk-one" <> "") by discriminate.
  assert (H2 : "sk-two" <> "") by discriminate.
  split; [exact H1|]. split; [exact H2|].
  apply (post_keeps_key_private (server := sample_server) upstream_busy
           "sk-one" "sk-two" [] H1 H2).
  intros url a1 a2 formData. reflexivity.
Defined.
